(** * CSV-TO-SHEET: the data-operation engine of sheets-automation.js

    A shallow embedding of the functions of [sheets-automation.js] that map a
    declared operation to a range write: the configuration validator
    ([validateConfig]), the dispatcher ([processDataOperations]) with its
    loader and its two write strategies, and the cell arithmetic
    ([getEndCell], [columnToNumber], [getColumnLetter], [getMaxRowLength]).

    Modelling conventions.
    - A JavaScript string is a Rocq [string], one [ascii] per UTF-16 code
      unit (code units 0..255).  The character classes the source uses,
      [[A-Z]] and [\d], only look at code units 65..90 and 48..57.
    - A JavaScript number that holds an integer is a [Z].  JavaScript
      numbers are IEEE doubles: the source only adds, subtracts, multiplies
      by 26, divides exactly by 26 and takes remainders of non-negative
      values, and these are exact, and written in plain decimal digits, as
      long as the numbers are of magnitude below 2^53 ([safe_integer]).
      Beyond that range the source rounds and the model does not, so the
      properties of the cell arithmetic carry the range as a hypothesis:
      rows and columns below 2^53, column names of at most 11 letters.
    - A function that can throw returns a [result]. *)

From Stdlib Require Import ZArith String Ascii DecimalString DecimalPos.
From stdpp Require Import gmap strings list.

Open Scope string_scope.
Open Scope list_scope.
Open Scope Z_scope.

(** ** Results of functions that may throw *)

(** A JavaScript [Error] value is identified by its [message]. *)
Record js_error := Error { message : string }.

Inductive result (A : Type) :=
| Ok (a : A)
| Throw (e : js_error).
Arguments Ok {A} a.
Arguments Throw {A} e.

(** ** Strings and numbers *)

(** [s.charCodeAt(i)] for the character [c] at position [i]. *)
Definition charCode (c : ascii) : Z := Z.of_N (N_of_ascii c).

(** [String.fromCharCode(n)] for a code below 256. *)
Definition fromCharCode (n : Z) : ascii := ascii_of_N (Z.to_N n).

(** The integers a JavaScript number holds exactly, with every integer
    between them (the range of [Number.isSafeInteger]). *)
Definition safe_integer (z : Z) : Prop := - 2 ^ 53 < z < 2 ^ 53.

(** Template-literal conversion of an integer number: decimal digits, with
    a leading minus sign for negative values.  This is what the source
    writes for a [safe_integer]; from 1e21 on JavaScript writes an
    exponent. *)
Definition numberToString (z : Z) : string := NilZero.string_of_int (Z.to_int z).

Definition is_upper (c : ascii) : bool := (65 <=? charCode c) && (charCode c <=? 90).
Definition is_digit (c : ascii) : bool := (48 <=? charCode c) && (charCode c <=? 57).

Fixpoint string_forall (p : ascii -> bool) (s : string) : bool :=
  match s with
  | EmptyString => true
  | String c rest => p c && string_forall p rest
  end.

Fixpoint string_exists (p : ascii -> bool) (s : string) : bool :=
  match s with
  | EmptyString => false
  | String c rest => p c || string_exists p rest
  end.

(** The longest prefix of [s] made of characters of the class [p]. *)
Fixpoint take_class (p : ascii -> bool) (s : string) : string :=
  match s with
  | EmptyString => EmptyString
  | String c rest => if p c then String c (take_class p rest) else EmptyString
  end.

(** [s.match(/[class]+/)]: the leftmost, longest non-empty run of characters
    of the class, or [None] where JavaScript gives [null].  The pattern is
    not anchored, so the run may start anywhere in [s]. *)
Fixpoint match_class (p : ascii -> bool) (s : string) : option string :=
  match s with
  | EmptyString => None
  | String c rest =>
      if p c then Some (String c (take_class p rest)) else match_class p rest
  end.

(** [parseInt(digits)] on a run of decimal digits: the number they
    denote.  The source has this number when it is a [safe_integer], and a
    double close to it otherwise. *)
Fixpoint parseInt_loop (digits : string) (acc : Z) : Z :=
  match digits with
  | EmptyString => acc
  | String c rest => parseInt_loop rest (acc * 10 + (charCode c - 48))
  end.

Definition parseInt (digits : string) : Z := parseInt_loop digits 0.

(** ** Cell reference arithmetic *)

(** A 2D array of cells, rows possibly of different lengths. *)
Definition TabularData : Type := list (list string).

(** [columnToNumber]: the loop [result = result * 26 + (charCodeAt(i) - 64)]
    over the characters of [column], from [result = 0].  The source computes
    in doubles: it has these values as long as every [result] is a
    [safe_integer], which holds for up to 11 uppercase letters. *)
Fixpoint columnToNumber_loop (column : string) (result : Z) : Z :=
  match column with
  | EmptyString => result
  | String c rest => columnToNumber_loop rest (result * 26 + (charCode c - 64))
  end.

Definition columnToNumber (column : string) : Z := columnToNumber_loop column 0.

(** [getColumnLetter]: the loop
    [while (column > 0) { temp = (column - 1) % 26;
       letter = String.fromCharCode(temp + 65) + letter;
       column = (column - temp - 1) / 26; }].
    The recursion is on a bound on the number of iterations; [None] means
    that the bound was too small.  The source computes in doubles: it has
    these values when [column] is a [safe_integer]. *)
Fixpoint getColumnLetter_loop (fuel : nat) (column : Z) (letter : string)
  : option string :=
  if column >? 0 then
    match fuel with
    | O => None
    | S fuel' =>
        let temp := (column - 1) mod 26 in
        getColumnLetter_loop fuel' ((column - temp - 1) / 26)
          (String (fromCharCode (temp + 65)) letter)
    end
  else Some letter.

(** Every iteration divides [column] by at least 26, so one more iteration
    than the binary logarithm of [column] is enough, see
    [getColumnLetter_loop_some]. *)
Definition getColumnLetter_fuel (column : Z) : nat := S (Z.to_nat (Z.log2 column)).

Definition getColumnLetter (column : Z) : string :=
  match getColumnLetter_loop (getColumnLetter_fuel column) column EmptyString with
  | Some letter => letter
  | None => EmptyString
  end.

(** [getMaxRowLength]: [maxLength = Math.max(maxLength, row.length)] over
    the rows, from [maxLength = 0]. *)
Definition getMaxRowLength (data : TabularData) : Z :=
  fold_left (fun maxLength row => Z.max maxLength (Z.of_nat (List.length row))) data 0.

(** [getEndCell]: the two pattern matches, the guard on their results, and
    the end row and end column.  The source computes both in doubles: it
    has these values when the end row and the end column are
    [safe_integer]s. *)
Definition getEndCell (startCell : string) (data : TabularData) : result string :=
  match match_class is_upper startCell, match_class is_digit startCell with
  | Some startCol, Some rowDigits =>
      let startRow := parseInt rowDigits in
      let endRow := startRow + Z.of_nat (List.length data) - 1 in
      let endCol :=
        getColumnLetter (columnToNumber startCol + getMaxRowLength data - 1) in
      Ok (endCol +:+ numberToString endRow)
  | _, _ => Throw (Error ("Invalid cell reference: " +:+ startCell))
  end.

(** ** JavaScript values of the configuration *)

(** The primitive values a configuration field can hold.  [JNum] is an
    integer number, [JNaN] the not-a-number value. *)
Inductive jsval :=
| JUndefined
| JNull
| JBool (b : bool)
| JNum (z : Z)
| JNaN
| JStr (s : string).

(** The condition of [if (v)]: [!v] is [negb (truthy v)]. *)
Definition truthy (v : jsval) : bool :=
  match v with
  | JUndefined | JNull | JNaN => false
  | JBool b => b
  | JNum z => negb (z =? 0)
  | JStr s => negb (String.eqb s EmptyString)
  end.

(** The string a value becomes inside a template literal or as a property
    key. *)
Definition toString (v : jsval) : string :=
  match v with
  | JUndefined => "undefined"
  | JNull => "null"
  | JBool true => "true"
  | JBool false => "false"
  | JNum z => numberToString z
  | JNaN => "NaN"
  | JStr s => s
  end.

(** [v === "literal"]. *)
Definition strict_eq_string (v : jsval) (literal : string) : bool :=
  match v with
  | JStr s => String.eqb s literal
  | _ => false
  end.

(** One element of [config.operations].  A property that the object does
    not have reads as [JUndefined]. *)
Record Operation := {
  sheetName : jsval;
  dataPath : jsval;
  operationType : jsval;
  cellId : jsval
}.

(** [config.operations]: an array of operations, or some other value. *)
Inductive operations_value :=
| OpsArray (ops : list Operation)
| OpsOther (v : jsval).

Record Config := {
  templateUrl : jsval;
  newSpreadsheetName : jsval;
  folderId : jsval;
  sharedDriveId : jsval;
  orgDomain : jsval;
  operations : operations_value
}.

(** ** The validator *)

Definition bind_result {A B : Type} (r : result A) (k : A -> result B) : result B :=
  match r with
  | Ok a => k a
  | Throw e => Throw e
  end.

Definition requiredFields : list string :=
  ["templateUrl"; "newSpreadsheetName"; "folderId"; "sharedDriveId";
   "orgDomain"; "operations"].

(** The truth value of [config[field]]; an array is always truthy. *)
Definition config_field_truthy (config : Config) (field : string) : bool :=
  if String.eqb field "templateUrl" then truthy (templateUrl config)
  else if String.eqb field "newSpreadsheetName" then truthy (newSpreadsheetName config)
  else if String.eqb field "folderId" then truthy (folderId config)
  else if String.eqb field "sharedDriveId" then truthy (sharedDriveId config)
  else if String.eqb field "orgDomain" then truthy (orgDomain config)
  else if String.eqb field "operations" then
    match operations config with
    | OpsArray _ => true
    | OpsOther v => truthy v
    end
  else false.

(** [for (const field of requiredFields) if (!config[field]) throw ...]. *)
Fixpoint check_required (config : Config) (fields : list string) : result unit :=
  match fields with
  | [] => Ok tt
  | field :: rest =>
      if negb (config_field_truthy config field)
      then Throw (Error ("Missing required configuration: " +:+ field))
      else check_required config rest
  end.

(** The text [Operation #<index + 1>] that opens every message of the
    per-operation checks. *)
Definition operation_label (index : nat) : string :=
  "Operation #" +:+ numberToString (Z.of_nat index + 1).

(** The callback of [config.operations.forEach((operation, index) => ...)]. *)
Definition validateOperation (operation : Operation) (index : nat) : result unit :=
  if negb (truthy (sheetName operation)) then
    Throw (Error (operation_label index +:+ " is missing sheetName"))
  else if negb (truthy (dataPath operation)) then
    Throw (Error (operation_label index +:+ " is missing dataPath"))
  else if negb (truthy (operationType operation)) then
    Throw (Error (operation_label index +:+ " is missing operationType"))
  else if strict_eq_string (operationType operation) "replaceAtCell"
          && negb (truthy (cellId operation)) then
    Throw (Error (operation_label index
                  +:+ " with type 'replaceAtCell' is missing cellId"))
  else Ok tt.

(** [forEach] from position [index] on: the first throw ends the walk. *)
Fixpoint validateOperations (ops : list Operation) (index : nat) : result unit :=
  match ops with
  | [] => Ok tt
  | operation :: rest =>
      bind_result (validateOperation operation index)
        (fun _ => validateOperations rest (S index))
  end.

Definition validateConfig (config : Config) : result unit :=
  bind_result (check_required config requiredFields) (fun _ =>
    match operations config with
    | OpsArray ((_ :: _) as ops) => validateOperations ops 0
    | _ => Throw (Error "Operations must be a non-empty array")
    end).

(** ** The dispatcher and the write strategies *)

(** The requests sent to the Sheets client. *)
Inductive api_call :=
| SpreadsheetsGet (spreadsheetId : string)
| ValuesClear (spreadsheetId : string) (range : jsval)
| ValuesUpdate (spreadsheetId : string) (range : jsval)
    (valueInputOption : string) (values : TabularData).

(** What a run does that can be observed from outside, in the order in
    which it happens.  A console event holds the line that is written: for
    a call with two arguments, as [console.error(label, error.message)],
    the two texts joined by one space. *)
Inductive event :=
| ConsoleLog (msg : string)
| ConsoleWarn (msg : string)
| ConsoleError (msg : string)
| ApiCall (call : api_call).

(** The collaborators of the engine.  Each answer may depend on everything
    that happened before the request.
    - [spreadsheets_get]: the titles and ids of [spreadsheet.data.sheets];
    - [read_csv]: [path.resolve], [fs.readFileSync] and [parse] together;
    - [remote]: [values.clear] and [values.update];
    - [match_type_error]: the TypeError of the engine for [startCell.match]
      on a value that is not a string. *)
Record Environment := {
  spreadsheets_get : string -> result (list (string * Z));
  read_csv : list event -> jsval -> result TabularData;
  remote : list event -> api_call -> result unit;
  match_type_error : jsval -> js_error
}.

(** Computations that append to the trace of events and may throw. *)
Definition M (A : Type) : Type := list event -> result A * list event.

Definition ret {A : Type} (a : A) : M A := fun tr => (Ok a, tr).

Definition throw {A : Type} (e : js_error) : M A := fun tr => (Throw e, tr).

Definition bind {A B : Type} (m : M A) (k : A -> M B) : M B :=
  fun tr =>
    match m tr with
    | (Ok a, tr') => k a tr'
    | (Throw e, tr') => (Throw e, tr')
    end.

(** [try { m } catch (error) { handler(error) }]. *)
Definition try_catch {A : Type} (m : M A) (handler : js_error -> M A) : M A :=
  fun tr =>
    match m tr with
    | (Ok a, tr') => (Ok a, tr')
    | (Throw e, tr') => handler e tr'
    end.

Definition emit (e : event) : M unit := fun tr => (Ok tt, tr ++ [e]).

Definition lift {A : Type} (r : result A) : M A := fun tr => (r, tr).

Notation "x <- m ;; k" := (bind m (fun x => k))
  (at level 100, m at level 99, right associativity).
Notation "m ;;; k" := (bind m (fun _ => k))
  (at level 100, right associativity).

(** The double quote character, for the messages that quote a name. *)
Definition dquote : string := String (ascii_of_N 34) EmptyString.

(** The properties every object literal inherits from [Object.prototype];
    each of them reads as a function or an object, which is truthy. *)
Definition object_prototype_keys : list string :=
  ["constructor"; "hasOwnProperty"; "isPrototypeOf"; "propertyIsEnumerable";
   "toLocaleString"; "toString"; "valueOf"; "__proto__";
   "__defineGetter__"; "__defineSetter__"; "__lookupGetter__";
   "__lookupSetter__"].

(** [sheetsMap[title] = sheetId] on the object literal [sheetsMap]:
    assigning a number to [__proto__] changes nothing. *)
Definition sheetsMap_set (sheetsMap : gmap string Z) (title : string) (sheetId : Z)
  : gmap string Z :=
  if String.eqb title "__proto__" then sheetsMap else <[title := sheetId]> sheetsMap.

(** [spreadsheet.data.sheets.forEach(sheet => sheetsMap[title] = sheetId)]. *)
Definition build_sheetsMap (sheets : list (string * Z)) : gmap string Z :=
  fold_left (fun sheetsMap sheet => sheetsMap_set sheetsMap (fst sheet) (snd sheet))
    sheets ∅.

(** The truth value of [sheetsMap[name]]: the own property when there is
    one (the id 0 is falsy), else the inherited one, else [undefined]. *)
Definition sheetsMap_truthy (sheetsMap : gmap string Z) (name : string) : bool :=
  match sheetsMap !! name with
  | Some sheetId => negb (sheetId =? 0)
  | None => bool_decide (name ∈ object_prototype_keys)
  end.

Section Dispatcher.
Context (env : Environment).

Definition call_remote (call : api_call) : M unit :=
  fun tr => (remote env tr call, tr ++ [ApiCall call]).

Definition readCsvFile (filePath : jsval) : M TabularData :=
  try_catch
    (records <- (fun tr => (read_csv env tr filePath, tr)) ;;
     emit (ConsoleLog ("CSV file read successfully: " +:+ toString filePath)) ;;;
     ret records)
    (fun error =>
       emit (ConsoleError ("Error reading CSV file (" +:+ toString filePath +:+ "):"
                           +:+ " " +:+ message error)) ;;;
       throw error).

Definition replaceEntireSheet (spreadsheetId : string) (sheetName : jsval)
    (data : TabularData) : M unit :=
  try_catch
    (call_remote (ValuesClear spreadsheetId sheetName) ;;;
     call_remote (ValuesUpdate spreadsheetId sheetName "USER_ENTERED" data) ;;;
     emit (ConsoleLog ("Replaced all data in sheet: " +:+ toString sheetName)))
    (fun error =>
       emit (ConsoleError ("Error replacing sheet data (" +:+ toString sheetName +:+ "):"
                           +:+ " " +:+ message error)) ;;;
       throw error).

(** [getEndCell(cellId, data)] on the value of [operation.cellId]. *)
Definition getEndCell_value (cellId : jsval) (data : TabularData) : result string :=
  match cellId with
  | JStr startCell => getEndCell startCell data
  | _ => Throw (match_type_error env cellId)
  end.

Definition replaceAtCell (spreadsheetId : string) (sheetName cellId : jsval)
    (data : TabularData) : M unit :=
  try_catch
    (endCell <- lift (getEndCell_value cellId data) ;;
     let range := toString sheetName +:+ "!" +:+ toString cellId +:+ ":" +:+ endCell in
     call_remote (ValuesUpdate spreadsheetId (JStr range) "USER_ENTERED" data) ;;;
     emit (ConsoleLog ("Replaced data at cell " +:+ toString cellId
                       +:+ " in sheet: " +:+ toString sheetName)))
    (fun error =>
       emit (ConsoleError ("Error replacing data at cell (" +:+ toString sheetName
                           +:+ ", " +:+ toString cellId +:+ "):"
                           +:+ " " +:+ message error)) ;;;
       throw error).

(** The body of [for (const operation of operations)] for one operation;
    [continue] and the end of the body both go on with the next one. *)
Definition process_operation (sheetsMap : gmap string Z) (spreadsheetId : string)
    (operation : Operation) : M unit :=
  emit (ConsoleLog ("Processing operation for sheet: "
                    +:+ toString (sheetName operation))) ;;;
  if negb (sheetsMap_truthy sheetsMap (toString (sheetName operation))) then
    emit (ConsoleWarn ("Sheet " +:+ dquote +:+ toString (sheetName operation) +:+ dquote
                       +:+ " not found, skipping operation"))
  else
    csvData <- readCsvFile (dataPath operation) ;;
    if strict_eq_string (operationType operation) "replaceEntireSheet" then
      replaceEntireSheet spreadsheetId (sheetName operation) csvData
    else if strict_eq_string (operationType operation) "replaceAtCell" then
      replaceAtCell spreadsheetId (sheetName operation) (cellId operation) csvData
    else
      emit (ConsoleWarn ("Unknown operation type: "
                         +:+ toString (operationType operation) +:+ ", skipping")).

Fixpoint process_operations (sheetsMap : gmap string Z) (spreadsheetId : string)
    (operations : list Operation) : M unit :=
  match operations with
  | [] => ret tt
  | operation :: rest =>
      process_operation sheetsMap spreadsheetId operation ;;;
      process_operations sheetsMap spreadsheetId rest
  end.

Definition processDataOperations (spreadsheetId : string)
    (operations : list Operation) : M unit :=
  try_catch
    (sheets <- (fun tr => (spreadsheets_get env spreadsheetId,
                           tr ++ [ApiCall (SpreadsheetsGet spreadsheetId)])) ;;
     process_operations (build_sheetsMap sheets) spreadsheetId operations ;;;
     emit (ConsoleLog "All operations completed successfully"))
    (fun error =>
       emit (ConsoleError ("Error processing data operations:"
                           +:+ " " +:+ message error)) ;;;
       throw error).
End Dispatcher.

(** ** The template URL *)

(** The class [[-\w]]: a hyphen, a letter, a digit or an underscore. *)
Definition is_id_char (c : ascii) : bool :=
  (charCode c =? 45)
  || is_digit c
  || is_upper c
  || (charCode c =? 95)
  || ((97 <=? charCode c) && (charCode c <=? 122)).

(** [url.match(/[-\w]{25,}/)]: at the leftmost position from which at least
    25 characters of the class follow each other, all the characters of the
    class that follow each other. *)
Fixpoint match_id (url : string) : option string :=
  match url with
  | EmptyString => None
  | String _ rest =>
      let run := take_class is_id_char url in
      if (25 <=? String.length run)%nat then Some run else match_id rest
  end.

Definition extractSpreadsheetId (url : string) : result string :=
  match match_id url with
  | Some id => Ok id
  | None =>
      Throw (Error "Invalid Google Sheets URL. Could not extract spreadsheet ID.")
  end.

(** ** The run as a whole: Drive requests around the dispatcher *)

(** The requests sent to the Drive client, with the parameters that vary
    and those the source fixes ([fields], [type], [role]). *)
Inductive drive_call :=
| FilesCopy (fileId : string) (name : jsval)
| FilesGet (fileId : string) (fields : string)
| FilesUpdate (fileId : string) (addParents : jsval) (removeParents : string)
    (driveId : jsval) (fields : string)
| PermissionsCreate (fileId : string) (type role : string) (domain : jsval).

(** The events of a whole run: those of the engine and the Drive
    requests. *)
Inductive run_event :=
| Engine (e : event)
| DriveCall (call : drive_call).

(** The collaborators of a whole run.
    - [engine_env]: those of the dispatcher;
    - [load_credentials]: reading and parsing [credentials.json] and
      building the JWT client, which works or throws;
    - [files_copy]: the id in the answer to [files.copy];
    - [files_get]: the parents in the answer to [files.get];
    - [drive_write]: [files.update] and [permissions.create];
    - [url_match_type_error]: the TypeError of the engine for [url.match]
      on a value that is not a string. *)
Record Collaborators := {
  engine_env : Environment;
  load_credentials : result unit;
  files_copy : list run_event -> string -> jsval -> result string;
  files_get : list run_event -> string -> result (list string);
  drive_write : list run_event -> drive_call -> result unit;
  url_match_type_error : jsval -> js_error
}.

(** Computations over the trace of a whole run. *)
Definition R (A : Type) : Type := list run_event -> result A * list run_event.

Definition rret {A : Type} (a : A) : R A := fun tr => (Ok a, tr).

Definition rthrow {A : Type} (e : js_error) : R A := fun tr => (Throw e, tr).

Definition rbind {A B : Type} (m : R A) (k : A -> R B) : R B :=
  fun tr =>
    match m tr with
    | (Ok a, tr') => k a tr'
    | (Throw e, tr') => (Throw e, tr')
    end.

Definition rtry {A : Type} (m : R A) (handler : js_error -> R A) : R A :=
  fun tr =>
    match m tr with
    | (Ok a, tr') => (Ok a, tr')
    | (Throw e, tr') => handler e tr'
    end.

Definition rlift {A : Type} (r : result A) : R A := fun tr => (r, tr).

(** A line on the console. *)
Definition say (e : event) : R unit := fun tr => (Ok tt, tr ++ [Engine e]).

Notation "x <~ m ;; k" := (rbind m (fun x => k))
  (at level 100, m at level 99, right associativity).
Notation "m ~;; k" := (rbind m (fun _ => k))
  (at level 100, right associativity).

(** The events of the engine in a trace, in their order. *)
Fixpoint engine_events (tr : list run_event) : list event :=
  match tr with
  | [] => []
  | Engine e :: rest => e :: engine_events rest
  | DriveCall _ :: rest => engine_events rest
  end.

(** A computation of the engine inside a whole run: it starts from the
    events of the engine so far, and what it adds is added to the trace of
    the run. *)
Definition run_engine {A : Type} (m : M A) : R A :=
  fun tr =>
    let before := engine_events tr in
    let (r, after) := m before in
    (r, tr ++ map Engine (drop (List.length before) after)).

(** [config.operations] once [validateConfig] has returned: an array. *)
Definition config_operations (config : Config) : list Operation :=
  match operations config with
  | OpsArray ops => ops
  | OpsOther _ => []
  end.

Section Run.
Context (world : Collaborators).

(** [createAuthClient] of auth.js: whatever goes wrong, the error thrown is
    a new one with a fixed message. *)
Definition createAuthClient : R unit :=
  rtry
    (rlift (load_credentials world) ~;;
     say (ConsoleLog "Authentication client created successfully"))
    (fun err =>
       say (ConsoleError ("Error creating authentication client:"
                          +:+ " " +:+ message err)) ~;;
       rthrow (Error ("Failed to create authentication client. "
                      +:+ "Make sure service-account.json exists."))).

(** [extractSpreadsheetId(config.templateUrl)] on the value of the field. *)
Definition extractSpreadsheetId_value (url : jsval) : result string :=
  match url with
  | JStr s => extractSpreadsheetId s
  | _ => Throw (url_match_type_error world url)
  end.

(** Returns the id of the copy, the only part of [response.data] that is
    used. *)
Definition copySpreadsheet (sourceId : string) (name : jsval) : R string :=
  rtry
    (id <~ (fun tr => (files_copy world tr sourceId name,
                       tr ++ [DriveCall (FilesCopy sourceId name)])) ;;
     say (ConsoleLog ("Template spreadsheet copied with ID: " +:+ id)) ~;;
     rret id)
    (fun error =>
       say (ConsoleError ("Error copying spreadsheet:" +:+ " " +:+ message error)) ~;;
       rthrow error).

Definition call_drive (call : drive_call) : R unit :=
  fun tr => (drive_write world tr call, tr ++ [DriveCall call]).

Definition moveFileToFolder (fileId : string) (folderId sharedDriveId : jsval)
  : R unit :=
  rtry
    (parents <~ (fun tr => (files_get world tr fileId,
                            tr ++ [DriveCall (FilesGet fileId "parents")])) ;;
     let previousParents := String.concat "," parents in
     call_drive (FilesUpdate fileId folderId previousParents sharedDriveId
                   "id, parents") ~;;
     say (ConsoleLog ("File moved to folder with ID: " +:+ toString folderId
                      +:+ " in shared drive: " +:+ toString sharedDriveId)))
    (fun error =>
       say (ConsoleError ("Error moving file to folder:" +:+ " " +:+ message error)) ~;;
       rthrow error).

Definition shareWithOrganization (fileId : string) (orgDomain : jsval) : R unit :=
  rtry
    (call_drive (PermissionsCreate fileId "domain" "reader" orgDomain) ~;;
     say (ConsoleLog ("File shared with everyone in the organization ("
                      +:+ toString orgDomain +:+ ")")))
    (fun error =>
       say (ConsoleError ("Error sharing file with organization:"
                          +:+ " " +:+ message error)) ~;;
       rthrow error).

Definition createAndUpdateSpreadsheet (config : Config) : R string :=
  rtry
    (rlift (validateConfig config) ~;;
     createAuthClient ~;;
     say (ConsoleLog "Authentication successful. Creating new spreadsheet...") ~;;
     sourceSpreadsheetId <~ rlift (extractSpreadsheetId_value (templateUrl config)) ;;
     newFileId <~ copySpreadsheet sourceSpreadsheetId (newSpreadsheetName config) ;;
     moveFileToFolder newFileId (folderId config) (sharedDriveId config) ~;;
     shareWithOrganization newFileId (orgDomain config) ~;;
     run_engine (processDataOperations (engine_env world) newFileId
                   (config_operations config)) ~;;
     let spreadsheetUrl := "https://docs.google.com/spreadsheets/d/" +:+ newFileId in
     say (ConsoleLog ("New spreadsheet created successfully: " +:+ spreadsheetUrl)) ~;;
     rret spreadsheetUrl)
    (fun error =>
       say (ConsoleError ("Error in createAndUpdateSpreadsheet:"
                          +:+ " " +:+ message error)) ~;;
       rthrow error).
End Run.

(** ** Notions used to state the properties *)

(** What is left of [s] after its longest prefix of the class [p]. *)
Fixpoint drop_class (p : ascii -> bool) (s : string) : string :=
  match s with
  | EmptyString => EmptyString
  | String c rest => if p c then drop_class p rest else s
  end.

(** Whether the first character of [s] is of the class [p]. *)
Definition starts_with (p : ascii -> bool) (s : string) : bool :=
  match s with
  | EmptyString => false
  | String c _ => p c
  end.

Definition nonempty (s : string) : bool := negb (String.eqb s EmptyString).

(** A reference of the form <ColumnLetters><RowDigits>: one or more
    uppercase letters followed by one or more digits and nothing else. *)
Definition well_formed_ref (s : string) : bool :=
  nonempty (take_class is_upper s)
  && nonempty (drop_class is_upper s)
  && string_forall is_digit (drop_class is_upper s).

(** [run] is the first run of characters of the class [p] in [s]: a
    non-empty part of [s] made of such characters, with no such character
    before it and none right after it. *)
Definition first_run (p : ascii -> bool) (s run : string) : Prop :=
  exists before after,
    s = before +:+ run +:+ after /\
    string_exists p before = false /\
    string_forall p run = true /\ run <> EmptyString /\
    starts_with p after = false.

(** The value of a letter in the alphabet A=1 ... Z=26. *)
Definition letter_value (c : ascii) : Z :=
  match index 0 (String c EmptyString) "ABCDEFGHIJKLMNOPQRSTUVWXYZ" with
  | Some i => Z.of_nat i + 1
  | None => 0
  end.

(** The number a run of letters denotes as a bijective base-26 numeral: the
    letter at distance [k] from the right end weighs [26 ^ k]. *)
Fixpoint bijective26 (s : string) : Z :=
  match s with
  | EmptyString => 0
  | String c rest => letter_value c * 26 ^ Z.of_nat (String.length rest) + bijective26 rest
  end.

(** The maximum of the cell counts of the rows, 0 when there is no row. *)
Definition maxRowLength (data : TabularData) : Z :=
  Z.of_nat (list_max (map (fun row : list string => List.length row) data)).

(** All three required fields and, for [replaceAtCell], the anchor hold a
    truthy value. *)
Definition operation_ok (operation : Operation) : bool :=
  truthy (sheetName operation)
  && truthy (dataPath operation)
  && truthy (operationType operation)
  && negb (strict_eq_string (operationType operation) "replaceAtCell"
           && negb (truthy (cellId operation))).

Definition present (v : jsval) : bool :=
  match v with
  | JUndefined => false
  | _ => true
  end.

(** The three required fields are there and, for [replaceAtCell], so is
    [cellId]; nothing is asked of their values. *)
Definition operation_complete (operation : Operation) : bool :=
  present (sheetName operation)
  && present (dataPath operation)
  && present (operationType operation)
  && negb (strict_eq_string (operationType operation) "replaceAtCell"
           && negb (present (cellId operation))).

(** The operation with every falsy field removed. *)
Definition drop_falsy (v : jsval) : jsval := if truthy v then v else JUndefined.

Definition without_falsy_fields (operation : Operation) : Operation :=
  {| sheetName := drop_falsy (sheetName operation);
     dataPath := drop_falsy (dataPath operation);
     operationType := drop_falsy (operationType operation);
     cellId := drop_falsy (cellId operation) |}.

(** The configuration with another array of operations. *)
Definition with_operations (config : Config) (ops : list Operation) : Config :=
  {| templateUrl := templateUrl config;
     newSpreadsheetName := newSpreadsheetName config;
     folderId := folderId config;
     sharedDriveId := sharedDriveId config;
     orgDomain := orgDomain config;
     operations := OpsArray ops |}.

(** The top-level fields of the configuration, which the engine does not
    look at, hold truthy values. *)
Definition surroundings_ok (config : Config) : bool :=
  truthy (templateUrl config) && truthy (newSpreadsheetName config)
  && truthy (folderId config) && truthy (sharedDriveId config)
  && truthy (orgDomain config).

(** A configuration whose top-level fields are filled in, around a given
    array of operations. *)
Definition sample_config (ops : list Operation) : Config :=
  {| templateUrl := JStr "https://docs.google.com/spreadsheets/d/1AbCdEfGhIjKlMnOpQrStUvWxYz012";
     newSpreadsheetName := JStr "Report";
     folderId := JStr "folder-1";
     sharedDriveId := JStr "drive-1";
     orgDomain := JStr "example.com";
     operations := OpsArray ops |}.

(** A spreadsheet with the given sheets, a remote side that accepts every
    request, and a file system on which every file but [bad.csv] holds one
    row of two cells. *)
Definition sample_env (sheets : list (string * Z)) : Environment :=
  {| spreadsheets_get := fun _ => Ok sheets;
     read_csv := fun _ filePath =>
       if strict_eq_string filePath "bad.csv"
       then Throw (Error "ENOENT: no such file or directory")
       else Ok [["a"; "b"]];
     remote := fun _ _ => Ok tt;
     match_type_error := fun _ => Error "startCell.match is not a function" |}.

Definition sample_operation (sheet path type : string) : Operation :=
  {| sheetName := JStr sheet; dataPath := JStr path;
     operationType := JStr type; cellId := JUndefined |}.

(** No request that changes the remote spreadsheet. *)
Definition is_write (e : event) : bool :=
  match e with
  | ApiCall (ValuesClear _ _) | ApiCall (ValuesUpdate _ _ _ _) => true
  | _ => false
  end.

(** ** The command-line front end (index.js) *)

(** What the front end does that can be observed: a question put to the
    user, an event of the run, and the closing of the readline interface. *)
Inductive main_event :=
| Question (question : string)
| Run (e : run_event)
| Close.

(** The surroundings of the front end: the collaborators of the run, the
    answer of the user to a question (which may depend on everything shown
    before), the working directory and the stack text of an error. *)
Record Terminal := {
  collaborators : Collaborators;
  user : list main_event -> string -> string;
  cwd : string;
  error_stack : js_error -> string
}.

(** White space that [parseInt] skips, among the code units below 256. *)
Definition is_js_space (c : ascii) : bool :=
  ((9 <=? charCode c) && (charCode c <=? 13))
  || (charCode c =? 32)
  || (charCode c =? 160).

(** The digits [parseInt(s, 10)] reads: [None] is NaN. *)
Definition parseInt_digits (sign : Z) (s : string) : option Z :=
  let digits := take_class is_digit s in
  if String.eqb digits EmptyString then None else Some (sign * parseInt digits).

(** [parseInt(s, 10)]: leading white space is skipped, one sign is read,
    then the longest run of decimal digits; what follows is ignored. *)
Definition parseInt10 (s : string) : option Z :=
  match drop_class is_js_space s with
  | String c rest =>
      if charCode c =? 45 then parseInt_digits (-1) rest
      else if charCode c =? 43 then parseInt_digits 1 rest
      else parseInt_digits 1 (String c rest)
  | EmptyString => None
  end.

(** The number of times the body of [for (let i = 0; i < n; i++)] runs. *)
Definition loop_count (n : option Z) : nat :=
  match n with
  | Some z => Z.to_nat z
  | None => O
  end.

(** Steps of the front end: they extend the trace and return a value. *)
Definition Steps (A : Type) : Type := list main_event -> A * list main_event.

Definition sret {A : Type} (a : A) : Steps A := fun tr => (a, tr).

Definition sbind {A B : Type} (m : Steps A) (k : A -> Steps B) : Steps B :=
  fun tr => let (a, tr') := m tr in k a tr'.

Notation "x <- m ;> k" := (sbind m (fun x => k))
  (at level 100, m at level 99, right associativity).
Notation "m ;>> k" := (sbind m (fun _ => k))
  (at level 100, right associativity).

(** The line feed that opens some of the lines. *)
Definition newline : string := String (ascii_of_N 10) EmptyString.

(** The run events in a trace of the front end, in their order. *)
Fixpoint run_events (tr : list main_event) : list run_event :=
  match tr with
  | [] => []
  | Run e :: rest => e :: run_events rest
  | _ :: rest => run_events rest
  end.

Section Main.
Context (term : Terminal).

Definition console_log (line : string) : Steps unit :=
  fun tr => (tt, tr ++ [Run (Engine (ConsoleLog line))]).

Definition console_error (line : string) : Steps unit :=
  fun tr => (tt, tr ++ [Run (Engine (ConsoleError line))]).

(** [await prompt(question)]. *)
Definition prompt (question : string) : Steps string :=
  fun tr => (user term tr question, tr ++ [Question question]).

(** One turn of the loop that collects the operations: the object pushed
    has a [cellId] only when the answer for it is not empty. *)
Definition collect_operation (i : nat) : Steps Operation :=
  console_log (newline +:+ "Operation #" +:+ numberToString (Z.of_nat i + 1)
                    +:+ ":") ;>>
  sheet <- prompt "Enter the name of the sub-sheet to modify: " ;>
  path <- prompt "Enter the path to the CSV file with data: " ;>
  console_log "Operation types:" ;>>
  console_log "1. Replace entire sheet" ;>>
  console_log "2. Replace data starting at a specific cell" ;>>
  operationTypeChoice <- prompt "Choose operation type (1 or 2): " ;>
  if String.eqb operationTypeChoice "1" then
    sret {| sheetName := JStr sheet; dataPath := JStr path;
            operationType := JStr "replaceEntireSheet"; cellId := JUndefined |}
  else if String.eqb operationTypeChoice "2" then
    cell <- prompt "Enter the starting cell ID (e.g., A2): " ;>
    sret {| sheetName := JStr sheet; dataPath := JStr path;
            operationType := JStr "replaceAtCell";
            cellId := if truthy (JStr cell) then JStr cell else JUndefined |}
  else
    console_error "Invalid operation type. Defaulting to replace entire sheet." ;>>
    sret {| sheetName := JStr sheet; dataPath := JStr path;
            operationType := JStr "replaceEntireSheet"; cellId := JUndefined |}.

(** The turns [i], [i + 1], ... of the loop, [count] of them. *)
Fixpoint collect_operations (count : nat) (i : nat) : Steps (list Operation) :=
  match count with
  | O => sret []
  | S count' =>
      operation <- collect_operation i ;>
      rest <- collect_operations count' (S i) ;>
      sret (operation :: rest)
  end.

(** The questions of [main] up to the configuration object. *)
Definition collect_config : Steps Config :=
  console_log "Google Sheets Automation Tool" ;>>
  console_log "============================" ;>>
  console_log ("Current working directory:" +:+ " " +:+ cwd term) ;>>
  url <- prompt "Enter the URL of the template spreadsheet: " ;>
  name <- prompt "Enter a name for the new spreadsheet: " ;>
  folder <- prompt "Enter the folder ID where the spreadsheet should be created: " ;>
  drive <- prompt "Enter the shared drive ID: " ;>
  domain <- prompt "Enter your organization domain (e.g., example.com): " ;>
  answer <- prompt "How many sheet operations do you want to perform? " ;>
  ops <- collect_operations (loop_count (parseInt10 answer)) 0 ;>
  sret {| templateUrl := JStr url; newSpreadsheetName := JStr name;
          folderId := JStr folder; sharedDriveId := JStr drive;
          orgDomain := JStr domain; operations := OpsArray ops |}.

(** [await createAndUpdateSpreadsheet(config)] inside the front end. *)
Definition run_spreadsheet (config : Config) : Steps (result string) :=
  fun tr =>
    let before := run_events tr in
    let (r, after) := createAndUpdateSpreadsheet (collaborators term) config before in
    (r, tr ++ map Run (drop (List.length before) after)).

(** [main]: the [try], its [catch] and its [finally]. *)
Definition main : Steps unit :=
  config <- collect_config ;>
  console_log (newline +:+ "Starting spreadsheet creation and data operations...") ;>>
  outcome <- run_spreadsheet config ;>
  (match outcome with
   | Ok spreadsheetUrl =>
       console_log (newline +:+ "Process completed successfully!") ;>>
       console_log ("New spreadsheet URL: " +:+ spreadsheetUrl)
   | Throw error =>
       console_error ("An error occurred:" +:+ " " +:+ message error) ;>>
       console_error ("Stack trace:" +:+ " " +:+ error_stack term error)
   end) ;>>
  fun tr => (tt, tr ++ [Close]).
End Main.

(** ** Notions used to state the further properties *)

(** The spreadsheet a request to the Sheets client is about. *)
Definition call_target (call : api_call) : string :=
  match call with
  | SpreadsheetsGet spreadsheetId => spreadsheetId
  | ValuesClear spreadsheetId _ => spreadsheetId
  | ValuesUpdate spreadsheetId _ _ _ => spreadsheetId
  end.

(** The requests to the Sheets client in a trace of the engine. *)
Fixpoint sheet_requests (tr : list event) : list api_call :=
  match tr with
  | [] => []
  | ApiCall call :: rest => call :: sheet_requests rest
  | _ :: rest => sheet_requests rest
  end.

Definition is_values_call (call : api_call) : bool :=
  match call with
  | SpreadsheetsGet _ => false
  | _ => true
  end.

(** The requests to the Drive client in a trace of a run. *)
Fixpoint drive_calls (tr : list run_event) : list drive_call :=
  match tr with
  | [] => []
  | DriveCall call :: rest => call :: drive_calls rest
  | Engine _ :: rest => drive_calls rest
  end.

(** The four Drive requests of a run that gets to the dispatcher. *)
Definition drive_plan (config : Config) (sourceId newId : string)
    (parents : list string) : list drive_call :=
  [FilesCopy sourceId (newSpreadsheetName config);
   FilesGet newId "parents";
   FilesUpdate newId (folderId config) (String.concat "," parents)
     (sharedDriveId config) "id, parents";
   PermissionsCreate newId "domain" "reader" (orgDomain config)].

(** An event of the front end that is a request to Drive or Sheets. *)
Definition is_request (e : main_event) : bool :=
  match e with
  | Run (DriveCall _) | Run (Engine (ApiCall _)) => true
  | _ => false
  end.


(** What a turn of the loop of the front end shows and asks, up to the
    choice of the type. *)
Definition turn_intro (i : nat) : list main_event :=
  [Run (Engine (ConsoleLog (newline +:+ "Operation #"
                            +:+ numberToString (Z.of_nat i + 1) +:+ ":")));
   Question "Enter the name of the sub-sheet to modify: ";
   Question "Enter the path to the CSV file with data: ";
   Run (Engine (ConsoleLog "Operation types:"));
   Run (Engine (ConsoleLog "1. Replace entire sheet"));
   Run (Engine (ConsoleLog "2. Replace data starting at a specific cell"));
   Question "Choose operation type (1 or 2): "].

(** What follows the choice of the type: nothing after 1, the question
    about the anchor after 2, a complaint after anything else. *)
Definition turn_end (choice : string) : list main_event :=
  if String.eqb choice "1" then []
  else if String.eqb choice "2" then
    [Question "Enter the starting cell ID (e.g., A2): "]
  else
    [Run (Engine (ConsoleError
                    "Invalid operation type. Defaulting to replace entire sheet."))].

(** The four answers of the user in the turn [i] that starts after [tr]:
    each is given after what the turn has shown up to its question.  The
    last one is only asked for after the choice 2. *)
Definition turn_sheet (term : Terminal) (i : nat) (tr : list main_event) : string :=
  user term (tr ++ take 1 (turn_intro i)) "Enter the name of the sub-sheet to modify: ".
Definition turn_path (term : Terminal) (i : nat) (tr : list main_event) : string :=
  user term (tr ++ take 2 (turn_intro i)) "Enter the path to the CSV file with data: ".
Definition turn_choice (term : Terminal) (i : nat) (tr : list main_event) : string :=
  user term (tr ++ take 6 (turn_intro i)) "Choose operation type (1 or 2): ".
Definition turn_cell (term : Terminal) (i : nat) (tr : list main_event) : string :=
  user term (tr ++ turn_intro i) "Enter the starting cell ID (e.g., A2): ".

(** The operation that stands for four answers: the type is replaceAtCell
    for the choice 2 and replaceEntireSheet for any other, and there is a
    [cellId], the anchor typed, only for the choice 2 and an anchor that is
    not empty. *)
Definition expected_operation (sheet path choice cell : string) : Operation :=
  {| sheetName := JStr sheet;
     dataPath := JStr path;
     operationType :=
       JStr (if String.eqb choice "2" then "replaceAtCell" else "replaceEntireSheet");
     cellId :=
       if String.eqb choice "2" && nonempty cell then JStr cell else JUndefined |}.

(** Whether the last character of [s], if any, is outside of the class. *)
Fixpoint ends_outside (p : ascii -> bool) (s : string) : bool :=
  match s with
  | EmptyString => true
  | String c EmptyString => negb (p c)
  | String _ rest => ends_outside p rest
  end.

(** Collaborators of a run for which Drive accepts every request, the copy
    gets the id [copy] and has one parent, around the engine of
    [sample_env]. *)
Definition sample_world (credentials : result unit) (sheets : list (string * Z))
  : Collaborators :=
  {| engine_env := sample_env sheets;
     load_credentials := credentials;
     files_copy := fun _ _ _ => Ok "copy";
     files_get := fun _ _ => Ok ["root"];
     drive_write := fun _ _ => Ok tt;
     url_match_type_error := fun _ => Error "url.match is not a function" |}.

(** What the front end shows before it asks for the number of operations. *)
Definition front_end_intro (term : Terminal) : list main_event :=
  [Run (Engine (ConsoleLog "Google Sheets Automation Tool"));
   Run (Engine (ConsoleLog "============================"));
   Run (Engine (ConsoleLog ("Current working directory:" +:+ " " +:+ cwd term)));
   Question "Enter the URL of the template spreadsheet: ";
   Question "Enter a name for the new spreadsheet: ";
   Question "Enter the folder ID where the spreadsheet should be created: ";
   Question "Enter the shared drive ID: ";
   Question "Enter your organization domain (e.g., example.com): "].

(** The trace when the turn [k] of the loop starts, for a loop that starts
    after [tr]: every turn before has added what it shows and asks. *)
Fixpoint turn_start (term : Terminal) (tr : list main_event) (k : nat)
  : list main_event :=
  match k with
  | O => tr
  | S k' =>
      let start := turn_start term tr k' in
      start ++ turn_intro k' ++ turn_end (turn_choice term k' start)
  end.

(** The operation that stands for the answers given in the turn [k]. *)
Definition turn_operation (term : Terminal) (tr : list main_event) (k : nat)
  : Operation :=
  let start := turn_start term tr k in
  expected_operation (turn_sheet term k start) (turn_path term k start)
    (turn_choice term k start) (turn_cell term k start).

(** The answer to the question about the number of operations. *)
Definition count_answer (term : Terminal) (tr : list main_event) : string :=
  user term (tr ++ front_end_intro term)
    "How many sheet operations do you want to perform? ".

(** The trace when the first turn of the loop starts. *)
Definition first_turn (term : Terminal) (tr : list main_event) : list main_event :=
  tr ++ front_end_intro term
  ++ [Question "How many sheet operations do you want to perform? "].


(** A user who gives the same answer to every question. *)
Definition sample_terminal (answer : string) : Terminal :=
  {| collaborators := sample_world (Ok tt) [("Sheet1", 1)];
     user := fun _ _ => answer;
     cwd := "/work";
     error_stack := fun e => "Error: " +:+ message e |}.

Definition is_question (e : main_event) : bool :=
  match e with
  | Question _ => true
  | _ => false
  end.

(** What a run adds to the trace before it gets to the dispatcher, when
    nothing fails. *)
Definition run_prelude (config : Config) (sourceId newId : string)
    (parents : list string) : list run_event :=
  [Engine (ConsoleLog "Authentication client created successfully");
   Engine (ConsoleLog "Authentication successful. Creating new spreadsheet...");
   DriveCall (FilesCopy sourceId (newSpreadsheetName config));
   Engine (ConsoleLog ("Template spreadsheet copied with ID: " +:+ newId));
   DriveCall (FilesGet newId "parents");
   DriveCall (FilesUpdate newId (folderId config) (String.concat "," parents)
                (sharedDriveId config) "id, parents");
   Engine (ConsoleLog ("File moved to folder with ID: " +:+ toString (folderId config)
                       +:+ " in shared drive: " +:+ toString (sharedDriveId config)));
   DriveCall (PermissionsCreate newId "domain" "reader" (orgDomain config));
   Engine (ConsoleLog ("File shared with everyone in the organization ("
                       +:+ toString (orgDomain config) +:+ ")"))].

(** What a computation of the engine added to a trace: requests about
    the spreadsheet [spreadsheetId] only, none of them for the registry,
    and at most [n] of them. *)
Definition frame (spreadsheetId : string) (n : nat) (ext : list event) : Prop :=
  Forall (fun call => call_target call = spreadsheetId /\ is_values_call call = true)
    (sheet_requests ext) /\
  (List.length (sheet_requests ext) <= n)%nat.

(** A computation that, whatever its outcome, only adds to the trace, and
    adds something that satisfies [P]. *)
Definition extends {A : Type} (P : list event -> Prop) (m : M A) : Prop :=
  forall tr r tr', m tr = (r, tr') -> exists ext, tr' = tr ++ ext /\ P ext.

(** * Properties *)

(** ** Strings *)

Lemma append_nil (t : string) : EmptyString +:+ t = t.
Proof. reflexivity. Qed.

Lemma append_cons (c : ascii) (s t : string) : String c s +:+ t = String c (s +:+ t).
Proof. reflexivity. Qed.

Create Rewrite HintDb strings.
#[local] Hint Rewrite append_nil append_cons : strings.

Lemma append_assoc (s t u : string) : (s +:+ t) +:+ u = s +:+ (t +:+ u).
Proof.
  induction s as [|c s IH]; autorewrite with strings; [reflexivity | now rewrite IH].
Qed.

Lemma append_empty_r (s : string) : s +:+ EmptyString = s.
Proof.
  induction s as [|c s IH]; autorewrite with strings; [reflexivity | now rewrite IH].
Qed.

Lemma append_snoc (s : string) (c : ascii) (t : string) :
  (s +:+ String c EmptyString) +:+ t = s +:+ String c t.
Proof. now rewrite append_assoc. Qed.

Lemma string_forall_append (p : ascii -> bool) (s t : string) :
  string_forall p (s +:+ t) = string_forall p s && string_forall p t.
Proof.
  induction s as [|c s IH]; autorewrite with strings; simpl; [reflexivity |].
  now rewrite IH, andb_assoc.
Qed.

Lemma charCode_fromCharCode (n : Z) : 0 <= n < 256 -> charCode (fromCharCode n) = n.
Proof.
  intros Hn. unfold charCode, fromCharCode.
  rewrite N_ascii_embedding by lia. lia.
Qed.

Lemma fromCharCode_charCode (c : ascii) : fromCharCode (charCode c) = c.
Proof.
  unfold charCode, fromCharCode. rewrite N2Z.id. apply ascii_N_embedding.
Qed.

Lemma length_append (s t : string) :
  String.length (s +:+ t) = (String.length s + String.length t)%nat.
Proof.
  induction s as [|c s IH]; autorewrite with strings; simpl; [reflexivity | now rewrite IH].
Qed.


Lemma is_upper_spec (c : ascii) : is_upper c = true <-> 65 <= charCode c <= 90.
Proof. unfold is_upper. rewrite andb_true_iff, !Z.leb_le. tauto. Qed.

Lemma is_digit_spec (c : ascii) : is_digit c = true <-> 48 <= charCode c <= 57.
Proof. unfold is_digit. rewrite andb_true_iff, !Z.leb_le. tauto. Qed.

Lemma upper_not_digit (c : ascii) : is_upper c = true -> is_digit c = false.
Proof.
  intros H%is_upper_spec. destruct (is_digit c) eqn:E; [|reflexivity].
  apply is_digit_spec in E. lia.
Qed.

Lemma digit_not_upper (c : ascii) : is_digit c = true -> is_upper c = false.
Proof.
  intros H. destruct (is_upper c) eqn:E; [|reflexivity].
  apply upper_not_digit in E. congruence.
Qed.

(** ** [getColumnLetter]: the loop ends, and its equations *)

Lemma next_column_bounds (column : Z) :
  0 < column ->
  0 <= (column - (column - 1) mod 26 - 1) / 26 < column /\
  2 * ((column - (column - 1) mod 26 - 1) / 26) < column.
Proof.
  intros Hpos.
  pose proof (Z.mod_pos_bound (column - 1) 26 ltac:(lia)) as Hm.
  pose proof (Z.div_mod (column - 1) 26 ltac:(lia)) as Hd.
  assert (Hq : (column - (column - 1) mod 26 - 1) / 26 = (column - 1) / 26).
  { replace (column - (column - 1) mod 26 - 1) with (((column - 1) / 26) * 26) by lia.
    apply Z.div_mul. lia. }
  rewrite Hq.
  assert (0 <= (column - 1) / 26) by (apply Z.div_pos; lia).
  lia.
Qed.

(** With enough iterations allowed, the loop returns. *)
Lemma getColumnLetter_loop_some (fuel : nat) :
  forall column letter,
    column < 2 ^ Z.of_nat fuel ->
    exists s, getColumnLetter_loop fuel column letter = Some s.
Proof.
  induction fuel as [|fuel IH]; intros column letter Hlt; simpl.
  - destruct (column >? 0) eqn:E; [apply Z.gtb_lt in E; simpl in Hlt; lia | eauto].
  - destruct (column >? 0) eqn:E; [|eauto].
    apply Z.gtb_lt in E. apply IH.
    destruct (next_column_bounds column E) as [_ H2].
    rewrite Nat2Z.inj_succ, Z.pow_succ_r in Hlt by lia. lia.
Qed.

(** Allowing more iterations does not change what the loop returns. *)
Lemma getColumnLetter_loop_more (fuel : nat) :
  forall column letter s,
    getColumnLetter_loop fuel column letter = Some s ->
    forall extra, getColumnLetter_loop (extra + fuel) column letter = Some s.
Proof.
  induction fuel as [|fuel IH]; intros column letter s H extra.
  - simpl in H. destruct (column >? 0) eqn:E; [discriminate |].
    destruct (extra + 0)%nat; simpl; now rewrite E.
  - simpl in H. replace (extra + S fuel)%nat with (S (extra + fuel)) by lia.
    simpl. destruct (column >? 0) eqn:E; [|assumption].
    now apply IH.
Qed.

Lemma getColumnLetter_loop_agree (fuel1 fuel2 : nat) (column : Z) (letter s1 s2 : string) :
  getColumnLetter_loop fuel1 column letter = Some s1 ->
  getColumnLetter_loop fuel2 column letter = Some s2 ->
  s1 = s2.
Proof.
  intros H1 H2.
  destruct (Nat.le_ge_cases fuel1 fuel2) as [Hle | Hle].
  - apply getColumnLetter_loop_more with (extra := (fuel2 - fuel1)%nat) in H1.
    replace (fuel2 - fuel1 + fuel1)%nat with fuel2 in H1 by lia. congruence.
  - apply getColumnLetter_loop_more with (extra := (fuel1 - fuel2)%nat) in H2.
    replace (fuel1 - fuel2 + fuel2)%nat with fuel1 in H2 by lia. congruence.
Qed.

(** The letters already found stay at the right end of the result. *)
Lemma getColumnLetter_loop_letter (fuel : nat) :
  forall column letter' s',
    getColumnLetter_loop fuel column letter' = Some s' ->
    exists s,
      s' = s +:+ letter' /\
      forall letter, getColumnLetter_loop fuel column letter = Some (s +:+ letter).
Proof.
  induction fuel as [|fuel IH]; intros column letter' s'; simpl.
  - destruct (column >? 0); [discriminate |].
    intros [= <-]. exists EmptyString. split; reflexivity.
  - destruct (column >? 0).
    2: { intros [= <-]. exists EmptyString. split; reflexivity. }
    set (next := (column - (column - 1) mod 26 - 1) / 26).
    set (c := fromCharCode ((column - 1) mod 26 + 65)).
    intros H. destruct (IH _ _ _ H) as (s0 & -> & Hall).
    exists (s0 +:+ String c EmptyString). split.
    + now rewrite append_snoc.
    + intros letter. rewrite Hall. now rewrite append_snoc.
Qed.

Lemma getColumnLetter_fuel_enough (column : Z) :
  column < 2 ^ Z.of_nat (getColumnLetter_fuel column).
Proof.
  unfold getColumnLetter_fuel.
  destruct (Z.lt_ge_cases 0 column) as [Hpos | Hle].
  - pose proof (Z.log2_spec column Hpos) as [_ H].
    pose proof (Z.log2_nonneg column).
    rewrite Nat2Z.inj_succ, Z2Nat.id by lia. exact H.
  - pose proof (Z.pow_pos_nonneg 2 (Z.of_nat (S (Z.to_nat (Z.log2 column))))
                  ltac:(lia) ltac:(lia)).
    lia.
Qed.

(** The function is the loop: it returns what the loop returns, and the
    loop does return. *)
Lemma getColumnLetter_returns (column : Z) :
  getColumnLetter_loop (getColumnLetter_fuel column) column EmptyString
  = Some (getColumnLetter column).
Proof.
  unfold getColumnLetter.
  destruct (getColumnLetter_loop_some _ column EmptyString
              (getColumnLetter_fuel_enough column)) as [s Hs].
  now rewrite Hs.
Qed.

(** No iteration for a column that is not positive. *)
Lemma getColumnLetter_nonpos (column : Z) :
  column <= 0 -> getColumnLetter column = EmptyString.
Proof.
  intros Hle. unfold getColumnLetter, getColumnLetter_fuel. simpl.
  destruct (column >? 0) eqn:E; [apply Z.gtb_lt in E; lia | reflexivity].
Qed.

(** One iteration for a positive column: the last letter is that of
    [(column - 1) % 26], the letters before it are those of the quotient. *)
Lemma getColumnLetter_pos (column : Z) :
  0 < column ->
  getColumnLetter column =
    getColumnLetter ((column - (column - 1) mod 26 - 1) / 26)
    +:+ String (fromCharCode ((column - 1) mod 26 + 65)) EmptyString.
Proof.
  intros Hpos.
  pose proof (getColumnLetter_returns column) as H.
  unfold getColumnLetter_fuel in H. simpl in H.
  replace (column >? 0) with true in H by (symmetry; apply Z.gtb_lt; lia).
  set (next := (column - (column - 1) mod 26 - 1) / 26) in *.
  set (c := fromCharCode ((column - 1) mod 26 + 65)) in *.
  destruct (getColumnLetter_loop_letter _ _ _ _ H) as (s & Hs & Hall).
  rewrite Hs. f_equal.
  pose proof (Hall EmptyString) as H0. rewrite append_empty_r in H0.
  exact (getColumnLetter_loop_agree _ _ _ _ _ _ H0 (getColumnLetter_returns next)).
Qed.

(** ** [columnToNumber] *)

Lemma columnToNumber_loop_append (s t : string) :
  forall result,
    columnToNumber_loop (s +:+ t) result
    = columnToNumber_loop t (columnToNumber_loop s result).
Proof.
  induction s as [|c s IH]; intros result; autorewrite with strings; simpl.
  - reflexivity.
  - apply IH.
Qed.

Lemma columnToNumber_snoc (s : string) (c : ascii) :
  columnToNumber (s +:+ String c EmptyString)
  = columnToNumber s * 26 + (charCode c - 64).
Proof. unfold columnToNumber. now rewrite columnToNumber_loop_append. Qed.

(** The loop adds the value of what it reads to [result], shifted by one
    digit for each character. *)
Lemma columnToNumber_loop_shift (s : string) :
  forall result,
    columnToNumber_loop s result
    = result * 26 ^ Z.of_nat (String.length s) + columnToNumber_loop s 0.
Proof.
  induction s as [|c s IH]; intros result.
  - simpl. lia.
  - cbn [columnToNumber_loop String.length].
    rewrite (IH (result * 26 + (charCode c - 64))), (IH (0 * 26 + (charCode c - 64))).
    rewrite Nat2Z.inj_succ, Z.pow_succ_r by lia. lia.
Qed.

Lemma letter_value_upper (c : ascii) :
  is_upper c = true -> letter_value c = charCode c - 64.
Proof.
  intros H%is_upper_spec.
  rewrite <- (fromCharCode_charCode c).
  assert (Hc : charCode c = 65 \/ charCode c = 66 \/ charCode c = 67 \/ charCode c = 68
            \/ charCode c = 69 \/ charCode c = 70 \/ charCode c = 71 \/ charCode c = 72
            \/ charCode c = 73 \/ charCode c = 74 \/ charCode c = 75 \/ charCode c = 76
            \/ charCode c = 77 \/ charCode c = 78 \/ charCode c = 79 \/ charCode c = 80
            \/ charCode c = 81 \/ charCode c = 82 \/ charCode c = 83 \/ charCode c = 84
            \/ charCode c = 85 \/ charCode c = 86 \/ charCode c = 87 \/ charCode c = 88
            \/ charCode c = 89 \/ charCode c = 90) by lia.
  repeat (destruct Hc as [Hc | Hc]; [rewrite Hc; reflexivity |]).
  rewrite Hc; reflexivity.
Qed.

Lemma columnToNumber_bijective26 (s : string) :
  string_forall is_upper s = true -> columnToNumber s = bijective26 s.
Proof.
  unfold columnToNumber.
  induction s as [|c s IH]; intros H; [reflexivity |].
  simpl in H. apply andb_true_iff in H as [Hc Hs].
  cbn [columnToNumber_loop bijective26].
  rewrite columnToNumber_loop_shift, (IH Hs), (letter_value_upper c Hc). lia.
Qed.

Lemma columnToNumber_loop_lower_bound (s : string) :
  string_forall is_upper s = true ->
  forall result, 0 <= result -> result <= columnToNumber_loop s result.
Proof.
  induction s as [|c s IH]; intros H result Hres; simpl; [lia |].
  simpl in H. apply andb_true_iff in H as [Hc%is_upper_spec Hs].
  specialize (IH Hs (result * 26 + (charCode c - 64)) ltac:(lia)). lia.
Qed.

(** A non-empty run of uppercase letters is a positive column. *)
Lemma columnToNumber_positive (s : string) :
  string_forall is_upper s = true -> s <> EmptyString -> 1 <= columnToNumber s.
Proof.
  destruct s as [|c s]; [congruence |]. intros H _.
  simpl in H. apply andb_true_iff in H as [Hc%is_upper_spec Hs].
  unfold columnToNumber. cbn [columnToNumber_loop].
  pose proof (columnToNumber_loop_lower_bound s Hs (0 * 26 + (charCode c - 64))
                ltac:(lia)).
  lia.
Qed.

(** *** The range of [columnToNumber] *)






(** ** The two conversions are inverse to each other *)

Lemma columnToNumber_getColumnLetter (n : Z) :
  0 <= n -> columnToNumber (getColumnLetter n) = n.
Proof.
  intros Hn. revert n Hn.
  apply (Zlt_0_ind (fun n => columnToNumber (getColumnLetter n) = n)).
  intros n IH Hn.
  destruct (Z.eq_dec n 0) as [-> | Hne]; [reflexivity |].
  assert (Hpos : 0 < n) by lia.
  rewrite (getColumnLetter_pos n Hpos), columnToNumber_snoc.
  destruct (next_column_bounds n Hpos) as [Hb _].
  rewrite IH by lia.
  pose proof (Z.mod_pos_bound (n - 1) 26 ltac:(lia)) as Hm.
  rewrite charCode_fromCharCode by lia.
  pose proof (Z.div_mod (n - 1) 26 ltac:(lia)) as Hd.
  assert (Hq : (n - (n - 1) mod 26 - 1) / 26 = (n - 1) / 26).
  { replace (n - (n - 1) mod 26 - 1) with (((n - 1) / 26) * 26) by lia.
    apply Z.div_mul. lia. }
  rewrite Hq. lia.
Qed.

Lemma getColumnLetter_columnToNumber_loop (s : string) :
  string_forall is_upper s = true ->
  forall result,
    0 <= result ->
    getColumnLetter (columnToNumber_loop s result) = getColumnLetter result +:+ s.
Proof.
  induction s as [|c s IH]; intros H result Hres.
  - simpl. now rewrite append_empty_r.
  - simpl in H. apply andb_true_iff in H as [Hc Hs].
    pose proof Hc as Hr%is_upper_spec.
    cbn [columnToNumber_loop].
    set (next := result * 26 + (charCode c - 64)).
    rewrite (IH Hs next) by (unfold next; lia).
    assert (Hmod : (next - 1) mod 26 = charCode c - 65).
    { unfold next. replace (result * 26 + (charCode c - 64) - 1)
        with (charCode c - 65 + result * 26) by lia.
      rewrite Z.mod_add by lia. apply Z.mod_small. lia. }
    rewrite (getColumnLetter_pos next) by (unfold next; lia).
    rewrite Hmod.
    replace ((next - (charCode c - 65) - 1) / 26) with result.
    2: { unfold next. replace (result * 26 + (charCode c - 64) - (charCode c - 65) - 1)
           with (result * 26) by lia.
         symmetry. apply Z.div_mul. lia. }
    replace (charCode c - 65 + 65) with (charCode c) by lia.
    rewrite fromCharCode_charCode. now rewrite append_snoc.
Qed.

Lemma getColumnLetter_columnToNumber (s : string) :
  string_forall is_upper s = true -> getColumnLetter (columnToNumber s) = s.
Proof.
  intros H. unfold columnToNumber.
  rewrite (getColumnLetter_columnToNumber_loop s H 0) by lia.
  now rewrite getColumnLetter_nonpos by lia.
Qed.

(** The letters [getColumnLetter] writes are uppercase letters. *)
Lemma getColumnLetter_upper (n : Z) :
  string_forall is_upper (getColumnLetter n) = true.
Proof.
  destruct (Z.lt_ge_cases n 0) as [Hneg | Hn].
  { now rewrite getColumnLetter_nonpos by lia. }
  revert n Hn.
  apply (Zlt_0_ind (fun n => string_forall is_upper (getColumnLetter n) = true)).
  intros n IH Hn.
  destruct (Z.lt_ge_cases 0 n) as [Hpos | Hle].
  2: { now rewrite getColumnLetter_nonpos by lia. }
  rewrite (getColumnLetter_pos n Hpos), string_forall_append.
  destruct (next_column_bounds n Hpos) as [Hb _].
  rewrite IH by lia. simpl.
  pose proof (Z.mod_pos_bound (n - 1) 26 ltac:(lia)) as Hm.
  rewrite andb_true_r. apply is_upper_spec.
  rewrite charCode_fromCharCode by lia. lia.
Qed.

Lemma getColumnLetter_nonempty (n : Z) : 1 <= n -> getColumnLetter n <> EmptyString.
Proof.
  intros Hn. rewrite (getColumnLetter_pos n) by lia.
  destruct (getColumnLetter _); autorewrite with strings; discriminate.
Qed.

(** ** Pattern matches on a cell reference *)

Lemma take_class_run (p : ascii -> bool) (s t : string) :
  string_forall p s = true -> starts_with p t = false ->
  take_class p (s +:+ t) = s /\ drop_class p (s +:+ t) = t.
Proof.
  intros Hs Ht. induction s as [|c s IH]; autorewrite with strings.
  - destruct t as [|c t]; simpl in *; [auto | rewrite Ht; auto].
  - simpl in Hs. apply andb_true_iff in Hs as [Hc Hs].
    simpl. rewrite Hc. destruct (IH Hs) as [-> ->]. auto.
Qed.

Lemma take_drop_class (p : ascii -> bool) (s : string) :
  take_class p s +:+ drop_class p s = s.
Proof.
  induction s as [|c s IH]; [reflexivity |].
  simpl. destruct (p c); autorewrite with strings; [now rewrite IH | reflexivity].
Qed.

Lemma take_class_forall (p : ascii -> bool) (s : string) :
  string_forall p (take_class p s) = true.
Proof.
  induction s as [|c s IH]; [reflexivity |].
  simpl. destruct (p c) eqn:E; simpl; [now rewrite E, IH | reflexivity].
Qed.

Lemma starts_with_drop_class (p : ascii -> bool) (s : string) :
  starts_with p (drop_class p s) = false.
Proof.
  induction s as [|c s IH]; [reflexivity |].
  simpl. destruct (p c) eqn:E; [exact IH | simpl; exact E].
Qed.

Lemma nonempty_spec (s : string) : nonempty s = true <-> s <> EmptyString.
Proof. unfold nonempty. destruct s; simpl; split; congruence. Qed.

Lemma match_class_none (p : ascii -> bool) (s : string) :
  match_class p s = None <-> string_exists p s = false.
Proof.
  induction s as [|c s IH]; simpl; [tauto |].
  destruct (p c); simpl; [split; discriminate | exact IH].
Qed.

Lemma match_class_some (p : ascii -> bool) (s : string) :
  string_exists p s = true -> exists run, match_class p s = Some run.
Proof.
  intros H. destruct (match_class p s) as [run|] eqn:E; [eauto |].
  apply match_class_none in E. congruence.
Qed.

(** On a run of the class, the match is the whole run up to the first
    character outside of the class. *)
Lemma match_class_prefix (p : ascii -> bool) (s t : string) :
  string_forall p s = true -> s <> EmptyString -> starts_with p t = false ->
  match_class p (s +:+ t) = Some s.
Proof.
  intros Hs Hne Ht. destruct s as [|c s]; [congruence |].
  simpl in Hs. apply andb_true_iff in Hs as [Hc Hs].
  autorewrite with strings. simpl. rewrite Hc.
  now destruct (take_class_run p s t Hs Ht) as [-> _].
Qed.

(** Characters outside of the class in front of a run are skipped. *)
Lemma match_class_suffix (p q : ascii -> bool) (s t : string) :
  (forall c, q c = true -> p c = false) ->
  string_forall q s = true -> string_forall p t = true -> t <> EmptyString ->
  match_class p (s +:+ t) = Some t.
Proof.
  intros Hpq Hs Ht Hne. induction s as [|c s IH]; autorewrite with strings.
  - rewrite <- (append_empty_r t) at 1.
    now apply match_class_prefix.
  - simpl in Hs. apply andb_true_iff in Hs as [Hc Hs].
    simpl. rewrite (Hpq c Hc). auto.
Qed.

Lemma well_formed_ref_split (s : string) :
  well_formed_ref s = true ->
  exists letters digits,
    s = letters +:+ digits /\
    letters = take_class is_upper s /\ digits = drop_class is_upper s /\
    string_forall is_upper letters = true /\ letters <> EmptyString /\
    string_forall is_digit digits = true /\ digits <> EmptyString.
Proof.
  unfold well_formed_ref. rewrite !andb_true_iff, !nonempty_spec.
  intros [[Hl Hd] Hdig].
  exists (take_class is_upper s), (drop_class is_upper s).
  rewrite take_drop_class. repeat split; auto using take_class_forall.
Qed.

Lemma digits_start (digits : string) :
  string_forall is_digit digits = true -> starts_with is_upper digits = false.
Proof.
  destruct digits as [|c ds]; [reflexivity |].
  simpl. intros [Hc _]%andb_true_iff. now apply digit_not_upper.
Qed.

(** On a well-formed reference the two matches are its two components. *)
Lemma match_well_formed (letters digits : string) :
  string_forall is_upper letters = true -> letters <> EmptyString ->
  string_forall is_digit digits = true -> digits <> EmptyString ->
  match_class is_upper (letters +:+ digits) = Some letters /\
  match_class is_digit (letters +:+ digits) = Some digits.
Proof.
  intros Hl Hln Hd Hdn. split.
  - apply match_class_prefix; auto using digits_start.
  - apply (match_class_suffix is_digit is_upper); auto using upper_not_digit.
Qed.

Lemma match_class_run (p : ascii -> bool) (s run : string) :
  match_class p s = Some run -> string_forall p run = true /\ run <> EmptyString.
Proof.
  induction s as [|c s IH]; [discriminate |].
  simpl. destruct (p c) eqn:E; [| exact IH].
  intros [= <-]. split; [| discriminate].
  simpl. rewrite E. apply take_class_forall.
Qed.

(** A match is the first run of the class, and the first run is what is
    matched. *)
Lemma match_class_first_run (p : ascii -> bool) (s run : string) :
  match_class p s = Some run <-> first_run p s run.
Proof.
  split.
  - revert run. induction s as [|c s IH]; intros run; [discriminate |].
    simpl. destruct (p c) eqn:E.
    + intros [= <-]. exists EmptyString, (drop_class p s).
      rewrite append_nil, append_cons, take_drop_class.
      split; [reflexivity |]. split; [reflexivity |].
      split; [simpl; rewrite E; apply take_class_forall |].
      split; [discriminate | apply starts_with_drop_class].
    + intros H. destruct (IH run H) as (before & after & -> & Hb & Hr & Hn & Ha).
      exists (String c before), after. rewrite append_cons.
      split; [reflexivity |]. split; [simpl; now rewrite E |]. auto.
  - intros (before & after & -> & Hb & Hr & Hn & Ha).
    induction before as [|c before IH].
    + rewrite append_nil. now apply match_class_prefix.
    + simpl in Hb. apply orb_false_iff in Hb as [Hc Hb].
      rewrite append_cons. simpl. rewrite Hc. auto.
Qed.

(** ** [getMaxRowLength] *)

Lemma getMaxRowLength_fold (data : TabularData) :
  forall start,
    0 <= start ->
    fold_left (fun maxLength row => Z.max maxLength (Z.of_nat (List.length row)))
      data start
    = Z.max start (maxRowLength data).
Proof.
  unfold maxRowLength.
  induction data as [|row data IH]; intros start Hstart.
  - simpl. lia.
  - cbn [fold_left map]. rewrite IH by lia.
    change (list_max (List.length row :: map (fun r : list string => List.length r) data))
      with (Nat.max (List.length row)
              (list_max (map (fun r : list string => List.length r) data))).
    lia.
Qed.

Lemma getMaxRowLength_max (data : TabularData) :
  getMaxRowLength data = maxRowLength data.
Proof.
  unfold getMaxRowLength. rewrite getMaxRowLength_fold by lia.
  unfold maxRowLength. lia.
Qed.

(** [maxRowLength] bounds every row and, when there is a row, is the cell
    count of one of them. *)
Lemma maxRowLength_spec (data : TabularData) :
  (forall row, In row data -> Z.of_nat (List.length row) <= maxRowLength data) /\
  (data <> [] -> exists row, In row data /\ maxRowLength data = Z.of_nat (List.length row)).
Proof.
  unfold maxRowLength. induction data as [|row data [IHle IHex]].
  - split; [intros row [] | congruence].
  - change (list_max (map (fun r : list string => List.length r) (row :: data)))
      with (Nat.max (List.length row)
              (list_max (map (fun r : list string => List.length r) data))).
    split.
    + intros r [<- | Hin]; [lia |]. specialize (IHle r Hin). lia.
    + intros _. destruct data as [|row' data'].
      * exists row. split; [now left |]. simpl. lia.
      * destruct IHex as (r & Hin & Hr); [congruence |].
        destruct (Nat.max_spec (List.length row)
                    (list_max (map (fun r : list string => List.length r) (row' :: data'))))
          as [[_ ->] | [_ ->]].
        -- exists r. split; [now right | exact Hr].
        -- exists row. split; [now left | reflexivity].
Qed.

(** ** Numbers and their digits *)

(** Replaces the code of a character literal by its value. *)
Ltac eval_charCode :=
  repeat match goal with
    | |- context [charCode ?c] =>
        let v := eval vm_compute in (charCode c) in change (charCode c) with v
    end.

Lemma parseInt_loop_uint_acc (d : Decimal.uint) :
  forall acc : positive,
    parseInt_loop (NilEmpty.string_of_uint d) (Z.pos acc)
    = Z.pos (Pos.of_uint_acc d acc).
Proof.
  induction d as [|d IH|d IH|d IH|d IH|d IH|d IH|d IH|d IH|d IH|d IH]; intros acc;
    [reflexivity | ..];
    cbn [NilEmpty.string_of_uint parseInt_loop Pos.of_uint_acc];
    rewrite <- IH; f_equal; eval_charCode; lia.
Qed.

Lemma parseInt_loop_uint (d : Decimal.uint) :
  parseInt_loop (NilEmpty.string_of_uint d) 0 = Z.of_N (Pos.of_uint d).
Proof.
  induction d as [|d IH|d IH|d IH|d IH|d IH|d IH|d IH|d IH|d IH|d IH];
    [reflexivity | ..];
    cbn [NilEmpty.string_of_uint parseInt_loop Pos.of_uint]; eval_charCode;
    [exact IH | ..];
    cbn [Z.of_N]; rewrite <- parseInt_loop_uint_acc; reflexivity.
Qed.

Lemma string_of_uint_digits (d : Decimal.uint) :
  string_forall is_digit (NilEmpty.string_of_uint d) = true.
Proof.
  induction d as [|d IH|d IH|d IH|d IH|d IH|d IH|d IH|d IH|d IH|d IH];
    [reflexivity | ..]; cbn [NilEmpty.string_of_uint string_forall];
    rewrite IH; reflexivity.
Qed.

Lemma numberToString_pos (p : positive) :
  numberToString (Z.pos p) = NilEmpty.string_of_uint (Pos.to_uint p).
Proof.
  unfold numberToString. cbn [Z.to_int NilZero.string_of_int NilZero.string_of_uint].
  pose proof (Unsigned.to_uint_nonnil p). now destruct (Pos.to_uint p).
Qed.

(** The digits written for a number that is not negative read back as that
    number. *)
Lemma parseInt_numberToString (z : Z) : 0 <= z -> parseInt (numberToString z) = z.
Proof.
  intros Hz. destruct z as [|p|p]; [reflexivity | | lia].
  rewrite numberToString_pos. unfold parseInt.
  now rewrite parseInt_loop_uint, Unsigned.of_to.
Qed.

Lemma numberToString_digits (z : Z) :
  0 <= z ->
  string_forall is_digit (numberToString z) = true /\ numberToString z <> EmptyString.
Proof.
  intros Hz. destruct z as [|p|p]; [split; [reflexivity | discriminate] | | lia].
  rewrite numberToString_pos. split; [apply string_of_uint_digits |].
  pose proof (Unsigned.to_uint_nonnil p). now destruct (Pos.to_uint p).
Qed.

(** No number starts with an uppercase letter. *)
Lemma numberToString_start (z : Z) : starts_with is_upper (numberToString z) = false.
Proof.
  destruct z as [|p|p]; [reflexivity | | reflexivity].
  destruct (numberToString_digits (Z.pos p) ltac:(lia)) as [H _].
  now apply digits_start.
Qed.

(** ** [getEndCell] *)

(** The guard of [getEndCell] throws exactly when one of the two matches
    is [null]. *)
Lemma getEndCell_throws (startCell : string) (data : TabularData) :
  string_exists is_upper startCell && string_exists is_digit startCell = false ->
  getEndCell startCell data = Throw (Error ("Invalid cell reference: " +:+ startCell)).
Proof.
  intros H. unfold getEndCell.
  apply andb_false_iff in H as [H | H]; apply match_class_none in H; rewrite H.
  - reflexivity.
  - now destruct (match_class is_upper startCell).
Qed.

Lemma getEndCell_returns (startCell : string) (data : TabularData) :
  string_exists is_upper startCell && string_exists is_digit startCell = true ->
  exists endCell, getEndCell startCell data = Ok endCell.
Proof.
  intros [Hu Hd]%andb_true_iff. unfold getEndCell.
  destruct (match_class_some _ _ Hu) as [letters ->].
  destruct (match_class_some _ _ Hd) as [digits ->].
  eauto.
Qed.

Lemma string_exists_append_l (p : ascii -> bool) (s t : string) :
  string_exists p s = true -> string_exists p (s +:+ t) = true.
Proof.
  induction s as [|c s IH]; [discriminate |].
  autorewrite with strings. simpl. destruct (p c); simpl; auto.
Qed.

Lemma string_exists_append_r (p : ascii -> bool) (s t : string) :
  string_exists p t = true -> string_exists p (s +:+ t) = true.
Proof.
  intros H. induction s as [|c s IH]; autorewrite with strings; [assumption |].
  simpl. rewrite IH. apply orb_true_r.
Qed.

Lemma string_forall_exists (p : ascii -> bool) (s : string) :
  string_forall p s = true -> s <> EmptyString -> string_exists p s = true.
Proof.
  destruct s as [|c s]; [congruence |].
  simpl. intros [-> _]%andb_true_iff _. reflexivity.
Qed.

Lemma well_formed_ref_has_both (s : string) :
  well_formed_ref s = true ->
  string_exists is_upper s && string_exists is_digit s = true.
Proof.
  intros (letters & digits & -> & _ & _ & Hl & Hln & Hd & Hdn)%well_formed_ref_split.
  apply andb_true_iff. split.
  - apply string_exists_append_l. now apply string_forall_exists.
  - apply string_exists_append_r. now apply string_forall_exists.
Qed.

(** The result on a well-formed reference, in terms of its two
    components. *)
Lemma getEndCell_well_formed (s : string) (data : TabularData) :
  well_formed_ref s = true ->
  getEndCell s data =
    Ok (getColumnLetter (columnToNumber (take_class is_upper s) + maxRowLength data - 1)
        +:+ numberToString (parseInt (drop_class is_upper s)
                            + Z.of_nat (List.length data) - 1)).
Proof.
  intros H.
  destruct (well_formed_ref_split s H)
    as (letters & digits & Hs & Hletters & Hdigits & Hl & Hln & Hd & Hdn).
  rewrite <- Hletters, <- Hdigits. unfold getEndCell. rewrite Hs.
  destruct (match_well_formed letters digits Hl Hln Hd Hdn) as [-> ->].
  now rewrite getMaxRowLength_max.
Qed.

(** The result in terms of the two matches. *)
Lemma getEndCell_matches (s letters digits : string) (data : TabularData) :
  match_class is_upper s = Some letters ->
  match_class is_digit s = Some digits ->
  getEndCell s data =
    Ok (getColumnLetter (columnToNumber letters + maxRowLength data - 1)
        +:+ numberToString (parseInt digits + Z.of_nat (List.length data) - 1)).
Proof.
  intros Hl Hd. unfold getEndCell. now rewrite Hl, Hd, getMaxRowLength_max.
Qed.

(** The runs matched in a string, put together, are a well-formed reference
    with the same result. *)
Lemma getEndCell_of_matches (s letters digits : string) (data : TabularData) :
  match_class is_upper s = Some letters ->
  match_class is_digit s = Some digits ->
  well_formed_ref (letters +:+ digits) = true /\
  getEndCell s data = getEndCell (letters +:+ digits) data.
Proof.
  intros Hl Hd.
  destruct (match_class_run _ _ _ Hl) as [Hlu Hln].
  destruct (match_class_run _ _ _ Hd) as [Hdd Hdn].
  destruct (match_well_formed letters digits Hlu Hln Hdd Hdn) as [Hl' Hd'].
  split.
  - unfold well_formed_ref.
    destruct (take_class_run is_upper letters digits Hlu (digits_start digits Hdd))
      as [-> ->].
    rewrite Hdd. apply nonempty_spec in Hln, Hdn. now rewrite Hln, Hdn.
  - unfold getEndCell. now rewrite Hl, Hd, Hl', Hd'.
Qed.

(** Proves that a closed number is a [safe_integer]. *)
Ltac safe_integer_closed := vm_compute; split; reflexivity.

(** * The claims *)

(** C2. Round trip of the column conversions: for every integer
    [1 <= n <= 18278], [columnToNumber (getColumnLetter n) = n], and for
    every string [s] of at most three uppercase letters,
    [getColumnLetter (columnToNumber s) = s]. *)
Theorem column_round_trip :
  (forall n : Z, 1 <= n <= 18278 -> columnToNumber (getColumnLetter n) = n) /\
  (forall s : string,
      string_forall is_upper s = true -> (String.length s <= 3)%nat ->
      getColumnLetter (columnToNumber s) = s).
Proof.
  split.
  - intros n Hn. apply columnToNumber_getColumnLetter. lia.
  - intros s Hs _. now apply getColumnLetter_columnToNumber.
Qed.

Lemma column_round_trip_witness :
  columnToNumber (getColumnLetter 18278) = 18278 /\
  getColumnLetter (columnToNumber "ZZZ") = "ZZZ".
Proof.
  split.
  - apply (proj1 column_round_trip 18278). lia.
  - apply (proj2 column_round_trip "ZZZ"); [reflexivity | simpl; lia].
Defined.

(** C3. For every table [data] and every well-formed start reference (its
    column is then positive), [getEndCell] returns a reference whose column
    is [start column + maxRowLength data - 1] and, for a positive start row,
    whose row is [start row + length data - 1]: the letters of that column
    followed by the digits of that row.  This is for an end column and an
    end row below 2^53, where the numbers of the source are exact.
    [maxRowLength] is the largest cell count of a row, and is what
    [getMaxRowLength] computes: a bound on the cell count of every row that
    one of the rows reaches.  For instance B2 for a 2-row table of widths 2
    and 1 at A1, and C5 for a single cell at C5. *)
Theorem getEndCell_extent :
  (forall (s : string) (data : TabularData),
      well_formed_ref s = true ->
      let column := columnToNumber (take_class is_upper s) in
      let row := parseInt (drop_class is_upper s) in
      safe_integer (column + maxRowLength data - 1) ->
      safe_integer (row + Z.of_nat (List.length data) - 1) ->
      1 <= column /\
      exists endCell,
        getEndCell s data = Ok endCell /\
        endCell = getColumnLetter (column + maxRowLength data - 1)
                  +:+ numberToString (row + Z.of_nat (List.length data) - 1) /\
        columnToNumber (take_class is_upper endCell) = column + maxRowLength data - 1 /\
        (1 <= row ->
         parseInt (drop_class is_upper endCell) = row + Z.of_nat (List.length data) - 1) /\
        getMaxRowLength data = maxRowLength data) /\
  (forall data : TabularData,
      (forall row, In row data -> Z.of_nat (List.length row) <= getMaxRowLength data) /\
      (data <> [] ->
       exists row, In row data /\ getMaxRowLength data = Z.of_nat (List.length row))) /\
  getEndCell "A1" [["a"; "b"]; ["c"]] = Ok "B2" /\
  getEndCell "C5" [["x"]] = Ok "C5".
Proof.
  split; [| split; [| split; reflexivity]].
  2: { intros data. rewrite getMaxRowLength_max. apply maxRowLength_spec. }
  intros s data H column row _ _.
  destruct (well_formed_ref_split s H)
    as (letters & digits & Hs & Hletters & Hdigits & Hl & Hln & Hd & Hdn).
  assert (Hcol : 1 <= column).
  { subst column. rewrite <- Hletters. now apply columnToNumber_positive. }
  split; [exact Hcol |].
  eexists. split; [now apply getEndCell_well_formed |].
  fold column row. split; [reflexivity |].
  destruct (take_class_run is_upper
              (getColumnLetter (column + maxRowLength data - 1))
              (numberToString (row + Z.of_nat (List.length data) - 1))
              (getColumnLetter_upper _) (numberToString_start _)) as [-> ->].
  split; [| split; [| apply getMaxRowLength_max]].
  - apply columnToNumber_getColumnLetter. unfold maxRowLength. lia.
  - intros Hrow. apply parseInt_numberToString. lia.
Qed.

Lemma getEndCell_extent_witness :
  exists endCell,
    getEndCell "AA10" [["x"; "y"]; []; ["z"]] = Ok endCell /\
    columnToNumber (take_class is_upper endCell) = 28 /\
    parseInt (drop_class is_upper endCell) = 12.
Proof.
  destruct (proj1 getEndCell_extent "AA10" [["x"; "y"]; []; ["z"]] eq_refl
              ltac:(safe_integer_closed) ltac:(safe_integer_closed))
    as (_ & endCell & Hend & _ & Hcol & Hrow & _).
  exists endCell. split; [exact Hend |]. split; [exact Hcol |].
  apply Hrow. vm_compute. discriminate.
Defined.




(** C6, as stated, fails: [getColumnLetter] has no throw; for a number
    below 1 the loop body never runs and the empty string is returned, which
    [getEndCell] then uses as the column of its result. *)
Lemma getColumnLetter_no_failure :
  getColumnLetter 0 = EmptyString /\
  getColumnLetter (-5) = EmptyString /\
  getEndCell "A1" [] = Ok "0".
Proof. repeat split. Qed.

(** C6, amended. [getColumnLetter] returns for every integer in the range
    where the numbers of the source are exact (magnitude below 2^53): the
    loop ends within the iterations allowed; the result is the empty string
    for every [n < 1], and for every [n >= 1] a non-empty string of
    uppercase letters whose value, as a bijective base-26 numeral, is
    [n]. *)
Theorem getColumnLetter_total (n : Z) :
  safe_integer n ->
  getColumnLetter_loop (getColumnLetter_fuel n) n EmptyString
  = Some (getColumnLetter n) /\
  (n < 1 -> getColumnLetter n = EmptyString) /\
  (1 <= n ->
   getColumnLetter n <> EmptyString /\
   string_forall is_upper (getColumnLetter n) = true /\
   bijective26 (getColumnLetter n) = n /\
   columnToNumber (getColumnLetter n) = n).
Proof.
  intros _.
  split; [apply getColumnLetter_returns |].
  split; [intros Hn; apply getColumnLetter_nonpos; lia |].
  intros Hn.
  split; [now apply getColumnLetter_nonempty |].
  split; [apply getColumnLetter_upper |].
  split; [| apply columnToNumber_getColumnLetter; lia].
  rewrite <- columnToNumber_bijective26 by apply getColumnLetter_upper.
  apply columnToNumber_getColumnLetter. lia.
Qed.

Lemma getColumnLetter_total_witness :
  getColumnLetter (-1) = EmptyString /\
  getColumnLetter 703 <> EmptyString /\
  bijective26 (getColumnLetter 703) = 703.
Proof.
  split.
  - apply (proj1 (proj2 (getColumnLetter_total (-1) ltac:(safe_integer_closed)))). lia.
  - destruct (proj2 (proj2 (getColumnLetter_total 703 ltac:(safe_integer_closed)))
                ltac:(lia)) as (Hne & _ & Hv & _).
    split; [exact Hne | exact Hv].
Defined.

(** C7, as stated, fails: the patterns are not anchored, so a string that
    is not of the form <ColumnLetters><RowDigits> but has an uppercase
    letter and a digit somewhere is accepted. *)
Lemma getEndCell_accepts_malformed :
  well_formed_ref "1A" = false /\ getEndCell "1A" [["x"]] = Ok "A1" /\
  well_formed_ref "A1:B2" = false /\ getEndCell "A1:B2" [["x"]] = Ok "A1".
Proof. repeat split. Qed.

(** C7, amended. [getEndCell] throws "Invalid cell reference" exactly when
    the start reference has no uppercase letter or no digit.  Otherwise it
    returns, and what it returns is made from the first run of uppercase
    letters and the first run of digits of the start reference, wherever
    they are: the result is the one for the well-formed reference made of
    these letters followed by these digits, that is, for an end column and
    an end row below 2^53 (where the numbers of the source are exact), the
    letters of the column [column of the letters + maxRowLength data - 1]
    followed by the digits of the row [number of the digits + length data
    - 1].  In particular it returns on every well-formed reference. *)
Theorem getEndCell_throws_iff (startCell : string) (data : TabularData) :
  (string_exists is_upper startCell && string_exists is_digit startCell = false ->
   getEndCell startCell data
   = Throw (Error ("Invalid cell reference: " +:+ startCell))) /\
  (string_exists is_upper startCell && string_exists is_digit startCell = true ->
   exists letters digits endCell,
     first_run is_upper startCell letters /\
     first_run is_digit startCell digits /\
     getEndCell startCell data = Ok endCell) /\
  (forall letters digits : string,
      first_run is_upper startCell letters ->
      first_run is_digit startCell digits ->
      let endColumn := columnToNumber letters + maxRowLength data - 1 in
      let endRow := parseInt digits + Z.of_nat (List.length data) - 1 in
      well_formed_ref (letters +:+ digits) = true /\
      getEndCell startCell data = getEndCell (letters +:+ digits) data /\
      (safe_integer endColumn -> safe_integer endRow ->
       getEndCell startCell data
       = Ok (getColumnLetter endColumn +:+ numberToString endRow))) /\
  (well_formed_ref startCell = true ->
   first_run is_upper startCell (take_class is_upper startCell) /\
   first_run is_digit startCell (drop_class is_upper startCell) /\
   exists endCell, getEndCell startCell data = Ok endCell).
Proof.
  split; [apply getEndCell_throws |]. split; [| split].
  - intros H. apply andb_true_iff in H as [Hu Hd].
    destruct (match_class_some _ _ Hu) as [letters Hl].
    destruct (match_class_some _ _ Hd) as [digits Hdg].
    exists letters, digits. eexists.
    split; [now apply match_class_first_run |].
    split; [now apply match_class_first_run |].
    exact (getEndCell_matches _ _ _ _ Hl Hdg).
  - intros letters digits Hl%match_class_first_run Hd%match_class_first_run
      endColumn endRow.
    destruct (getEndCell_of_matches startCell letters digits data Hl Hd) as [Hwf Heq].
    split; [exact Hwf |]. split; [exact Heq |].
    intros _ _. exact (getEndCell_matches _ _ _ _ Hl Hd).
  - intros H.
    destruct (well_formed_ref_split startCell H)
      as (letters & digits & Hs & Hletters & Hdigits & Hl & Hln & Hd & Hdn).
    rewrite <- Hletters, <- Hdigits.
    destruct (match_well_formed letters digits Hl Hln Hd Hdn) as [Hml Hmd].
    rewrite <- Hs in Hml, Hmd.
    split; [now apply match_class_first_run |].
    split; [now apply match_class_first_run |].
    eexists. exact (getEndCell_matches _ _ _ _ Hml Hmd).
Qed.

Lemma getEndCell_throws_iff_witness :
  getEndCell "a1" [["x"]] = Throw (Error "Invalid cell reference: a1") /\
  (exists endCell, getEndCell "x7Q" [["x"]] = Ok endCell) /\
  getEndCell "row 7, column Q" [["x"; "y"]; ["z"]] = Ok ("R" +:+ "8") /\
  (exists endCell, getEndCell "B7" [["x"]] = Ok endCell).
Proof.
  split; [| split; [| split]].
  - apply (proj1 (getEndCell_throws_iff "a1" [["x"]])). reflexivity.
  - destruct (proj1 (proj2 (getEndCell_throws_iff "x7Q" [["x"]])) eq_refl)
      as (_ & _ & endCell & _ & _ & Hend).
    exists endCell. exact Hend.
  - apply (proj1 (proj2 (proj2 (getEndCell_throws_iff "row 7, column Q"
                                  [["x"; "y"]; ["z"]]))) "Q" "7").
    + exists "row 7, column ", EmptyString. repeat split; discriminate.
    + exists "row ", ", column Q". repeat split; discriminate.
    + safe_integer_closed.
    + safe_integer_closed.
  - apply (proj2 (proj2 (proj2 (getEndCell_throws_iff "B7" [["x"]])))). reflexivity.
Defined.

(** C10, as stated, fails: on empty data the column prefix is empty only
    when the start column is A; from B5 the result is A4, which is a
    well-formed reference. *)
Lemma getEndCell_empty_data_prefix :
  getEndCell "B5" [] = Ok "A4" /\ well_formed_ref "A4" = true /\
  getEndCell "B1" [] = Ok "A0".
Proof. repeat split. Qed.

(** C10, amended. On empty data [getEndCell] does not throw for a
    well-formed start reference with letters [c] and row [r], both below
    2^53 (where the numbers of the source are exact): it returns the
    letters of the column before [c] followed by the digits of [r - 1].  The
    letters are missing exactly when [c] is A; the result is then not a
    well-formed reference, as for A1, which gives 0. *)
Theorem getEndCell_empty_data (s : string) :
  well_formed_ref s = true ->
  safe_integer (columnToNumber (take_class is_upper s)) ->
  safe_integer (parseInt (drop_class is_upper s)) ->
  let endLetters := getColumnLetter (columnToNumber (take_class is_upper s) - 1) in
  let endCell := endLetters +:+ numberToString (parseInt (drop_class is_upper s) - 1) in
  getEndCell s [] = Ok endCell /\
  (endLetters = EmptyString <-> take_class is_upper s = "A") /\
  (take_class is_upper s = "A" -> well_formed_ref endCell = false) /\
  getEndCell "A1" [] = Ok "0".
Proof.
  intros H _ _ endLetters endCell.
  destruct (well_formed_ref_split s H)
    as (letters & digits & Hs & Hletters & Hdigits & Hl & Hln & Hd & Hdn).
  assert (Hiff : endLetters = EmptyString <-> take_class is_upper s = "A").
  { subst endLetters. rewrite <- Hletters.
    pose proof (columnToNumber_positive letters Hl Hln) as Hpos.
    split.
    - intros Hempty.
      destruct (Z.eq_dec (columnToNumber letters) 1) as [H1 | Hne].
      + rewrite <- (getColumnLetter_columnToNumber letters Hl), H1. reflexivity.
      + exfalso. apply (getColumnLetter_nonempty (columnToNumber letters - 1)); [lia |].
        exact Hempty.
    - intros ->. reflexivity. }
  split; [| split; [exact Hiff | split; [| reflexivity]]].
  - rewrite (getEndCell_well_formed s [] H). subst endCell endLetters.
    unfold maxRowLength. simpl.
    now rewrite Z.add_0_r, Z.add_0_r.
  - intros HA. apply Hiff in HA. subst endCell. rewrite HA.
    autorewrite with strings. unfold well_formed_ref.
    pose proof (numberToString_start (parseInt (drop_class is_upper s) - 1)) as Hstart.
    destruct (numberToString (parseInt (drop_class is_upper s) - 1)) as [|c rest];
      [reflexivity |].
    simpl in Hstart. simpl. now rewrite Hstart.
Qed.

Lemma getEndCell_empty_data_witness :
  getEndCell "AB7" [] = Ok ("AA" +:+ "6").
Proof.
  exact (proj1 (getEndCell_empty_data "AB7" eq_refl
                  ltac:(safe_integer_closed) ltac:(safe_integer_closed))).
Defined.

(** ** The validator *)

Lemma check_required_surroundings (config : Config) (ops : list Operation) :
  surroundings_ok config = true -> operations config = OpsArray ops ->
  check_required config requiredFields = Ok tt.
Proof.
  unfold surroundings_ok. rewrite !andb_true_iff.
  intros [[[[H1 H2] H3] H4] H5] Hops.
  unfold requiredFields, check_required, config_field_truthy. simpl.
  now rewrite H1, H2, H3, H4, H5, Hops.
Qed.

Lemma validateOperation_ok (operation : Operation) (index : nat) :
  operation_ok operation = true -> validateOperation operation index = Ok tt.
Proof.
  unfold operation_ok, validateOperation. rewrite !andb_true_iff.
  intros [[[-> ->] ->] H]. simpl.
  apply negb_true_iff in H. now rewrite H.
Qed.

Lemma validateOperation_ok_inv (operation : Operation) (index : nat) :
  validateOperation operation index = Ok tt -> operation_ok operation = true.
Proof.
  unfold operation_ok, validateOperation.
  destruct (truthy (sheetName operation)); simpl; [| discriminate].
  destruct (truthy (dataPath operation)); simpl; [| discriminate].
  destruct (truthy (operationType operation)); simpl; [| discriminate].
  destruct (strict_eq_string (operationType operation) "replaceAtCell"
            && negb (truthy (cellId operation))); [discriminate | reflexivity].
Qed.

(** The walk stops at the first operation that is not accepted. *)
Lemma validateOperations_app (pre : list Operation) :
  forall (operation : Operation) (post : list Operation) (index : nat),
    forallb operation_ok pre = true ->
    validateOperations (pre ++ operation :: post) index
    = bind_result (validateOperation operation (index + List.length pre))
        (fun _ => validateOperations post (S (index + List.length pre))).
Proof.
  induction pre as [|p pre IH]; intros operation post index Hpre.
  - simpl. now rewrite Nat.add_0_r.
  - simpl in Hpre. apply andb_true_iff in Hpre as [Hp Hpre].
    cbn [app validateOperations]. rewrite (validateOperation_ok p index Hp).
    cbn [bind_result]. rewrite (IH operation post (S index) Hpre).
    cbn [List.length]. now rewrite Nat.add_succ_r.
Qed.

Lemma validateOperations_ok_iff (ops : list Operation) :
  forall index,
    validateOperations ops index = Ok tt <-> forallb operation_ok ops = true.
Proof.
  induction ops as [|operation ops IH]; intros index; simpl; [tauto |].
  rewrite andb_true_iff. split.
  - destruct (validateOperation operation index) as [[]|e] eqn:E; simpl; [| discriminate].
    intros H. split; [now apply validateOperation_ok_inv in E | now apply IH in H].
  - intros [Hop Hops]. rewrite (validateOperation_ok operation index Hop). simpl.
    now apply IH.
Qed.

(** The error of the first operation that is not accepted is the error of
    the whole validation. *)
Lemma validateConfig_first_defect (config : Config) (pre post : list Operation)
    (operation : Operation) (e : js_error) :
  surroundings_ok config = true ->
  operations config = OpsArray (pre ++ operation :: post) ->
  forallb operation_ok pre = true ->
  validateOperation operation (List.length pre) = Throw e ->
  validateConfig config = Throw e.
Proof.
  intros Hsur Hops Hpre Hthrow. unfold validateConfig.
  rewrite (check_required_surroundings config _ Hsur Hops). cbn [bind_result].
  rewrite Hops.
  destruct (pre ++ operation :: post) as [|x l] eqn:E.
  { destruct pre; discriminate. }
  rewrite <- E, (validateOperations_app pre operation post 0 Hpre).
  cbn [Nat.add]. now rewrite Hthrow.
Qed.

Lemma validateConfig_ok_iff (config : Config) (ops : list Operation) :
  surroundings_ok config = true -> operations config = OpsArray ops ->
  validateConfig config = Ok tt <-> ops <> [] /\ forallb operation_ok ops = true.
Proof.
  intros Hsur Hops. unfold validateConfig.
  rewrite (check_required_surroundings config _ Hsur Hops). cbn [bind_result].
  rewrite Hops. destruct ops as [|operation ops].
  - split; [discriminate | intros [H _]; congruence].
  - rewrite validateOperations_ok_iff. split; [intros H; split; [discriminate | exact H] | tauto].
Qed.

Lemma truthy_drop_falsy (v : jsval) : truthy (drop_falsy v) = truthy v.
Proof. unfold drop_falsy. destruct (truthy v) eqn:E; [exact E | reflexivity]. Qed.

Lemma drop_falsy_truthy (v : jsval) : truthy v = true -> drop_falsy v = v.
Proof. unfold drop_falsy. now intros ->. Qed.

Lemma validateOperation_without_falsy (operation : Operation) (index : nat) :
  validateOperation (without_falsy_fields operation) index
  = validateOperation operation index.
Proof.
  unfold validateOperation, without_falsy_fields. simpl.
  rewrite !truthy_drop_falsy.
  destruct (truthy (sheetName operation)); simpl; [| reflexivity].
  destruct (truthy (dataPath operation)); simpl; [| reflexivity].
  destruct (truthy (operationType operation)) eqn:E; simpl; [| reflexivity].
  now rewrite (drop_falsy_truthy _ E).
Qed.

Lemma validateOperations_without_falsy (ops : list Operation) :
  forall index,
    validateOperations (map without_falsy_fields ops) index
    = validateOperations ops index.
Proof.
  induction ops as [|operation ops IH]; intros index; [reflexivity |].
  cbn [map validateOperations].
  rewrite validateOperation_without_falsy.
  destruct (validateOperation operation index); simpl; [apply IH | reflexivity].
Qed.

(** Two operations rejected with the same error at the same place give the
    same outcome. *)
Lemma validateConfig_same_defect (config : Config) (pre post : list Operation)
    (operation operation' : Operation) (e : js_error) :
  surroundings_ok config = true ->
  operations config = OpsArray (pre ++ operation :: post) ->
  forallb operation_ok pre = true ->
  validateOperation operation (List.length pre) = Throw e ->
  validateOperation operation' (List.length pre) = Throw e ->
  validateConfig config
  = validateConfig (with_operations config (pre ++ operation' :: post)).
Proof.
  intros Hsur Hops Hpre H H'.
  rewrite (validateConfig_first_defect config pre post operation e Hsur Hops Hpre H).
  symmetry.
  now apply (validateConfig_first_defect (with_operations config _) pre post operation' e).
Qed.

(** Runs the checks of [validateOperation] with the facts at hand. *)
Ltac first_defect :=
  unfold validateOperation;
  cbn [sheetName dataPath operationType cellId truthy];
  repeat match goal with
    | H : truthy _ = _ |- _ => rewrite H
    | H : operationType _ = _ |- _ => rewrite H
    end;
  reflexivity.

(** C4, as stated, fails in its last part: an operation that has all its
    fields, one of them the empty string, has none of the listed defects,
    and is rejected. *)
Lemma validateConfig_rejects_complete_operation :
  operation_complete
    {| sheetName := JStr EmptyString; dataPath := JStr "d.csv";
       operationType := JStr "replaceEntireSheet"; cellId := JUndefined |} = true /\
  validateConfig
    (sample_config
       [{| sheetName := JStr EmptyString; dataPath := JStr "d.csv";
           operationType := JStr "replaceEntireSheet"; cellId := JUndefined |}])
  = Throw (Error "Operation #1 is missing sheetName").
Proof. split; reflexivity. Qed.

(** C4, amended. With the top-level fields filled in: an empty array of
    operations is rejected as not being a non-empty array; the first
    operation, in order, with a missing or falsy [sheetName], [dataPath] or
    [operationType] is rejected with the message naming the first such field
    and the 1-based position of the operation; a [replaceAtCell] operation
    with these three fields and a missing or falsy [cellId] is rejected with
    the message for [cellId]; and validation passes exactly when the array
    is not empty and no operation has such a defect. *)
Theorem validateConfig_contract (config : Config) (ops : list Operation) :
  surroundings_ok config = true ->
  operations config = OpsArray ops ->
  (ops = [] ->
   validateConfig config = Throw (Error "Operations must be a non-empty array")) /\
  (forall pre operation post,
      ops = pre ++ operation :: post ->
      forallb operation_ok pre = true ->
      let label := operation_label (List.length pre) in
      (truthy (sheetName operation) = false ->
       validateConfig config = Throw (Error (label +:+ " is missing sheetName"))) /\
      (truthy (sheetName operation) = true ->
       truthy (dataPath operation) = false ->
       validateConfig config = Throw (Error (label +:+ " is missing dataPath"))) /\
      (truthy (sheetName operation) = true ->
       truthy (dataPath operation) = true ->
       truthy (operationType operation) = false ->
       validateConfig config = Throw (Error (label +:+ " is missing operationType"))) /\
      (truthy (sheetName operation) = true ->
       truthy (dataPath operation) = true ->
       operationType operation = JStr "replaceAtCell" ->
       truthy (cellId operation) = false ->
       validateConfig config
       = Throw (Error (label +:+ " with type 'replaceAtCell' is missing cellId")))) /\
  (validateConfig config = Ok tt <->
   ops <> [] /\ forallb operation_ok ops = true).
Proof.
  intros Hsur Hops. split; [| split].
  - intros ->. unfold validateConfig.
    rewrite (check_required_surroundings config _ Hsur Hops). cbn [bind_result].
    now rewrite Hops.
  - intros pre operation post -> Hpre label.
    repeat split; intros;
      apply (validateConfig_first_defect config pre post operation _ Hsur Hops Hpre);
      first_defect.
  - now apply validateConfig_ok_iff.
Qed.

Lemma validateConfig_contract_witness :
  validateConfig (sample_config []) = Throw (Error "Operations must be a non-empty array") /\
  validateConfig
    (sample_config
       [{| sheetName := JStr "S"; dataPath := JStr "d.csv";
           operationType := JStr "replaceEntireSheet"; cellId := JUndefined |};
        {| sheetName := JStr "S"; dataPath := JUndefined;
           operationType := JUndefined; cellId := JUndefined |}])
  = Throw (Error "Operation #2 is missing dataPath") /\
  validateConfig
    (sample_config
       [{| sheetName := JStr "S"; dataPath := JStr "d.csv";
           operationType := JStr "replaceAtCell"; cellId := JUndefined |}])
  = Throw (Error "Operation #1 with type 'replaceAtCell' is missing cellId") /\
  validateConfig
    (sample_config
       [{| sheetName := JStr "S"; dataPath := JStr "d.csv";
           operationType := JStr "replaceAtCell"; cellId := JStr "B2" |}])
  = Ok tt.
Proof.
  split; [| split; [| split]].
  - apply (proj1 (validateConfig_contract (sample_config []) [] eq_refl eq_refl)).
    reflexivity.
  - apply (proj1 (proj2 (validateConfig_contract (sample_config _) _ eq_refl eq_refl))
             [{| sheetName := JStr "S"; dataPath := JStr "d.csv";
                 operationType := JStr "replaceEntireSheet"; cellId := JUndefined |}]
             {| sheetName := JStr "S"; dataPath := JUndefined;
                operationType := JUndefined; cellId := JUndefined |}
             [] eq_refl eq_refl); reflexivity.
  - apply (proj1 (proj2 (validateConfig_contract (sample_config _) _ eq_refl eq_refl))
             []
             {| sheetName := JStr "S"; dataPath := JStr "d.csv";
                operationType := JStr "replaceAtCell"; cellId := JUndefined |}
             [] eq_refl eq_refl); reflexivity.
  - apply (proj2 (proj2 (validateConfig_contract (sample_config _) _ eq_refl eq_refl))).
    split; [discriminate | reflexivity].
Defined.

(** C9. A field that is there but falsy is rejected exactly as a field
    that is not there: replacing every falsy field of every operation by an
    absent one does not change the outcome of the validation; in particular
    an empty [sheetName], [dataPath] or [operationType] gives the message
    for the missing field, and a [replaceAtCell] operation with an empty
    [cellId] the message for the missing [cellId]. *)
Theorem validateConfig_falsy_as_absent (config : Config) (ops : list Operation) :
  operations config = OpsArray ops ->
  validateConfig config
  = validateConfig (with_operations config (map without_falsy_fields ops)) /\
  (surroundings_ok config = true ->
   forall pre operation post,
     ops = pre ++ operation :: post ->
     forallb operation_ok pre = true ->
     let label := operation_label (List.length pre) in
     let absent f := validateConfig (with_operations config (pre ++ f :: post)) in
     (truthy (sheetName operation) = false ->
      validateConfig config = Throw (Error (label +:+ " is missing sheetName")) /\
      validateConfig config
      = absent {| sheetName := JUndefined; dataPath := dataPath operation;
                  operationType := operationType operation;
                  cellId := cellId operation |}) /\
     (truthy (sheetName operation) = true ->
      truthy (dataPath operation) = false ->
      validateConfig config = Throw (Error (label +:+ " is missing dataPath")) /\
      validateConfig config
      = absent {| sheetName := sheetName operation; dataPath := JUndefined;
                  operationType := operationType operation;
                  cellId := cellId operation |}) /\
     (truthy (sheetName operation) = true ->
      truthy (dataPath operation) = true ->
      truthy (operationType operation) = false ->
      validateConfig config = Throw (Error (label +:+ " is missing operationType")) /\
      validateConfig config
      = absent {| sheetName := sheetName operation; dataPath := dataPath operation;
                  operationType := JUndefined; cellId := cellId operation |}) /\
     (truthy (sheetName operation) = true ->
      truthy (dataPath operation) = true ->
      operationType operation = JStr "replaceAtCell" ->
      truthy (cellId operation) = false ->
      validateConfig config
      = Throw (Error (label +:+ " with type 'replaceAtCell' is missing cellId")) /\
      validateConfig config
      = absent {| sheetName := sheetName operation; dataPath := dataPath operation;
                  operationType := operationType operation; cellId := JUndefined |})).
Proof.
  intros Hops. split.
  - unfold validateConfig.
    assert (Hreq : forall fields,
               check_required (with_operations config (map without_falsy_fields ops)) fields
               = check_required config fields).
    { induction fields as [|f fields IH]; [reflexivity |].
      simpl. rewrite IH. unfold config_field_truthy. simpl. now rewrite Hops. }
    rewrite Hreq. destruct (check_required config requiredFields); [| reflexivity].
    cbn [bind_result]. rewrite Hops. simpl.
    destruct ops as [|operation ops]; [reflexivity |].
    change (without_falsy_fields operation :: map without_falsy_fields ops)
      with (map without_falsy_fields (operation :: ops)).
    now rewrite validateOperations_without_falsy.
  - intros Hsur pre operation post -> Hpre label absent. subst absent. cbv beta.
    repeat split; intros;
      first
        [ apply (validateConfig_first_defect config pre post operation _ Hsur Hops Hpre);
          first_defect
        | eapply (validateConfig_same_defect config pre post operation _ _ Hsur Hops Hpre);
          first_defect ].
Qed.

Lemma validateConfig_falsy_as_absent_witness :
  validateConfig
    (sample_config
       [{| sheetName := JStr "S"; dataPath := JStr "d.csv";
           operationType := JStr "replaceAtCell"; cellId := JStr EmptyString |}])
  = Throw (Error "Operation #1 with type 'replaceAtCell' is missing cellId") /\
  validateConfig
    (sample_config
       [{| sheetName := JStr "S"; dataPath := JStr "d.csv";
           operationType := JStr "replaceAtCell"; cellId := JStr EmptyString |}])
  = validateConfig
      (sample_config
         [{| sheetName := JStr "S"; dataPath := JStr "d.csv";
             operationType := JStr "replaceAtCell"; cellId := JUndefined |}]).
Proof.
  destruct (proj2 (validateConfig_falsy_as_absent (sample_config _) _ eq_refl) eq_refl
              []
              {| sheetName := JStr "S"; dataPath := JStr "d.csv";
                 operationType := JStr "replaceAtCell"; cellId := JStr EmptyString |}
              [] eq_refl eq_refl) as (_ & _ & _ & H).
  apply H; reflexivity.
Defined.

(** ** The dispatcher *)

Section DispatcherProperties.
Context (env : Environment).

(** The operations of a list are processed one after the other, from the
    first to the last. *)
Lemma process_operations_app (sheetsMap : gmap string Z) (spreadsheetId : string)
    (pre post : list Operation) :
  forall tr,
    process_operations env sheetsMap spreadsheetId (pre ++ post) tr
    = (process_operations env sheetsMap spreadsheetId pre ;;;
       process_operations env sheetsMap spreadsheetId post) tr.
Proof.
  induction pre as [|operation pre IH]; intros tr.
  - reflexivity.
  - cbn [app process_operations]. unfold bind in *.
    destruct (process_operation env sheetsMap spreadsheetId operation tr) as [[[]|e] tr'].
    + apply IH.
    + reflexivity.
Qed.

(** A throw of the loader leaves [readCsvFile] after one line on the
    error console. *)
Lemma readCsvFile_throw (filePath : jsval) (tr : list event) (e : js_error) :
  read_csv env tr filePath = Throw e ->
  readCsvFile env filePath tr
  = (Throw e,
     tr ++ [ConsoleError ("Error reading CSV file (" +:+ toString filePath +:+ "):"
                          +:+ " " +:+ message e)]).
Proof.
  intros H. unfold readCsvFile, try_catch, bind. rewrite H. reflexivity.
Qed.

(** An operation on a sheet that is found, whose data cannot be loaded,
    throws the error of the loader before any request is sent. *)
Lemma process_operation_load_failure (sheetsMap : gmap string Z)
    (spreadsheetId : string) (operation : Operation) (tr : list event) (e : js_error) :
  sheetsMap_truthy sheetsMap (toString (sheetName operation)) = true ->
  read_csv env
    (tr ++ [ConsoleLog ("Processing operation for sheet: "
                        +:+ toString (sheetName operation))])
    (dataPath operation) = Throw e ->
  process_operation env sheetsMap spreadsheetId operation tr
  = (Throw e,
     (tr ++ [ConsoleLog ("Processing operation for sheet: "
                         +:+ toString (sheetName operation))])
     ++ [ConsoleError ("Error reading CSV file (" +:+ toString (dataPath operation)
                       +:+ "):" +:+ " " +:+ message e)]).
Proof.
  intros Hfound Hread. unfold process_operation, bind at 1. unfold emit at 1.
  rewrite Hfound. cbn [negb]. unfold bind at 1.
  now rewrite (readCsvFile_throw _ _ _ Hread).
Qed.
End DispatcherProperties.

(** C8. Operations are processed in the order of the list: processing
    [ops1 ++ ops2] is processing [ops1], then [ops2].  When the operations
    before some operation complete, its sheet is found and loading its data
    throws, the run throws this same error to the caller and stops: the
    trace ends with the two error lines, whatever operations follow, and
    none of these is started. *)
Theorem load_failure_aborts_run (env : Environment) (spreadsheetId : string)
    (sheets : list (string * Z)) (pre post : list Operation) (operation : Operation)
    (tr : list event) (e : js_error) :
  spreadsheets_get env spreadsheetId = Ok sheets ->
  process_operations env (build_sheetsMap sheets) spreadsheetId pre
    [ApiCall (SpreadsheetsGet spreadsheetId)] = (Ok tt, tr) ->
  sheetsMap_truthy (build_sheetsMap sheets) (toString (sheetName operation)) = true ->
  read_csv env
    (tr ++ [ConsoleLog ("Processing operation for sheet: "
                        +:+ toString (sheetName operation))])
    (dataPath operation) = Throw e ->
  (forall sheetsMap ops1 ops2 tr0,
      process_operations env sheetsMap spreadsheetId (ops1 ++ ops2) tr0
      = (process_operations env sheetsMap spreadsheetId ops1 ;;;
         process_operations env sheetsMap spreadsheetId ops2) tr0) /\
  processDataOperations env spreadsheetId (pre ++ operation :: post) []
  = (Throw e,
     tr ++ [ConsoleLog ("Processing operation for sheet: "
                        +:+ toString (sheetName operation));
            ConsoleError ("Error reading CSV file (" +:+ toString (dataPath operation)
                          +:+ "):" +:+ " " +:+ message e);
            ConsoleError ("Error processing data operations:" +:+ " " +:+ message e)]) /\
  processDataOperations env spreadsheetId (pre ++ operation :: post) []
  = processDataOperations env spreadsheetId (pre ++ [operation]) [].
Proof.
  intros Hget Hpre Hfound Hread.
  split; [intros; apply process_operations_app |].
  assert (Hrun : forall rest,
             processDataOperations env spreadsheetId (pre ++ operation :: rest) []
             = (Throw e,
                tr ++ [ConsoleLog ("Processing operation for sheet: "
                                   +:+ toString (sheetName operation));
                       ConsoleError ("Error reading CSV file ("
                                     +:+ toString (dataPath operation)
                                     +:+ "):" +:+ " " +:+ message e);
                       ConsoleError ("Error processing data operations:"
                                     +:+ " " +:+ message e)])).
  { intros rest. unfold processDataOperations, try_catch. unfold bind at 1.
    rewrite Hget. cbn [app]. unfold bind at 1.
    rewrite process_operations_app. unfold bind at 1. rewrite Hpre.
    cbn [process_operations]. unfold bind at 1.
    rewrite (process_operation_load_failure env _ _ _ _ _ Hfound Hread).
    unfold bind, emit, throw. rewrite <- !app_assoc. reflexivity. }
  split; [apply Hrun |]. now rewrite !Hrun.
Qed.

Lemma load_failure_aborts_run_witness :
  processDataOperations (sample_env [("S1", 1); ("S2", 2); ("S3", 3)]) "id"
    [sample_operation "S1" "one.csv" "replaceEntireSheet";
     sample_operation "S2" "bad.csv" "replaceEntireSheet";
     sample_operation "S3" "three.csv" "replaceEntireSheet"] []
  = (Throw (Error "ENOENT: no such file or directory"),
     [ApiCall (SpreadsheetsGet "id");
      ConsoleLog "Processing operation for sheet: S1";
      ConsoleLog "CSV file read successfully: one.csv";
      ApiCall (ValuesClear "id" (JStr "S1"));
      ApiCall (ValuesUpdate "id" (JStr "S1") "USER_ENTERED" [["a"; "b"]]);
      ConsoleLog "Replaced all data in sheet: S1";
      ConsoleLog "Processing operation for sheet: S2";
      ConsoleError "Error reading CSV file (bad.csv): ENOENT: no such file or directory";
      ConsoleError "Error processing data operations: ENOENT: no such file or directory"]).
Proof.
  exact (proj1 (proj2 (load_failure_aborts_run
    (sample_env [("S1", 1); ("S2", 2); ("S3", 3)]) "id"
    [("S1", 1); ("S2", 2); ("S3", 3)]
    [sample_operation "S1" "one.csv" "replaceEntireSheet"]
    [sample_operation "S3" "three.csv" "replaceEntireSheet"]
    (sample_operation "S2" "bad.csv" "replaceEntireSheet")
    [ApiCall (SpreadsheetsGet "id");
      ConsoleLog "Processing operation for sheet: S1";
      ConsoleLog "CSV file read successfully: one.csv";
      ApiCall (ValuesClear "id" (JStr "S1"));
      ApiCall (ValuesUpdate "id" (JStr "S1") "USER_ENTERED" [["a"; "b"]]);
      ConsoleLog "Replaced all data in sheet: S1"]
    (Error "ENOENT: no such file or directory")
    eq_refl ltac:(vm_compute; reflexivity) ltac:(vm_compute; reflexivity) eq_refl))).
Defined.

(** C1, on the code. With the registry that maps Sheet1 to the id 0, the
    operation on the absent sheet is skipped with a warning, and so is the
    operation on Sheet1: the test [!sheetsMap[operation.sheetName]] takes
    the id 0 for an absent sheet.  Nothing is cleared or written. *)
Theorem dispatch_skips_sheet_with_id_zero (env : Environment) (spreadsheetId : string) :
  spreadsheets_get env spreadsheetId = Ok [("Sheet1", 0)] ->
  let run :=
    processDataOperations env spreadsheetId
      [sample_operation "Missing" "m.csv" "replaceEntireSheet";
       sample_operation "Sheet1" "d.csv" "replaceEntireSheet"] [] in
  run = (Ok tt,
         [ApiCall (SpreadsheetsGet spreadsheetId);
          ConsoleLog "Processing operation for sheet: Missing";
          ConsoleWarn ("Sheet " +:+ dquote +:+ "Missing" +:+ dquote
                       +:+ " not found, skipping operation");
          ConsoleLog "Processing operation for sheet: Sheet1";
          ConsoleWarn ("Sheet " +:+ dquote +:+ "Sheet1" +:+ dquote
                       +:+ " not found, skipping operation");
          ConsoleLog "All operations completed successfully"]) /\
  filter (fun e => is_write e = true) (snd run) = [].
Proof.
  intros Hget run.
  assert (Hrun : run = (Ok tt,
         [ApiCall (SpreadsheetsGet spreadsheetId);
          ConsoleLog "Processing operation for sheet: Missing";
          ConsoleWarn ("Sheet " +:+ dquote +:+ "Missing" +:+ dquote
                       +:+ " not found, skipping operation");
          ConsoleLog "Processing operation for sheet: Sheet1";
          ConsoleWarn ("Sheet " +:+ dquote +:+ "Sheet1" +:+ dquote
                       +:+ " not found, skipping operation");
          ConsoleLog "All operations completed successfully"])).
  { subst run. unfold processDataOperations, try_catch. unfold bind at 1.
    rewrite Hget. vm_compute. reflexivity. }
  split; [exact Hrun |]. rewrite Hrun. reflexivity.
Qed.

Lemma dispatch_skips_sheet_with_id_zero_witness :
  filter (fun e => is_write e = true)
    (snd (processDataOperations (sample_env [("Sheet1", 0)]) "id"
            [sample_operation "Missing" "m.csv" "replaceEntireSheet";
             sample_operation "Sheet1" "d.csv" "replaceEntireSheet"] [])) = [].
Proof.
  exact (proj2 (dispatch_skips_sheet_with_id_zero (sample_env [("Sheet1", 0)]) "id" eq_refl)).
Defined.

(** With any other id for Sheet1 the second operation is carried out:
    the sheet is cleared, then written. *)
Lemma dispatch_runs_sheet_with_nonzero_id :
  processDataOperations (sample_env [("Sheet1", 7)]) "id"
    [sample_operation "Missing" "m.csv" "replaceEntireSheet";
     sample_operation "Sheet1" "d.csv" "replaceEntireSheet"] []
  = (Ok tt,
     [ApiCall (SpreadsheetsGet "id");
      ConsoleLog "Processing operation for sheet: Missing";
      ConsoleWarn ("Sheet " +:+ dquote +:+ "Missing" +:+ dquote
                   +:+ " not found, skipping operation");
      ConsoleLog "Processing operation for sheet: Sheet1";
      ConsoleLog "CSV file read successfully: d.csv";
      ApiCall (ValuesClear "id" (JStr "Sheet1"));
      ApiCall (ValuesUpdate "id" (JStr "Sheet1") "USER_ENTERED" [["a"; "b"]]);
      ConsoleLog "Replaced all data in sheet: Sheet1";
      ConsoleLog "All operations completed successfully"]).
Proof. vm_compute. reflexivity. Qed.

(** * Further properties *)

(** ** Column names *)

Lemma next_column_eq (column : Z) :
  (column - (column - 1) mod 26 - 1) / 26 = (column - 1) / 26.
Proof.
  pose proof (Z.div_mod (column - 1) 26 ltac:(lia)) as Hd.
  replace (column - (column - 1) mod 26 - 1) with (((column - 1) / 26) * 26) by lia.
  apply Z.div_mul. lia.
Qed.

(** A positive column has one letter more than the quotient the loop goes
    on with. *)
Lemma getColumnLetter_length_step (n : Z) :
  0 < n ->
  String.length (getColumnLetter n)
  = S (String.length (getColumnLetter ((n - 1) / 26))).
Proof.
  intros Hn. rewrite (getColumnLetter_pos n Hn), next_column_eq, length_append.
  simpl. lia.
Qed.

Lemma getColumnLetter_length_lower (k : nat) :
  forall n lo,
    (k = 1%nat /\ lo = 1 \/ k = 2%nat /\ lo = 27 \/ k = 3%nat /\ lo = 703
     \/ k = 4%nat /\ lo = 18279) ->
    lo <= n -> (k <= String.length (getColumnLetter n))%nat.
Proof.
  induction k as [|k IH]; intros n lo Hk Hn; [lia |].
  assert (Hpos : 0 < n) by lia.
  rewrite (getColumnLetter_length_step n Hpos).
  destruct Hk as [[Hk ->] | [[Hk ->] | [[Hk ->] | [Hk ->]]]];
    injection Hk as ->; [lia | | |].
  - pose proof (IH ((n - 1) / 26) 1 ltac:(auto)
                  ltac:(apply Z.div_le_lower_bound; lia)). lia.
  - pose proof (IH ((n - 1) / 26) 27 ltac:(auto)
                  ltac:(apply Z.div_le_lower_bound; lia)). lia.
  - pose proof (IH ((n - 1) / 26) 703 ltac:(auto 6)
                  ltac:(apply Z.div_le_lower_bound; lia)). lia.
Qed.

Lemma getColumnLetter_length_upper (k : nat) :
  forall n hi,
    (k = 0%nat /\ hi = 0 \/ k = 1%nat /\ hi = 26 \/ k = 2%nat /\ hi = 702
     \/ k = 3%nat /\ hi = 18278) ->
    n <= hi -> (String.length (getColumnLetter n) <= k)%nat.
Proof.
  induction k as [|k IH]; intros n hi Hk Hn.
  - destruct Hk as [[_ ->] | [[Hk _] | [[Hk _] | [Hk _]]]]; try discriminate.
    now rewrite getColumnLetter_nonpos by lia.
  - destruct (Z.lt_ge_cases 0 n) as [Hpos | Hle].
    2: { rewrite getColumnLetter_nonpos by lia. simpl. lia. }
    rewrite (getColumnLetter_length_step n Hpos).
    assert (Hdiv : forall b, n - 1 < 26 * (b + 1) -> (n - 1) / 26 <= b).
    { intros b Hb. apply Z.lt_succ_r. apply Z.div_lt_upper_bound; lia. }
    destruct Hk as [[Hk _] | [[Hk ->] | [[Hk ->] | [Hk ->]]]];
      [discriminate | | |]; injection Hk as ->.
    + pose proof (IH ((n - 1) / 26) 0 ltac:(auto) ltac:(apply Hdiv; lia)). lia.
    + pose proof (IH ((n - 1) / 26) 26 ltac:(auto) ltac:(apply Hdiv; lia)). lia.
    + pose proof (IH ((n - 1) / 26) 702 ltac:(auto 6) ltac:(apply Hdiv; lia)). lia.
Qed.

(** X1. The number of letters of a column name: one up to column 26 (Z),
    two up to 702 (ZZ), three up to 18278 (ZZZ), more beyond. *)
Theorem getColumnLetter_length (n : Z) :
  1 <= n ->
  (String.length (getColumnLetter n) = 1%nat <-> n <= 26) /\
  (String.length (getColumnLetter n) = 2%nat <-> 27 <= n <= 702) /\
  (String.length (getColumnLetter n) = 3%nat <-> 703 <= n <= 18278) /\
  (18278 < n -> (4 <= String.length (getColumnLetter n))%nat).
Proof.
  intros Hn.
  pose proof (getColumnLetter_length_lower 1 n 1 ltac:(auto)) as L1.
  pose proof (getColumnLetter_length_lower 2 n 27 ltac:(auto)) as L2.
  pose proof (getColumnLetter_length_lower 3 n 703 ltac:(auto 6)) as L3.
  pose proof (getColumnLetter_length_lower 4 n 18279 ltac:(auto 6)) as L4.
  pose proof (getColumnLetter_length_upper 1 n 26 ltac:(auto)) as U1.
  pose proof (getColumnLetter_length_upper 2 n 702 ltac:(auto 6)) as U2.
  pose proof (getColumnLetter_length_upper 3 n 18278 ltac:(auto 6)) as U3.
  repeat split; intros; lia.
Qed.

Lemma getColumnLetter_length_witness :
  String.length (getColumnLetter 702) = 2%nat /\
  (4 <= String.length (getColumnLetter 18279))%nat.
Proof.
  destruct (getColumnLetter_length 702 ltac:(lia)) as (_ & H2 & _).
  destruct (getColumnLetter_length 18279 ltac:(lia)) as (_ & _ & _ & H4).
  split; [apply H2; lia | apply H4; lia].
Defined.

(** X2. Different names are different columns and different columns have
    different names: [columnToNumber] is injective on runs of at most 11
    uppercase letters and [getColumnLetter] on the positive integers below
    2^53, the names and the numbers on which the source computes
    exactly. *)
Theorem column_names_injective :
  (forall s t : string,
      string_forall is_upper s = true -> string_forall is_upper t = true ->
      (String.length s <= 11)%nat -> (String.length t <= 11)%nat ->
      s <> t -> columnToNumber s <> columnToNumber t) /\
  (forall n m : Z,
      1 <= n -> 1 <= m -> safe_integer n -> safe_integer m ->
      n <> m -> getColumnLetter n <> getColumnLetter m).
Proof.
  split.
  - intros s t Hs Ht _ _ Hne H. apply Hne.
    rewrite <- (getColumnLetter_columnToNumber s Hs),
            <- (getColumnLetter_columnToNumber t Ht).
    now rewrite H.
  - intros n m Hn Hm _ _ Hne H. apply Hne.
    rewrite <- (columnToNumber_getColumnLetter n), <- (columnToNumber_getColumnLetter m)
      by lia.
    now rewrite H.
Qed.

Lemma column_names_injective_witness :
  columnToNumber "AZ" <> columnToNumber "BA" /\
  getColumnLetter 26 <> getColumnLetter 27.
Proof.
  split.
  - apply (proj1 column_names_injective "AZ" "BA");
      [reflexivity | reflexivity | simpl; lia | simpl; lia | discriminate].
  - apply (proj2 column_names_injective 26 27);
      [lia | lia | safe_integer_closed | safe_integer_closed | lia].
Defined.

(** ** Reading numbers *)

Lemma take_class_all (p : ascii -> bool) (s : string) :
  string_forall p s = true -> take_class p s = s.
Proof.
  intros Hs. destruct (take_class_run p s EmptyString Hs eq_refl) as [H _].
  now rewrite append_empty_r in H.
Qed.

Lemma drop_class_run (p : ascii -> bool) (s t : string) :
  string_forall p s = true -> drop_class p (s +:+ t) = drop_class p t.
Proof.
  intros Hs. induction s as [|c s IH]; autorewrite with strings; [reflexivity |].
  simpl in Hs. apply andb_true_iff in Hs as [Hc Hs]. simpl. rewrite Hc. auto.
Qed.

Lemma drop_class_start (p : ascii -> bool) (s : string) :
  starts_with p s = false -> drop_class p s = s.
Proof. destruct s as [|c s]; simpl; [reflexivity | now intros ->]. Qed.

Lemma numberToString_neg (p : positive) :
  numberToString (Z.neg p)
  = String (fromCharCode 45) (NilEmpty.string_of_uint (Pos.to_uint p)).
Proof.
  unfold numberToString. cbn [Z.to_int NilZero.string_of_int].
  pose proof (Unsigned.to_uint_nonnil p).
  unfold NilZero.string_of_uint. now destruct (Pos.to_uint p).
Qed.

(** The digits of a decimal numeral followed by something that is not a
    digit are read as that numeral. *)
Lemma parseInt_digits_uint (sign : Z) (d : Decimal.uint) (rest : string) :
  d <> Decimal.Nil -> starts_with is_digit rest = false ->
  parseInt_digits sign (NilEmpty.string_of_uint d +:+ rest)
  = Some (sign * Z.of_N (Pos.of_uint d)).
Proof.
  intros Hd Hrest. unfold parseInt_digits.
  destruct (take_class_run is_digit _ rest (string_of_uint_digits d) Hrest) as [-> _].
  unfold parseInt. rewrite parseInt_loop_uint.
  destruct d; try congruence; reflexivity.
Qed.

(** Reading back what was written: the decimal text of an integer, after
    any white space and before anything that does not start with a digit,
    is read as that integer. *)
Lemma parseInt10_reads_number (z : Z) (space rest : string) :
  string_forall is_js_space space = true ->
  starts_with is_digit rest = false ->
  parseInt10 (space +:+ numberToString z +:+ rest) = Some z.
Proof.
  intros Hspace Hrest. unfold parseInt10.
  rewrite (drop_class_run is_js_space space _ Hspace).
  destruct z as [|p|p].
  - change (numberToString 0) with "0". autorewrite with strings.
    simpl. unfold parseInt_digits. simpl.
    destruct rest as [|c rest]; simpl in *; [reflexivity | now rewrite Hrest].
  - rewrite numberToString_pos.
    pose proof (Unsigned.to_uint_nonnil p) as Hnil.
    pose proof (string_of_uint_digits (Pos.to_uint p)) as Hdig.
    destruct (NilEmpty.string_of_uint (Pos.to_uint p)) as [|c s] eqn:E.
    { destruct (Pos.to_uint p); try congruence; discriminate. }
    autorewrite with strings.
    assert (Hc : is_digit c = true) by (simpl in Hdig; now apply andb_true_iff in Hdig).
    apply is_digit_spec in Hc.
    rewrite drop_class_start.
    2: { simpl. unfold is_js_space.
         repeat match goal with
           | |- context [?a <=? ?b] => destruct (Z.leb_spec a b); try lia
           | |- context [?a =? ?b] => destruct (Z.eqb_spec a b); try lia
           end; reflexivity. }
    destruct (Z.eqb_spec (charCode c) 45); [lia |].
    destruct (Z.eqb_spec (charCode c) 43); [lia |].
    rewrite <- append_cons, <- E.
    rewrite (parseInt_digits_uint 1 _ rest Hnil Hrest), Unsigned.of_to. f_equal.
  - rewrite numberToString_neg. autorewrite with strings.
    rewrite drop_class_start by reflexivity.
    change (charCode (fromCharCode 45) =? 45) with true. cbv iota.
    pose proof (Unsigned.to_uint_nonnil p) as Hnil.
    rewrite (parseInt_digits_uint (-1) _ rest Hnil Hrest), Unsigned.of_to. f_equal.
Qed.

(** ** The id in the template URL *)

Lemma prefix_run_length (p : ascii -> bool) (run t : string) :
  string_forall p run = true ->
  (String.length run <= String.length (take_class p (run +:+ t)))%nat.
Proof.
  induction run as [|c run IH]; intros H; autorewrite with strings; simpl; [lia |].
  simpl in H. apply andb_true_iff in H as [-> H]. simpl. specialize (IH H). lia.
Qed.

Lemma append_eq_empty (s t : string) : s +:+ t = EmptyString -> s = EmptyString.
Proof. destruct s; autorewrite with strings; [reflexivity | discriminate]. Qed.

(** Without a match, no run of characters of the class has 25 of them. *)
Lemma match_id_none_runs (url : string) :
  match_id url = None ->
  forall pre run post,
    url = pre +:+ run +:+ post -> string_forall is_id_char run = true ->
    (String.length run < 25)%nat.
Proof.
  induction url as [|c url IH]; intros Hnone pre run post Hurl Hrun.
  - symmetry in Hurl. apply append_eq_empty in Hurl as Hpre. subst pre.
    autorewrite with strings in Hurl. apply append_eq_empty in Hurl. subst run.
    simpl. lia.
  - cbn [match_id] in Hnone.
    destruct (25 <=? String.length (take_class is_id_char (String c url)))%nat eqn:E;
      [discriminate |].
    apply Nat.leb_gt in E.
    destruct pre as [|c' pre]; autorewrite with strings in Hurl.
    + pose proof (prefix_run_length is_id_char run post Hrun) as Hlen.
      rewrite <- Hurl in Hlen. lia.
    + injection Hurl as _ Hurl. exact (IH Hnone pre run post Hurl Hrun).
Qed.

(** A match is a run of at least 25 characters of the class that cannot be
    extended to the right, and no such run starts before it. *)
Lemma match_id_some (url : string) :
  forall id,
    match_id url = Some id ->
    exists pre post,
      url = pre +:+ id +:+ post /\
      string_forall is_id_char id = true /\
      (25 <= String.length id)%nat /\
      starts_with is_id_char post = false /\
      (forall pre' run post',
          url = pre' +:+ run +:+ post' ->
          string_forall is_id_char run = true -> (25 <= String.length run)%nat ->
          (String.length pre <= String.length pre')%nat).
Proof.
  induction url as [|c url IH]; intros id Hsome; [discriminate |].
  cbn [match_id] in Hsome.
  destruct (25 <=? String.length (take_class is_id_char (String c url)))%nat eqn:E.
  - assert (Hid : id = take_class is_id_char (String c url)) by congruence.
    clear Hsome. apply Nat.leb_le in E. rewrite <- Hid in E.
    exists EmptyString, (drop_class is_id_char (String c url)).
    rewrite append_nil, Hid, take_drop_class. rewrite <- Hid.
    repeat split; auto using starts_with_drop_class.
    + rewrite Hid. apply take_class_forall.
    + intros; simpl; lia.
  - apply Nat.leb_gt in E.
    destruct (IH id Hsome) as (pre & post & Hurl & Hid & Hlen & Hpost & Hleft).
    exists (String c pre), post. autorewrite with strings.
    repeat split; auto; [now rewrite <- Hurl |].
    intros pre' run post' Hurl' Hrun Hlong.
    destruct pre' as [|c' pre']; autorewrite with strings in Hurl'.
    + pose proof (prefix_run_length is_id_char run post' Hrun) as Hp.
      rewrite <- Hurl' in Hp. lia.
    + injection Hurl' as _ Hurl'. specialize (Hleft pre' run post' Hurl' Hrun Hlong).
      simpl. lia.
Qed.

(** X4. What [extractSpreadsheetId] returns: a part of the URL made of at
    least 25 characters among letters, digits, hyphen and underscore, which
    the next character does not extend, and the first such part from the
    left. *)
Theorem extractSpreadsheetId_sound (url id : string) :
  extractSpreadsheetId url = Ok id ->
  exists pre post,
    url = pre +:+ id +:+ post /\
    string_forall is_id_char id = true /\
    (25 <= String.length id)%nat /\
    starts_with is_id_char post = false /\
    (forall pre' run post',
        url = pre' +:+ run +:+ post' ->
        string_forall is_id_char run = true -> (25 <= String.length run)%nat ->
        (String.length pre <= String.length pre')%nat).
Proof.
  unfold extractSpreadsheetId. destruct (match_id url) as [id'|] eqn:E; [| discriminate].
  intros [= <-]. now apply match_id_some.
Qed.

Lemma extractSpreadsheetId_sound_witness :
  exists pre post,
    "https://docs.google.com/spreadsheets/d/1AbCdEfGhIjKlMnOpQrStUvWxYz012/edit"
    = pre +:+ "1AbCdEfGhIjKlMnOpQrStUvWxYz012" +:+ post /\
    starts_with is_id_char post = false.
Proof.
  destruct (extractSpreadsheetId_sound
              "https://docs.google.com/spreadsheets/d/1AbCdEfGhIjKlMnOpQrStUvWxYz012/edit"
              "1AbCdEfGhIjKlMnOpQrStUvWxYz012" eq_refl)
    as (pre & post & Hurl & _ & _ & Hpost & _).
  exists pre, post. split; [exact Hurl | exact Hpost].
Defined.

(** X5. When [extractSpreadsheetId] throws: exactly when the URL has no 25
    characters in a row among letters, digits, hyphen and underscore; so in
    particular for every URL shorter than 25 characters. *)
Theorem extractSpreadsheetId_throws_iff (url : string) :
  (extractSpreadsheetId url
   = Throw (Error "Invalid Google Sheets URL. Could not extract spreadsheet ID.")
   <->
   forall pre run post,
     url = pre +:+ run +:+ post -> string_forall is_id_char run = true ->
     (String.length run < 25)%nat) /\
  ((String.length url < 25)%nat ->
   extractSpreadsheetId url
   = Throw (Error "Invalid Google Sheets URL. Could not extract spreadsheet ID.")).
Proof.
  assert (Hiff : extractSpreadsheetId url
     = Throw (Error "Invalid Google Sheets URL. Could not extract spreadsheet ID.")
     <->
     forall pre run post,
       url = pre +:+ run +:+ post -> string_forall is_id_char run = true ->
       (String.length run < 25)%nat).
  { unfold extractSpreadsheetId. destruct (match_id url) as [id|] eqn:E.
    - split; [discriminate |]. intros H.
      destruct (match_id_some url id E) as (pre & post & Hurl & Hid & Hlen & _).
      specialize (H pre id post Hurl Hid). lia.
    - split; [intros _; now apply match_id_none_runs | reflexivity]. }
  split; [exact Hiff |].
  intros Hshort. apply Hiff. intros pre run post -> _.
  rewrite !length_append in Hshort. lia.
Qed.

Lemma extractSpreadsheetId_throws_iff_witness :
  extractSpreadsheetId "https://x.example/d/1AbC"
  = Throw (Error "Invalid Google Sheets URL. Could not extract spreadsheet ID.") /\
  (forall pre run post,
      "https://sheets.example/d/short-id/edit" = pre +:+ run +:+ post ->
      string_forall is_id_char run = true -> (String.length run < 25)%nat).
Proof.
  split.
  - apply (proj2 (extractSpreadsheetId_throws_iff "https://x.example/d/1AbC")).
    simpl. lia.
  - apply (proj1 (proj1 (extractSpreadsheetId_throws_iff
                           "https://sheets.example/d/short-id/edit"))).
    reflexivity.
Defined.

Lemma take_class_append_outside (p : ascii -> bool) (pre t : string) :
  ends_outside p pre = true -> pre <> EmptyString ->
  take_class p (pre +:+ t) = take_class p pre.
Proof.
  induction pre as [|c pre IH]; intros Hend Hne; [congruence |].
  autorewrite with strings. simpl. destruct (p c) eqn:E; [| reflexivity].
  destruct pre as [|c' pre].
  - simpl in Hend. rewrite E in Hend. discriminate.
  - f_equal. apply IH; [exact Hend | discriminate].
Qed.

Lemma ends_outside_tail (p : ascii -> bool) (c : ascii) (pre : string) :
  ends_outside p (String c pre) = true -> ends_outside p pre = true.
Proof. destruct pre; [reflexivity | intros H; exact H]. Qed.

(** A prefix without match that ends outside of the class is skipped. *)
Lemma match_id_skip (pre t : string) :
  match_id pre = None -> ends_outside is_id_char pre = true ->
  t <> EmptyString ->
  match_id (pre +:+ t) = match_id t.
Proof.
  intros Hnone Hend Ht. induction pre as [|c pre IH]; [reflexivity |].
  cbn [match_id] in Hnone.
  destruct (25 <=? String.length (take_class is_id_char (String c pre)))%nat eqn:E;
    [discriminate |].
  rewrite append_cons. cbn [match_id]. rewrite <- append_cons.
  rewrite (take_class_append_outside is_id_char (String c pre) t Hend) by discriminate.
  rewrite E. apply IH; [exact Hnone | now apply ends_outside_tail in Hend].
Qed.

(** X6. The id of a spreadsheet URL: when the URL is a prefix without 25
    such characters in a row that ends with another character (as
    [https://docs.google.com/spreadsheets/d/] does), then an id of at least
    25 such characters, then nothing or something that starts with another
    character (as [/edit] does), the id is what is returned. *)
Theorem extractSpreadsheetId_id (pre id rest : string) :
  match_id pre = None -> ends_outside is_id_char pre = true ->
  string_forall is_id_char id = true -> (25 <= String.length id)%nat ->
  starts_with is_id_char rest = false ->
  extractSpreadsheetId (pre +:+ id +:+ rest) = Ok id.
Proof.
  intros Hpre Hend Hid Hlen Hrest. unfold extractSpreadsheetId.
  assert (Hne : id +:+ rest <> EmptyString).
  { destruct id; [simpl in Hlen; lia | discriminate]. }
  rewrite (match_id_skip pre _ Hpre Hend Hne).
  destruct id as [|c id]; [simpl in Hlen; lia |].
  rewrite append_cons. cbn [match_id]. rewrite <- append_cons.
  destruct (take_class_run is_id_char (String c id) rest Hid Hrest) as [-> _].
  apply Nat.leb_le in Hlen. now rewrite Hlen.
Qed.

Lemma extractSpreadsheetId_id_witness :
  extractSpreadsheetId
    ("https://docs.google.com/spreadsheets/d/"
     +:+ "1AbCdEfGhIjKlMnOpQrStUvWxYz012" +:+ "/edit#gid=0")
  = Ok "1AbCdEfGhIjKlMnOpQrStUvWxYz012".
Proof.
  apply (extractSpreadsheetId_id "https://docs.google.com/spreadsheets/d/"
           "1AbCdEfGhIjKlMnOpQrStUvWxYz012" "/edit#gid=0");
    first [reflexivity | simpl; lia].
Defined.

(** ** The validator: the configuration as a whole *)

(** Runs [check_required] on the facts at hand. *)
Ltac required_fields :=
  unfold validateConfig, requiredFields, check_required, config_field_truthy;
  simpl;
  repeat match goal with
    | H : truthy _ = _ |- _ => rewrite H
    | H : operations _ = _ |- _ => rewrite H
    end;
  simpl.

(** X7. The top-level fields are checked before the operations, in the
    order templateUrl, newSpreadsheetName, folderId, sharedDriveId,
    orgDomain, operations: the first of them that is missing or falsy is
    the one the error names, whatever the operations are; and an
    [operations] field that is not an array is reported as missing when it
    is falsy and as not being a non-empty array otherwise. *)
Theorem validateConfig_required_order (config : Config) :
  (truthy (templateUrl config) = false ->
   validateConfig config
   = Throw (Error "Missing required configuration: templateUrl")) /\
  (truthy (templateUrl config) = true ->
   truthy (newSpreadsheetName config) = false ->
   validateConfig config
   = Throw (Error "Missing required configuration: newSpreadsheetName")) /\
  (truthy (templateUrl config) = true ->
   truthy (newSpreadsheetName config) = true ->
   truthy (folderId config) = false ->
   validateConfig config
   = Throw (Error "Missing required configuration: folderId")) /\
  (truthy (templateUrl config) = true ->
   truthy (newSpreadsheetName config) = true ->
   truthy (folderId config) = true ->
   truthy (sharedDriveId config) = false ->
   validateConfig config
   = Throw (Error "Missing required configuration: sharedDriveId")) /\
  (truthy (templateUrl config) = true ->
   truthy (newSpreadsheetName config) = true ->
   truthy (folderId config) = true ->
   truthy (sharedDriveId config) = true ->
   truthy (orgDomain config) = false ->
   validateConfig config
   = Throw (Error "Missing required configuration: orgDomain")) /\
  (surroundings_ok config = true ->
   forall v, operations config = OpsOther v ->
     validateConfig config
     = Throw (Error (if truthy v then "Operations must be a non-empty array"
                     else "Missing required configuration: operations"))).
Proof.
  repeat split; intros; try (required_fields; reflexivity).
  unfold surroundings_ok in *.
  repeat match goal with
    | H : _ && _ = true |- _ => apply andb_true_iff in H as [? ?]
    end.
  required_fields. now destruct (truthy v).
Qed.

Lemma validateConfig_required_order_witness :
  validateConfig
    {| templateUrl := JStr "https://docs.google.com/spreadsheets/d/1AbC";
       newSpreadsheetName := JStr EmptyString;
       folderId := JUndefined; sharedDriveId := JNull; orgDomain := JNum 0;
       operations := OpsArray [] |}
  = Throw (Error "Missing required configuration: newSpreadsheetName") /\
  validateConfig
    {| templateUrl := JStr "u"; newSpreadsheetName := JStr "n";
       folderId := JStr "f"; sharedDriveId := JStr "d"; orgDomain := JStr "o";
       operations := OpsOther (JStr "replaceEntireSheet") |}
  = Throw (Error "Operations must be a non-empty array").
Proof.
  split.
  - apply (proj1 (proj2 (validateConfig_required_order _))); reflexivity.
  - apply (proj2 (proj2 (proj2 (proj2 (proj2 (validateConfig_required_order
             {| templateUrl := JStr "u"; newSpreadsheetName := JStr "n";
                folderId := JStr "f"; sharedDriveId := JStr "d";
                orgDomain := JStr "o";
                operations := OpsOther (JStr "replaceEntireSheet") |})))))
             eq_refl (JStr "replaceEntireSheet") eq_refl).
Defined.

Lemma check_required_ok_inv (config : Config) :
  check_required config requiredFields = Ok tt ->
  surroundings_ok config = true /\
  match operations config with
  | OpsArray _ => True
  | OpsOther v => truthy v = true
  end.
Proof.
  unfold requiredFields, check_required, config_field_truthy, surroundings_ok. simpl.
  destruct (truthy (templateUrl config)); simpl; [| discriminate].
  destruct (truthy (newSpreadsheetName config)); simpl; [| discriminate].
  destruct (truthy (folderId config)); simpl; [| discriminate].
  destruct (truthy (sharedDriveId config)); simpl; [| discriminate].
  destruct (truthy (orgDomain config)); simpl; [| discriminate].
  destruct (operations config) as [ops | v]; [auto |].
  destruct (truthy v); simpl; [auto | discriminate].
Qed.

(** X8. What a configuration that passes validation looks like, and the
    converse: the five top-level fields are truthy, [operations] is an
    array with at least one element, and every operation has a truthy
    sheetName, dataPath and operationType and, if its type is
    replaceAtCell, a truthy cellId.  Nothing else is looked at: neither the
    form of the URL, nor the form of the anchor, nor whether the type is
    one the dispatcher knows. *)
Theorem validateConfig_ok_exactly (config : Config) :
  validateConfig config = Ok tt <->
  surroundings_ok config = true /\
  exists ops,
    operations config = OpsArray ops /\ ops <> [] /\
    forallb operation_ok ops = true.
Proof.
  split.
  - intros H. unfold validateConfig in H.
    destruct (check_required config requiredFields) as [[]|e] eqn:E; [| discriminate].
    destruct (check_required_ok_inv config E) as [Hsur Hops]. split; [exact Hsur |].
    cbn [bind_result] in H.
    destruct (operations config) as [ops | v] eqn:Eo; [| discriminate].
    exists ops. split; [reflexivity |].
    apply (validateConfig_ok_iff config ops Hsur Eo).
    unfold validateConfig. rewrite E. cbn [bind_result]. now rewrite Eo.
  - intros (Hsur & ops & Hops & Hne & Hall).
    now apply (validateConfig_ok_iff config ops Hsur Hops).
Qed.

Lemma validateConfig_ok_exactly_witness :
  validateConfig
    (sample_config
       [{| sheetName := JStr "Sheet1"; dataPath := JStr "d.csv";
           operationType := JStr "appendRows"; cellId := JUndefined |};
        {| sheetName := JStr "Sheet1"; dataPath := JStr "d.csv";
           operationType := JStr "replaceAtCell"; cellId := JStr "not a cell" |}])
  = Ok tt.
Proof.
  apply (proj2 (validateConfig_ok_exactly _)).
  split; [reflexivity |]. eexists. split; [reflexivity |].
  split; [discriminate | reflexivity].
Defined.

(** ** The registry of sheets *)

Lemma build_sheetsMap_fold_other (sheets : list (string * Z)) (name : string) :
  forall sheetsMap : gmap string Z,
    ~ In name (map fst sheets) ->
    fold_left (fun m sheet => sheetsMap_set m (fst sheet) (snd sheet)) sheets sheetsMap
      !! name
    = sheetsMap !! name.
Proof.
  induction sheets as [|[title sheetId] sheets IH]; intros sheetsMap Hnotin;
    [reflexivity |].
  cbn [fold_left fst snd]. rewrite IH.
  - unfold sheetsMap_set. destruct (String.eqb title "__proto__"); [reflexivity |].
    apply lookup_insert_ne. intros ->. apply Hnotin. now left.
  - intros Hin. apply Hnotin. now right.
Qed.

Lemma build_sheetsMap_fold_proto (sheets : list (string * Z)) :
  forall sheetsMap : gmap string Z,
    fold_left (fun m sheet => sheetsMap_set m (fst sheet) (snd sheet)) sheets sheetsMap
      !! "__proto__"
    = sheetsMap !! "__proto__".
Proof.
  induction sheets as [|[title sheetId] sheets IH]; intros sheetsMap; [reflexivity |].
  cbn [fold_left fst snd]. rewrite IH. unfold sheetsMap_set.
  destruct (String.eqb_spec title "__proto__") as [-> | Hne]; [reflexivity |].
  now apply lookup_insert_ne.
Qed.

Lemma build_sheetsMap_absent (sheets : list (string * Z)) (name : string) :
  ~ In name (map fst sheets) -> build_sheetsMap sheets !! name = None.
Proof. intros H. unfold build_sheetsMap. now rewrite build_sheetsMap_fold_other. Qed.

Lemma build_sheetsMap_last (before after : list (string * Z)) (name : string)
    (sheetId : Z) :
  ~ In name (map fst after) -> name <> "__proto__" ->
  build_sheetsMap (before ++ (name, sheetId) :: after) !! name = Some sheetId.
Proof.
  intros Hnotin Hne. unfold build_sheetsMap.
  rewrite fold_left_app. cbn [fold_left fst snd].
  rewrite build_sheetsMap_fold_other by exact Hnotin.
  unfold sheetsMap_set. destruct (String.eqb_spec name "__proto__"); [congruence |].
  apply lookup_insert_eq.
Qed.

(** X9. What the registry holds after the loop over the sheets: nothing
    for a title that is not in the list; for a title that is, the id of its
    last occurrence; and never anything of its own for [__proto__]. *)
Theorem build_sheetsMap_lookup (sheets : list (string * Z)) :
  (forall name, ~ In name (map fst sheets) -> build_sheetsMap sheets !! name = None) /\
  (forall before name sheetId after,
      sheets = before ++ (name, sheetId) :: after ->
      ~ In name (map fst after) -> name <> "__proto__" ->
      build_sheetsMap sheets !! name = Some sheetId) /\
  build_sheetsMap sheets !! "__proto__" = None.
Proof.
  split; [| split].
  - apply build_sheetsMap_absent.
  - intros before name sheetId after ->. apply build_sheetsMap_last.
  - unfold build_sheetsMap. now rewrite build_sheetsMap_fold_proto.
Qed.

Lemma build_sheetsMap_lookup_witness :
  build_sheetsMap [("Data", 3); ("Totals", 8); ("Data", 11)] !! "Data" = Some 11 /\
  build_sheetsMap [("Data", 3); ("Totals", 8); ("Data", 11)] !! "Summary" = None.
Proof.
  split.
  - apply (proj1 (proj2 (build_sheetsMap_lookup _))
             [("Data", 3); ("Totals", 8)] "Data" 11 []); [reflexivity | | discriminate].
    intros [].
  - apply (proj1 (build_sheetsMap_lookup _)). simpl.
    intros [H | [H | [H | []]]]; discriminate.
Defined.

(** ** The dispatcher: skipped operations *)

Section SkippedOperations.
Context (env : Environment).

Lemma process_operation_skip (sheetsMap : gmap string Z) (spreadsheetId : string)
    (operation : Operation) (tr : list event) :
  sheetsMap_truthy sheetsMap (toString (sheetName operation)) = false ->
  process_operation env sheetsMap spreadsheetId operation tr
  = (Ok tt,
     tr ++ [ConsoleLog ("Processing operation for sheet: "
                        +:+ toString (sheetName operation));
            ConsoleWarn ("Sheet " +:+ dquote +:+ toString (sheetName operation)
                         +:+ dquote +:+ " not found, skipping operation")]).
Proof.
  intros H. unfold process_operation, bind, emit. rewrite H. cbn [negb].
  now rewrite <- app_assoc.
Qed.
End SkippedOperations.

(** X10. An operation is left out, and the run goes on with the next one,
    when the name of its sheet is neither a title of the spreadsheet nor a
    name every object inherits, and also when the last sheet with this
    title has the id 0 and the title is not [__proto__] (for which the
    registry never holds an id): two lines are written, nothing is loaded
    and no request is sent. *)
Theorem skipped_operation (env : Environment) (sheets : list (string * Z))
    (spreadsheetId : string) (operation : Operation) (rest : list Operation)
    (tr : list event) :
  let name := toString (sheetName operation) in
  let skipped :=
    tr ++ [ConsoleLog ("Processing operation for sheet: " +:+ name);
           ConsoleWarn ("Sheet " +:+ dquote +:+ name +:+ dquote
                        +:+ " not found, skipping operation")] in
  (~ In name (map fst sheets) /\ ~ In name object_prototype_keys) \/
  (exists before after,
      sheets = before ++ (name, 0) :: after /\ ~ In name (map fst after)
      /\ name <> "__proto__") ->
  process_operation env (build_sheetsMap sheets) spreadsheetId operation tr
  = (Ok tt, skipped) /\
  process_operations env (build_sheetsMap sheets) spreadsheetId (operation :: rest) tr
  = process_operations env (build_sheetsMap sheets) spreadsheetId rest skipped.
Proof.
  intros name skipped H.
  assert (Hfalse : sheetsMap_truthy (build_sheetsMap sheets) name = false).
  { unfold sheetsMap_truthy. destruct H as [[Hnotin Hproto] | (before & after & Hs & Hn & Hp)].
    - rewrite (build_sheetsMap_absent sheets name Hnotin).
      apply bool_decide_eq_false. intros Hin. apply Hproto. now apply list_elem_of_In.
    - subst sheets. now rewrite (build_sheetsMap_last before after name 0 Hn Hp). }
  pose proof (process_operation_skip env _ spreadsheetId operation tr Hfalse) as Hskip.
  split; [exact Hskip |].
  cbn [process_operations]. unfold bind at 1. now rewrite Hskip.
Qed.

Lemma skipped_operation_witness :
  process_operations (sample_env [("Data", 4)]) (build_sheetsMap [("Data", 4)]) "id"
    [sample_operation "Summary" "s.csv" "replaceEntireSheet";
     sample_operation "Data" "d.csv" "replaceEntireSheet"] []
  = process_operations (sample_env [("Data", 4)]) (build_sheetsMap [("Data", 4)]) "id"
      [sample_operation "Data" "d.csv" "replaceEntireSheet"]
      [ConsoleLog "Processing operation for sheet: Summary";
       ConsoleWarn ("Sheet " +:+ dquote +:+ "Summary" +:+ dquote
                    +:+ " not found, skipping operation")].
Proof.
  pose proof (skipped_operation (sample_env [("Data", 4)]) [("Data", 4)] "id"
                (sample_operation "Summary" "s.csv" "replaceEntireSheet")
                [sample_operation "Data" "d.csv" "replaceEntireSheet"] []) as Hskip.
  cbv zeta in Hskip. apply Hskip.
  left. split.
  - simpl. intros [H | []]; discriminate.
  - unfold object_prototype_keys. simpl.
    intros H; repeat (destruct H as [H | H]; [discriminate |]); exact H.
Defined.

(** ** The dispatcher: what a run adds to the trace *)

Lemma sheet_requests_app (tr1 tr2 : list event) :
  sheet_requests (tr1 ++ tr2) = sheet_requests tr1 ++ sheet_requests tr2.
Proof.
  induction tr1 as [|e tr1 IH]; [reflexivity |].
  destruct e as [msg | msg | msg | call]; simpl; now rewrite IH.
Qed.

Lemma frame_nil (spreadsheetId : string) (n : nat) : frame spreadsheetId n [].
Proof. split; [constructor | simpl; lia]. Qed.

Lemma frame_app (spreadsheetId : string) (n1 n2 : nat) (ext1 ext2 : list event) :
  frame spreadsheetId n1 ext1 -> frame spreadsheetId n2 ext2 ->
  frame spreadsheetId (n1 + n2) (ext1 ++ ext2).
Proof.
  intros [H1 L1] [H2 L2]. unfold frame. rewrite sheet_requests_app, length_app.
  split; [now apply Forall_app | lia].
Qed.

Lemma frame_weaken (spreadsheetId : string) (n n' : nat) (ext : list event) :
  (n <= n')%nat -> frame spreadsheetId n ext -> frame spreadsheetId n' ext.
Proof. intros Hle [H L]. split; [exact H | lia]. Qed.

Section Extends.
Context (spreadsheetId : string).

Lemma extends_weaken {A : Type} (n n' : nat) (m : M A) :
  (n <= n')%nat -> extends (frame spreadsheetId n) m -> extends (frame spreadsheetId n') m.
Proof.
  intros Hle Hm tr r tr' H. destruct (Hm tr r tr' H) as (ext & -> & Hf).
  exists ext. split; [reflexivity | now apply (frame_weaken _ n)].
Qed.

Lemma extends_bind {A B : Type} (n1 n2 : nat) (m : M A) (k : A -> M B) :
  extends (frame spreadsheetId n1) m ->
  (forall a, extends (frame spreadsheetId n2) (k a)) ->
  extends (frame spreadsheetId (n1 + n2)) (bind m k).
Proof.
  intros Hm Hk tr r tr' H. unfold bind in H.
  destruct (m tr) as [[a|e] tr1] eqn:E; destruct (Hm _ _ _ E) as (ext1 & -> & Hf1).
  - destruct (Hk a _ _ _ H) as (ext2 & -> & Hf2).
    exists (ext1 ++ ext2). rewrite <- app_assoc. split; [reflexivity | now apply frame_app].
  - injection H as <- <-. exists ext1. split; [reflexivity |].
    apply (frame_weaken _ n1); [lia | exact Hf1].
Qed.

Lemma extends_try {A : Type} (n1 n2 : nat) (m : M A) (handler : js_error -> M A) :
  extends (frame spreadsheetId n1) m ->
  (forall e, extends (frame spreadsheetId n2) (handler e)) ->
  extends (frame spreadsheetId (n1 + n2)) (try_catch m handler).
Proof.
  intros Hm Hh tr r tr' H. unfold try_catch in H.
  destruct (m tr) as [[a|e] tr1] eqn:E; destruct (Hm _ _ _ E) as (ext1 & -> & Hf1).
  - injection H as <- <-. exists ext1. split; [reflexivity |].
    apply (frame_weaken _ n1); [lia | exact Hf1].
  - destruct (Hh e _ _ _ H) as (ext2 & -> & Hf2).
    exists (ext1 ++ ext2). rewrite <- app_assoc. split; [reflexivity | now apply frame_app].
Qed.

Lemma extends_silent {A : Type} (f : list event -> result A) :
  extends (frame spreadsheetId 0) (fun tr => (f tr, tr)).
Proof.
  intros tr r tr' [= <- <-]. exists []. rewrite app_nil_r.
  split; [reflexivity | apply frame_nil].
Qed.

Lemma extends_console (e : event) :
  sheet_requests [e] = [] -> extends (frame spreadsheetId 0) (emit e).
Proof.
  intros He tr r tr' [= <- <-]. exists [e]. split; [reflexivity |].
  unfold frame. rewrite He. split; [constructor | simpl; lia].
Qed.

Lemma extends_call_remote (env : Environment) (call : api_call) :
  call_target call = spreadsheetId -> is_values_call call = true ->
  extends (frame spreadsheetId 1) (call_remote env call).
Proof.
  intros Ht Hv tr r tr' [= <- <-]. exists [ApiCall call]. split; [reflexivity |].
  split; [repeat constructor; assumption | simpl; lia].
Qed.
End Extends.

(** Proves that a computation built from the steps above extends the
    trace within the frame. *)
Ltac frame_steps :=
  repeat first
    [ apply extends_console; reflexivity
    | apply extends_call_remote; reflexivity
    | apply (extends_silent _ (fun _ => _))
    | apply extends_silent
    | match goal with
      | |- extends (frame _ (_ + _)) (bind _ _) => apply extends_bind; [| intros ?]
      | |- extends (frame _ (_ + _)) (try_catch _ _) => apply extends_try; [| intros ?]
      end ].

Section Frame.
Context (env : Environment).

Lemma readCsvFile_frame (spreadsheetId : string) (filePath : jsval) :
  extends (frame spreadsheetId 0) (readCsvFile env filePath).
Proof.
  unfold readCsvFile.
  apply (extends_weaken spreadsheetId ((0 + (0 + 0)) + (0 + 0)) 0); [lia |].
  unfold ret, throw. frame_steps.
Qed.

Lemma replaceEntireSheet_frame (spreadsheetId : string) (sheet : jsval)
    (data : TabularData) :
  extends (frame spreadsheetId 2) (replaceEntireSheet env spreadsheetId sheet data).
Proof.
  unfold replaceEntireSheet.
  apply (extends_weaken spreadsheetId ((1 + (1 + 0)) + (0 + 0)) 2); [lia |].
  unfold throw. frame_steps.
Qed.

Lemma replaceAtCell_frame (spreadsheetId : string) (sheet cell : jsval)
    (data : TabularData) :
  extends (frame spreadsheetId 1) (replaceAtCell env spreadsheetId sheet cell data).
Proof.
  unfold replaceAtCell.
  apply (extends_weaken spreadsheetId ((0 + (1 + 0)) + (0 + 0)) 1); [lia |].
  unfold throw, lift. frame_steps.
Qed.

Lemma process_operation_frame (sheetsMap : gmap string Z) (spreadsheetId : string)
    (operation : Operation) :
  extends (frame spreadsheetId 2)
    (process_operation env sheetsMap spreadsheetId operation).
Proof.
  unfold process_operation.
  apply (extends_weaken spreadsheetId (0 + 2) 2); [lia |].
  apply extends_bind; [apply extends_console; reflexivity | intros _].
  destruct (negb (sheetsMap_truthy sheetsMap (toString (sheetName operation)))).
  { apply (extends_weaken spreadsheetId 0 2); [lia |]. apply extends_console; reflexivity. }
  apply (extends_weaken spreadsheetId (0 + 2) 2); [lia |].
  apply extends_bind; [apply readCsvFile_frame | intros csvData].
  destruct (strict_eq_string (operationType operation) "replaceEntireSheet");
    [apply replaceEntireSheet_frame |].
  destruct (strict_eq_string (operationType operation) "replaceAtCell").
  - apply (extends_weaken spreadsheetId 1 2); [lia | apply replaceAtCell_frame].
  - apply (extends_weaken spreadsheetId 0 2); [lia |]. apply extends_console; reflexivity.
Qed.

Lemma process_operations_frame (sheetsMap : gmap string Z) (spreadsheetId : string)
    (operations : list Operation) :
  extends (frame spreadsheetId (2 * List.length operations))
    (process_operations env sheetsMap spreadsheetId operations).
Proof.
  induction operations as [|operation operations IH].
  - intros tr r tr' [= <- <-]. exists []. rewrite app_nil_r.
    split; [reflexivity | apply frame_nil].
  - cbn [process_operations].
    apply (extends_weaken spreadsheetId (2 + 2 * List.length operations)); [simpl; lia |].
    apply extends_bind; [apply process_operation_frame | intros _; exact IH].
Qed.
End Frame.

Lemma processDataOperations_adds (env : Environment) (spreadsheetId : string)
    (operations : list Operation) (tr tr' : list event) (r : result unit) :
  processDataOperations env spreadsheetId operations tr = (r, tr') ->
  exists ext calls,
    tr' = tr ++ ext /\
    sheet_requests ext = SpreadsheetsGet spreadsheetId :: calls /\
    Forall (fun call => call_target call = spreadsheetId /\ is_values_call call = true)
      calls /\
    (List.length calls <= 2 * List.length operations)%nat.
Proof.
  unfold processDataOperations, try_catch. unfold bind at 1 2.
  intros H.
  destruct (spreadsheets_get env spreadsheetId) as [sheets | e].
  - destruct (process_operations env (build_sheetsMap sheets) spreadsheetId operations
                (tr ++ [ApiCall (SpreadsheetsGet spreadsheetId)]))
      as [[[]|e] tr1] eqn:E1;
      destruct (process_operations_frame env _ _ _ _ _ _ E1) as (ext & -> & Hall & Hlen);
      unfold bind, emit, throw in H; injection H as <- <-.
    + exists ([ApiCall (SpreadsheetsGet spreadsheetId)] ++ ext
              ++ [ConsoleLog "All operations completed successfully"]),
        (sheet_requests ext).
      rewrite <- !app_assoc. split; [reflexivity |].
      rewrite !sheet_requests_app. simpl. rewrite app_nil_r. auto.
    + exists ([ApiCall (SpreadsheetsGet spreadsheetId)] ++ ext
              ++ [ConsoleError ("Error processing data operations:"
                                +:+ " " +:+ message e)]),
        (sheet_requests ext).
      rewrite <- !app_assoc. split; [reflexivity |].
      rewrite !sheet_requests_app. simpl. rewrite app_nil_r. auto.
  - unfold bind, emit, throw in H. injection H as <- <-.
    exists ([ApiCall (SpreadsheetsGet spreadsheetId)]
            ++ [ConsoleError ("Error processing data operations:"
                              +:+ " " +:+ message e)]), [].
    rewrite <- !app_assoc. split; [reflexivity |]. simpl.
    split; [reflexivity |]. split; [constructor | lia].
Qed.

(** X11. What the dispatcher adds to the trace, whatever the outcome.  One
    operation, whatever the registry and the trace it starts from: what was
    there before stays, and at most two requests are added, each of them
    a request to clear or to write about the spreadsheet the dispatcher was
    given.  A run: what was there before stays; the registry is fetched
    once, before anything else is requested; every other request is a
    request to clear or to write about that spreadsheet; and there are at
    most twice as many of them as there are operations. *)
Theorem processDataOperations_frame (env : Environment) (spreadsheetId : string) :
  (forall (sheetsMap : gmap string Z) (operation : Operation)
          (tr tr' : list event) (r : result unit),
      process_operation env sheetsMap spreadsheetId operation tr = (r, tr') ->
      exists ext,
        tr' = tr ++ ext /\
        Forall (fun call => call_target call = spreadsheetId
                            /\ is_values_call call = true)
          (sheet_requests ext) /\
        (List.length (sheet_requests ext) <= 2)%nat) /\
  (forall (operations : list Operation) (tr tr' : list event) (r : result unit),
      processDataOperations env spreadsheetId operations tr = (r, tr') ->
      exists ext calls,
        tr' = tr ++ ext /\
        sheet_requests ext = SpreadsheetsGet spreadsheetId :: calls /\
        Forall (fun call => call_target call = spreadsheetId
                            /\ is_values_call call = true)
          calls /\
        (List.length calls <= 2 * List.length operations)%nat).
Proof.
  split.
  - intros sheetsMap operation tr tr' r H.
    destruct (process_operation_frame env sheetsMap spreadsheetId operation _ _ _ H)
      as (ext & Hext & Hall & Hlen).
    exists ext. split; [exact Hext |]. split; [exact Hall | exact Hlen].
  - intros operations tr tr' r. apply processDataOperations_adds.
Qed.

Lemma processDataOperations_frame_witness :
  (exists ext,
      snd (process_operation (sample_env [("Data", 4)]) (build_sheetsMap [("Data", 4)])
             "new-file" (sample_operation "Data" "d.csv" "replaceEntireSheet")
             [ConsoleLog "before"])
      = [ConsoleLog "before"] ++ ext /\
      (List.length (sheet_requests ext) <= 2)%nat) /\
  (exists ext calls,
      snd (processDataOperations (sample_env [("Data", 4)]) "new-file"
             [sample_operation "Data" "d.csv" "replaceEntireSheet";
              sample_operation "Data" "bad.csv" "replaceEntireSheet"]
             [ConsoleLog "before"])
      = [ConsoleLog "before"] ++ ext /\
      sheet_requests ext = SpreadsheetsGet "new-file" :: calls /\
      (List.length calls <= 4)%nat).
Proof.
  split.
  - destruct (proj1 (processDataOperations_frame (sample_env [("Data", 4)]) "new-file")
                (build_sheetsMap [("Data", 4)])
                (sample_operation "Data" "d.csv" "replaceEntireSheet")
                [ConsoleLog "before"] _ _ (surjective_pairing _))
      as (ext & Hext & _ & Hlen).
    exists ext. split; [exact Hext | exact Hlen].
  - destruct (proj2 (processDataOperations_frame (sample_env [("Data", 4)]) "new-file")
                [sample_operation "Data" "d.csv" "replaceEntireSheet";
                 sample_operation "Data" "bad.csv" "replaceEntireSheet"]
                [ConsoleLog "before"] _ _ (surjective_pairing _))
      as (ext & calls & Hext & Hcalls & _ & Hlen).
    exists ext, calls. split; [exact Hext |]. split; [exact Hcalls | exact Hlen].
Defined.

(** ** The dispatcher: failures *)

(** X12. Any failure ends the batch: when processing some operations
    throws, be it the loader, a request or the anchor that failed,
    processing them followed by others throws the same error with the same
    trace, so none of the others is started; the dispatcher then adds its
    own error line and throws this error to its caller. *)
Theorem failure_ends_batch (env : Environment) (spreadsheetId : string)
    (sheets : list (string * Z)) (pre post : list Operation)
    (tr tr' : list event) (e : js_error) :
  spreadsheets_get env spreadsheetId = Ok sheets ->
  process_operations env (build_sheetsMap sheets) spreadsheetId pre
    (tr ++ [ApiCall (SpreadsheetsGet spreadsheetId)]) = (Throw e, tr') ->
  process_operations env (build_sheetsMap sheets) spreadsheetId (pre ++ post)
    (tr ++ [ApiCall (SpreadsheetsGet spreadsheetId)]) = (Throw e, tr') /\
  processDataOperations env spreadsheetId (pre ++ post) tr
  = (Throw e,
     tr' ++ [ConsoleError ("Error processing data operations:" +:+ " " +:+ message e)]).
Proof.
  intros Hget Hpre.
  assert (Happ : process_operations env (build_sheetsMap sheets) spreadsheetId
                   (pre ++ post) (tr ++ [ApiCall (SpreadsheetsGet spreadsheetId)])
                 = (Throw e, tr')).
  { rewrite process_operations_app. unfold bind. now rewrite Hpre. }
  split; [exact Happ |].
  unfold processDataOperations, try_catch. unfold bind at 1. rewrite Hget.
  unfold bind at 1. rewrite Happ. reflexivity.
Qed.

Lemma failure_ends_batch_witness :
  processDataOperations (sample_env [("Data", 4)]) "id"
    ([{| sheetName := JStr "Data"; dataPath := JStr "d.csv";
         operationType := JStr "replaceAtCell"; cellId := JStr "b2" |}]
     ++ [sample_operation "Data" "d.csv" "replaceEntireSheet"]) []
  = (Throw (Error "Invalid cell reference: b2"),
     [ApiCall (SpreadsheetsGet "id");
      ConsoleLog "Processing operation for sheet: Data";
      ConsoleLog "CSV file read successfully: d.csv";
      ConsoleError "Error replacing data at cell (Data, b2): Invalid cell reference: b2";
      ConsoleError "Error processing data operations: Invalid cell reference: b2"]).
Proof.
  apply (proj2 (failure_ends_batch (sample_env [("Data", 4)]) "id" [("Data", 4)]
                  [{| sheetName := JStr "Data"; dataPath := JStr "d.csv";
                      operationType := JStr "replaceAtCell"; cellId := JStr "b2" |}]
                  [sample_operation "Data" "d.csv" "replaceEntireSheet"] []
                  [ApiCall (SpreadsheetsGet "id");
                   ConsoleLog "Processing operation for sheet: Data";
                   ConsoleLog "CSV file read successfully: d.csv";
                   ConsoleError
                     "Error replacing data at cell (Data, b2): Invalid cell reference: b2"]
                  (Error "Invalid cell reference: b2") eq_refl
                  ltac:(vm_compute; reflexivity))).
Defined.

(** X13. The type of an operation is looked at after its data is loaded.
    For an operation on a sheet that is found, whose type is neither
    replaceEntireSheet nor replaceAtCell: when the data loads, a warning is
    written and no request is sent; when loading throws, the operation is
    not skipped, the error is thrown. *)
Theorem unknown_operation_type (env : Environment) (sheetsMap : gmap string Z)
    (spreadsheetId : string) (operation : Operation) (tr : list event) :
  sheetsMap_truthy sheetsMap (toString (sheetName operation)) = true ->
  strict_eq_string (operationType operation) "replaceEntireSheet" = false ->
  strict_eq_string (operationType operation) "replaceAtCell" = false ->
  let started :=
    tr ++ [ConsoleLog ("Processing operation for sheet: "
                       +:+ toString (sheetName operation))] in
  (forall data,
      read_csv env started (dataPath operation) = Ok data ->
      process_operation env sheetsMap spreadsheetId operation tr
      = (Ok tt,
         started
         ++ [ConsoleLog ("CSV file read successfully: "
                         +:+ toString (dataPath operation));
             ConsoleWarn ("Unknown operation type: "
                          +:+ toString (operationType operation) +:+ ", skipping")])) /\
  (forall e,
      read_csv env started (dataPath operation) = Throw e ->
      process_operation env sheetsMap spreadsheetId operation tr
      = (Throw e,
         started
         ++ [ConsoleError ("Error reading CSV file (" +:+ toString (dataPath operation)
                           +:+ "):" +:+ " " +:+ message e)])).
Proof.
  intros Hfound Hentire Hcell started. split.
  - intros data Hread.
    unfold process_operation, bind at 1. unfold emit at 1.
    rewrite Hfound. cbn [negb]. unfold bind at 1.
    unfold readCsvFile, try_catch, bind at 1. fold started. rewrite Hread.
    unfold bind, emit, ret. rewrite Hentire, Hcell.
    now rewrite <- !app_assoc.
  - intros e Hread.
    now apply process_operation_load_failure.
Qed.

Lemma unknown_operation_type_witness :
  process_operation (sample_env [("Data", 4)]) (build_sheetsMap [("Data", 4)]) "id"
    (sample_operation "Data" "d.csv" "appendRows") []
  = (Ok tt,
     [ConsoleLog "Processing operation for sheet: Data";
      ConsoleLog "CSV file read successfully: d.csv";
      ConsoleWarn "Unknown operation type: appendRows, skipping"]) /\
  process_operation (sample_env [("Data", 4)]) (build_sheetsMap [("Data", 4)]) "id"
    (sample_operation "Data" "bad.csv" "appendRows") []
  = (Throw (Error "ENOENT: no such file or directory"),
     [ConsoleLog "Processing operation for sheet: Data";
      ConsoleError "Error reading CSV file (bad.csv): ENOENT: no such file or directory"]).
Proof.
  split.
  - apply (proj1 (unknown_operation_type (sample_env [("Data", 4)])
                    (build_sheetsMap [("Data", 4)]) "id"
                    (sample_operation "Data" "d.csv" "appendRows") []
                    ltac:(vm_compute; reflexivity) eq_refl eq_refl) [["a"; "b"]]).
    reflexivity.
  - apply (proj2 (unknown_operation_type (sample_env [("Data", 4)])
                    (build_sheetsMap [("Data", 4)]) "id"
                    (sample_operation "Data" "bad.csv" "appendRows") []
                    ltac:(vm_compute; reflexivity) eq_refl eq_refl)
             (Error "ENOENT: no such file or directory")).
    reflexivity.
Defined.

(** ** Writing at an anchor *)



(** X15. [replaceAtCell] on a well-formed anchor sends one request, a
    write, never a clear.  Its range is the name of the sheet, an
    exclamation mark, the anchor, a colon and the end cell, which is the
    letters of column [anchor column + widest row - 1] and the digits of
    row [anchor row + number of rows - 1], for an end column and an end row
    below 2^53 (where the numbers of the source are exact); the data goes
    with it as it is.  The outcome of the request is the outcome of
    [replaceAtCell]. *)
Theorem replaceAtCell_range (env : Environment) (spreadsheetId : string)
    (sheet : jsval) (cell : string) (data : TabularData) (tr : list event) :
  well_formed_ref cell = true ->
  let endColumn := columnToNumber (take_class is_upper cell) + maxRowLength data - 1 in
  let endRow := parseInt (drop_class is_upper cell) + Z.of_nat (List.length data) - 1 in
  safe_integer endColumn ->
  safe_integer endRow ->
  let endCell := getColumnLetter endColumn +:+ numberToString endRow in
  let request :=
    ValuesUpdate spreadsheetId
      (JStr (toString sheet +:+ "!" +:+ cell +:+ ":" +:+ endCell))
      "USER_ENTERED" data in
  (remote env tr request = Ok tt ->
   replaceAtCell env spreadsheetId sheet (JStr cell) data tr
   = (Ok tt,
      tr ++ [ApiCall request;
             ConsoleLog ("Replaced data at cell " +:+ cell +:+ " in sheet: "
                         +:+ toString sheet)])) /\
  (forall e,
      remote env tr request = Throw e ->
      replaceAtCell env spreadsheetId sheet (JStr cell) data tr
      = (Throw e,
         tr ++ [ApiCall request;
                ConsoleError ("Error replacing data at cell (" +:+ toString sheet
                              +:+ ", " +:+ cell +:+ "):" +:+ " " +:+ message e)])).
Proof.
  intros Hwf endColumn endRow _ _ endCell request.
  assert (Hend : getEndCell_value env (JStr cell) data = Ok endCell)
    by (apply getEndCell_well_formed; exact Hwf).
  split.
  - intros Hremote. unfold replaceAtCell, try_catch, bind at 1. unfold lift.
    rewrite Hend. unfold bind, call_remote, emit.
    cbn [toString]. fold request. rewrite Hremote. now rewrite <- app_assoc.
  - intros e Hremote. unfold replaceAtCell, try_catch, bind at 1. unfold lift.
    rewrite Hend. unfold bind, call_remote, emit, throw. cbn [toString].
    fold request. rewrite Hremote. now rewrite <- app_assoc.
Qed.

Lemma replaceAtCell_range_witness :
  replaceAtCell (sample_env [("Data", 4)]) "id" (JStr "Data") (JStr "B2")
    [["a"; "b"; "c"]; ["d"]] []
  = (Ok tt,
     [ApiCall (ValuesUpdate "id" (JStr "Data!B2:D3") "USER_ENTERED"
                 [["a"; "b"; "c"]; ["d"]]);
      ConsoleLog "Replaced data at cell B2 in sheet: Data"]).
Proof.
  apply (proj1 (replaceAtCell_range (sample_env [("Data", 4)]) "id" (JStr "Data") "B2"
                  [["a"; "b"; "c"]; ["d"]] [] eq_refl
                  ltac:(safe_integer_closed) ltac:(safe_integer_closed))).
  reflexivity.
Defined.

(** ** The run as a whole *)

Lemma engine_events_app (tr1 tr2 : list run_event) :
  engine_events (tr1 ++ tr2) = engine_events tr1 ++ engine_events tr2.
Proof.
  induction tr1 as [|[e | call] tr1 IH]; simpl; [reflexivity | now rewrite IH | exact IH].
Qed.

Lemma drive_calls_app (tr1 tr2 : list run_event) :
  drive_calls (tr1 ++ tr2) = drive_calls tr1 ++ drive_calls tr2.
Proof.
  induction tr1 as [|[e | call] tr1 IH]; simpl; [reflexivity | exact IH | now rewrite IH].
Qed.

Lemma engine_events_map (l : list event) : engine_events (map Engine l) = l.
Proof. induction l as [|e l IH]; simpl; [reflexivity | now rewrite IH]. Qed.

Lemma drive_calls_map (l : list event) : drive_calls (map Engine l) = [].
Proof. induction l as [|e l IH]; simpl; [reflexivity | exact IH]. Qed.

Lemma run_engine_adds {A : Type} (m : M A) (tr : list run_event) (r : result A)
    (ext : list event) :
  m (engine_events tr) = (r, engine_events tr ++ ext) ->
  run_engine m tr = (r, tr ++ map Engine ext).
Proof.
  intros H. unfold run_engine. rewrite H.
  now rewrite drop_app_length.
Qed.

Section Stages.
Context (world : Collaborators).

Lemma createAuthClient_outcome (tr : list run_event) :
  createAuthClient world tr =
    match load_credentials world with
    | Ok _ =>
        (Ok tt, tr ++ [Engine (ConsoleLog "Authentication client created successfully")])
    | Throw cause =>
        (Throw (Error ("Failed to create authentication client. "
                       +:+ "Make sure service-account.json exists.")),
         tr ++ [Engine (ConsoleError ("Error creating authentication client:"
                                      +:+ " " +:+ message cause))])
    end.
Proof.
  unfold createAuthClient, rtry, rbind, rlift, say, rthrow.
  now destruct (load_credentials world).
Qed.

Lemma copySpreadsheet_outcome (sourceId : string) (name : jsval) (tr : list run_event) :
  copySpreadsheet world sourceId name tr =
    match files_copy world tr sourceId name with
    | Ok id =>
        (Ok id,
         tr ++ [DriveCall (FilesCopy sourceId name);
                Engine (ConsoleLog ("Template spreadsheet copied with ID: " +:+ id))])
    | Throw e =>
        (Throw e,
         tr ++ [DriveCall (FilesCopy sourceId name);
                Engine (ConsoleError ("Error copying spreadsheet:"
                                      +:+ " " +:+ message e))])
    end.
Proof.
  unfold copySpreadsheet, rtry, rbind, say, rret, rthrow.
  destruct (files_copy world tr sourceId name); now rewrite <- app_assoc.
Qed.

Lemma moveFileToFolder_outcome (fileId : string) (folder drive : jsval)
    (tr : list run_event) :
  moveFileToFolder world fileId folder drive tr =
    match files_get world tr fileId with
    | Ok parents =>
        let update :=
          FilesUpdate fileId folder (String.concat "," parents) drive "id, parents" in
        match drive_write world (tr ++ [DriveCall (FilesGet fileId "parents")]) update with
        | Ok _ =>
            (Ok tt,
             tr ++ [DriveCall (FilesGet fileId "parents"); DriveCall update;
                    Engine (ConsoleLog ("File moved to folder with ID: "
                                        +:+ toString folder +:+ " in shared drive: "
                                        +:+ toString drive))])
        | Throw e =>
            (Throw e,
             tr ++ [DriveCall (FilesGet fileId "parents"); DriveCall update;
                    Engine (ConsoleError ("Error moving file to folder:"
                                          +:+ " " +:+ message e))])
        end
    | Throw e =>
        (Throw e,
         tr ++ [DriveCall (FilesGet fileId "parents");
                Engine (ConsoleError ("Error moving file to folder:"
                                      +:+ " " +:+ message e))])
    end.
Proof.
  unfold moveFileToFolder, rtry, rbind, call_drive, say, rthrow.
  destruct (files_get world tr fileId) as [parents | e]; [| now rewrite <- app_assoc].
  cbv zeta.
  destruct (drive_write world _ _); now rewrite <- !app_assoc.
Qed.

Lemma shareWithOrganization_outcome (fileId : string) (domain : jsval)
    (tr : list run_event) :
  shareWithOrganization world fileId domain tr =
    let share := PermissionsCreate fileId "domain" "reader" domain in
    match drive_write world tr share with
    | Ok _ =>
        (Ok tt,
         tr ++ [DriveCall share;
                Engine (ConsoleLog ("File shared with everyone in the organization ("
                                    +:+ toString domain +:+ ")"))])
    | Throw e =>
        (Throw e,
         tr ++ [DriveCall share;
                Engine (ConsoleError ("Error sharing file with organization:"
                                      +:+ " " +:+ message e))])
    end.
Proof.
  unfold shareWithOrganization, rtry, rbind, call_drive, say, rthrow. cbv zeta.
  destruct (drive_write world tr _); now rewrite <- app_assoc.
Qed.

(** Closes the case of a run that stopped after [k] Drive requests. *)
Ltac early_exit H k src newId parents :=
  unfold rbind, say, rthrow in H; injection H as <- <-;
  eexists; exists src, newId, parents, k;
  rewrite <- ?app_assoc;
  (split; [reflexivity |]);
  simpl;
  repeat split; intros; try lia; try congruence; try constructor; eauto.

Lemma run_structure (config : Config) (tr tr' : list run_event) (r : result string) :
  createAndUpdateSpreadsheet world config tr = (r, tr') ->
  exists ext src newId parents k,
    tr' = tr ++ ext /\
    drive_calls ext = take k (drive_plan config src newId parents) /\
    ((1 <= k)%nat ->
     validateConfig config = Ok tt /\ load_credentials world = Ok tt /\
     extractSpreadsheetId_value world (templateUrl config) = Ok src) /\
    ((2 <= k)%nat ->
     exists tr0, files_copy world tr0 src (newSpreadsheetName config) = Ok newId) /\
    Forall (fun call => call_target call = newId) (sheet_requests (engine_events ext)) /\
    (sheet_requests (engine_events ext) <> [] ->
     k = 4%nat /\
     exists ext1 ext2,
       ext = ext1 ++ ext2 /\
       drive_calls ext1 = drive_plan config src newId parents /\
       sheet_requests (engine_events ext1) = [] /\ drive_calls ext2 = []) /\
    (forall url, r = Ok url ->
       k = 4%nat /\ url = "https://docs.google.com/spreadsheets/d/" +:+ newId).
Proof.
  intros H. unfold createAndUpdateSpreadsheet, rtry in H.
  unfold rbind at 1 in H. unfold rlift at 1 in H.
  destruct (validateConfig config) as [[]|e0] eqn:Hval.
  2: { early_exit H 0%nat EmptyString EmptyString (@nil string). }
  unfold rbind at 1 in H. rewrite createAuthClient_outcome in H.
  destruct (load_credentials world) as [[]|e1] eqn:Hcred.
  2: { early_exit H 0%nat EmptyString EmptyString (@nil string). }
  unfold rbind at 1 in H. unfold say at 1 in H.
  unfold rbind at 1 in H. unfold rlift at 1 in H.
  destruct (extractSpreadsheetId_value world (templateUrl config)) as [src|e2] eqn:Hsrc.
  2: { early_exit H 0%nat EmptyString EmptyString (@nil string). }
  unfold rbind at 1 in H. rewrite copySpreadsheet_outcome in H.
  destruct (files_copy world _ src (newSpreadsheetName config)) as [newId|e3] eqn:Hcopy.
  2: { early_exit H 1%nat src EmptyString (@nil string). }
  unfold rbind at 1 in H. rewrite moveFileToFolder_outcome in H.
  destruct (files_get world _ newId) as [parents|e4].
  2: { early_exit H 2%nat src newId (@nil string). }
  cbv zeta in H.
  destruct (drive_write world _ (FilesUpdate _ _ _ _ _)) as [[]|e5].
  2: { early_exit H 3%nat src newId parents. }
  unfold rbind at 1 in H. rewrite shareWithOrganization_outcome in H. cbv zeta in H.
  destruct (drive_write world _ (PermissionsCreate _ _ _ _)) as [[]|e6].
  2: { early_exit H 4%nat src newId parents. }
  unfold rbind at 1 in H.
  match type of H with
  | context [run_engine ?m ?t] =>
      assert (Hbefore : exists ext1,
                 t = tr ++ ext1 /\
                 drive_calls ext1 = drive_plan config src newId parents /\
                 sheet_requests (engine_events ext1) = [])
        by (eexists; rewrite <- !app_assoc; split; [reflexivity | split; reflexivity]);
      destruct Hbefore as (ext1 & Hbefore & Hplan1 & Hnone1);
      rewrite Hbefore in H;
      destruct (m (engine_events (tr ++ ext1))) as [re etr] eqn:Hrun;
      destruct (processDataOperations_adds _ _ _ _ _ _ Hrun)
        as (eext & calls & -> & Hcalls & Hall & _);
      rewrite (run_engine_adds m (tr ++ ext1) re eext Hrun) in H
  end.
  assert (Hreq : Forall (fun call => call_target call = newId) (sheet_requests eext)).
  { rewrite Hcalls. constructor; [reflexivity |].
    eapply Forall_impl; [exact Hall | intros c [Hc _]; exact Hc]. }
  assert (Hshape : forall last : event,
             sheet_requests [last] = [] ->
             drive_calls (ext1 ++ map Engine eext ++ [Engine last])
             = take 4 (drive_plan config src newId parents) /\
             Forall (fun call => call_target call = newId)
               (sheet_requests (engine_events (ext1 ++ map Engine eext ++ [Engine last]))) /\
             exists ext2,
               ext1 ++ map Engine eext ++ [Engine last] = ext1 ++ ext2 /\
               drive_calls ext2 = []).
  { intros last Hlast.
    rewrite !drive_calls_app, !engine_events_app, drive_calls_map, engine_events_map.
    rewrite !sheet_requests_app, Hnone1, Hplan1. cbn [engine_events drive_calls].
    rewrite Hlast, !app_nil_r. cbn [app].
    split; [reflexivity |]. split; [exact Hreq |].
    exists (map Engine eext ++ [Engine last]). split; [reflexivity |].
    now rewrite drive_calls_app, drive_calls_map. }
  destruct re as [[]|e7].
  - unfold rbind, say, rret in H. injection H as <- <-.
    match goal with
    | |- context [Engine (ConsoleLog ?l)] =>
        destruct (Hshape (ConsoleLog l) eq_refl) as (Hd & Hf & ext2 & Hsplit & Hd2)
    end.
    eexists; exists src, newId, parents, 4%nat.
    rewrite <- !app_assoc. split; [reflexivity |].
    split; [exact Hd |]. split; [auto |]. split; [eauto |]. split; [exact Hf |].
    split; [intros _; split; [reflexivity | exists ext1, ext2; auto] |].
    intros url [= <-]. auto.
  - unfold rbind, say, rthrow in H. injection H as <- <-.
    match goal with
    | |- context [Engine (ConsoleError ?l)] =>
        destruct (Hshape (ConsoleError l) eq_refl) as (Hd & Hf & ext2 & Hsplit & Hd2)
    end.
    eexists; exists src, newId, parents, 4%nat.
    rewrite <- !app_assoc. split; [reflexivity |].
    split; [exact Hd |]. split; [auto |]. split; [eauto |]. split; [exact Hf |].
    split; [intros _; split; [reflexivity | exists ext1, ext2; auto] |].
    intros url Hurl. discriminate.
Qed.
End Stages.

Lemma run_fails_fast (world : Collaborators) (config : Config)
    (tr : list run_event) (e : js_error) :
  validateConfig config = Throw e ->
  createAndUpdateSpreadsheet world config tr
  = (Throw e,
     tr ++ [Engine (ConsoleError ("Error in createAndUpdateSpreadsheet:"
                                  +:+ " " +:+ message e))]).
Proof.
  intros H. unfold createAndUpdateSpreadsheet, rtry. unfold rbind at 1.
  unfold rlift at 1. rewrite H. reflexivity.
Qed.

(** X16. Validation comes first and stops everything: when
    [validateConfig] throws, be it for the last operation of a long list,
    the run throws this error after one error line; no credentials are
    read, nothing is copied, nothing is written. *)
Theorem validation_fails_fast (world : Collaborators) (config : Config)
    (tr : list run_event) (e : js_error) :
  validateConfig config = Throw e ->
  createAndUpdateSpreadsheet world config tr
  = (Throw e,
     tr ++ [Engine (ConsoleError ("Error in createAndUpdateSpreadsheet:"
                                  +:+ " " +:+ message e))]).
Proof. apply run_fails_fast. Qed.

Lemma validation_fails_fast_witness :
  createAndUpdateSpreadsheet (sample_world (Ok tt) [("Data", 4)])
    (sample_config
       [sample_operation "Data" "d.csv" "replaceEntireSheet";
        {| sheetName := JStr "Data"; dataPath := JStr "d.csv";
           operationType := JStr "replaceAtCell"; cellId := JUndefined |}]) []
  = (Throw (Error "Operation #2 with type 'replaceAtCell' is missing cellId"),
     [Engine (ConsoleError ("Error in createAndUpdateSpreadsheet: "
                            +:+ "Operation #2 with type 'replaceAtCell' is missing cellId"))]).
Proof.
  apply (validation_fails_fast _ _ []
           (Error "Operation #2 with type 'replaceAtCell' is missing cellId")).
  reflexivity.
Defined.

(** X17. When the credentials cannot be loaded, the cause only appears on
    the error console: the error the run throws is a new one with a fixed
    message, and no request is sent. *)
Theorem credentials_failure (world : Collaborators) (config : Config)
    (tr : list run_event) (cause : js_error) :
  validateConfig config = Ok tt ->
  load_credentials world = Throw cause ->
  let fixed := "Failed to create authentication client. "
               +:+ "Make sure service-account.json exists." in
  createAndUpdateSpreadsheet world config tr
  = (Throw (Error fixed),
     tr ++ [Engine (ConsoleError ("Error creating authentication client:"
                                  +:+ " " +:+ message cause));
            Engine (ConsoleError ("Error in createAndUpdateSpreadsheet:"
                                  +:+ " " +:+ fixed))]).
Proof.
  intros Hval Hcred fixed. unfold createAndUpdateSpreadsheet, rtry.
  unfold rbind at 1. unfold rlift at 1. rewrite Hval.
  unfold rbind at 1. rewrite createAuthClient_outcome, Hcred.
  unfold rbind, say, rthrow. now rewrite <- app_assoc.
Qed.

Lemma credentials_failure_witness :
  fst (createAndUpdateSpreadsheet
         (sample_world (Throw (Error "Unexpected token } in JSON")) [("Data", 4)])
         (sample_config [sample_operation "Data" "d.csv" "replaceEntireSheet"]) [])
  = Throw (Error ("Failed to create authentication client. "
                  +:+ "Make sure service-account.json exists.")).
Proof.
  rewrite (credentials_failure
             (sample_world (Throw (Error "Unexpected token } in JSON")) [("Data", 4)])
             (sample_config [sample_operation "Data" "d.csv" "replaceEntireSheet"])
             [] (Error "Unexpected token } in JSON") eq_refl eq_refl).
  reflexivity.
Defined.

(** X18. The Drive requests of a run, whatever its outcome: none before
    the configuration is validated, the credentials are loaded and an id is
    found in the template URL; then, in this order and each at most once,
    the copy of the template, the reading of the parents of the copy, the
    move of the copy and its sharing with the domain as reader, up to the
    first one that fails.  All but the first are about the file whose id
    the copy returned: the template itself is only ever copied. *)
Theorem drive_requests_follow_plan (world : Collaborators) (config : Config)
    (tr tr' : list run_event) (r : result string) :
  createAndUpdateSpreadsheet world config tr = (r, tr') ->
  exists ext sourceId newId parents k,
    tr' = tr ++ ext /\
    drive_calls ext = take k (drive_plan config sourceId newId parents) /\
    ((1 <= k)%nat ->
     validateConfig config = Ok tt /\ load_credentials world = Ok tt /\
     extractSpreadsheetId_value world (templateUrl config) = Ok sourceId) /\
    ((2 <= k)%nat ->
     exists tr0,
       files_copy world tr0 sourceId (newSpreadsheetName config) = Ok newId).
Proof.
  intros H.
  destruct (run_structure world config tr tr' r H)
    as (ext & src & newId & parents & k & Hext & Hplan & Hpre & Hcopy & _).
  exists ext, src, newId, parents, k. auto.
Qed.


Lemma drive_requests_follow_plan_witness :
  exists ext sourceId newId parents k,
    snd (createAndUpdateSpreadsheet (sample_world (Ok tt) [("Data", 4)])
           (sample_config [sample_operation "Data" "d.csv" "replaceEntireSheet"]) [])
    = [] ++ ext /\
    drive_calls ext
    = take k (drive_plan
                (sample_config [sample_operation "Data" "d.csv" "replaceEntireSheet"])
                sourceId newId parents).
Proof.
  destruct (drive_requests_follow_plan (sample_world (Ok tt) [("Data", 4)])
              (sample_config [sample_operation "Data" "d.csv" "replaceEntireSheet"])
              [] _ _ (surjective_pairing _))
    as (ext & src & newId & parents & k & Hext & Hplan & _).
  exists ext, src, newId, parents, k. split; [exact Hext | exact Hplan].
Defined.


(** ** The front end *)

Section FrontEnd.
Context (term : Terminal).



Lemma collect_config_operations (tr : list main_event) :
  let answer :=
    user term (tr ++ front_end_intro term)
      "How many sheet operations do you want to perform? " in
  let collected :=
    collect_operations term (loop_count (parseInt10 answer)) 0
      (tr ++ front_end_intro term
       ++ [Question "How many sheet operations do you want to perform? "]) in
  operations (fst (collect_config term tr)) = OpsArray (fst collected) /\
  snd (collect_config term tr) = snd collected.
Proof.
  unfold collect_config, sbind, console_log, prompt, sret, front_end_intro.
  cbv zeta. rewrite <- !app_assoc. cbn [app].
  match goal with
  | |- context [collect_operations term ?c 0 ?t] =>
      destruct (collect_operations term c 0 t) as [ops tr']
  end.
  split; reflexivity.
Qed.

(** One turn of the loop, in terms of the answers given in it. *)
Lemma collect_operation_answers (i : nat) (tr : list main_event) :
  collect_operation term i tr
  = (expected_operation (turn_sheet term i tr) (turn_path term i tr)
       (turn_choice term i tr) (turn_cell term i tr),
     tr ++ turn_intro i ++ turn_end (turn_choice term i tr)).
Proof.
  unfold collect_operation, sbind, console_log, console_error, prompt, sret.
  unfold turn_end, expected_operation, turn_sheet, turn_path, turn_choice, turn_cell,
    turn_intro.
  cbn [take]. rewrite <- !app_assoc. cbn [app].
  match goal with
  | |- context [String.eqb ?c "1"] => generalize c; intros choice
  end.
  destruct (String.eqb_spec choice "1") as [-> | H1].
  { reflexivity. }
  destruct (String.eqb_spec choice "2") as [-> | H2].
  - cbn [andb]. rewrite <- !app_assoc. reflexivity.
  - cbn [andb]. rewrite <- !app_assoc. reflexivity.
Qed.

(** The turns of the loop, the last one apart. *)
Lemma collect_operations_snoc (count : nat) :
  forall (i : nat) (tr : list main_event),
    collect_operations term (S count) i tr
    = (fst (collect_operations term count i tr)
       ++ [fst (collect_operation term (i + count)
                  (snd (collect_operations term count i tr)))],
       snd (collect_operation term (i + count)
              (snd (collect_operations term count i tr)))).
Proof.
  induction count as [|count IH]; intros i tr.
  - cbn [collect_operations]. unfold sbind, sret. cbn [fst snd app].
    rewrite Nat.add_0_r. now destruct (collect_operation term i tr).
  - change (collect_operations term (S (S count)) i tr)
      with (sbind (collect_operation term i)
              (fun operation =>
                 sbind (collect_operations term (S count) (S i))
                   (fun rest => sret (operation :: rest))) tr).
    change (collect_operations term (S count) i tr)
      with (sbind (collect_operation term i)
              (fun operation =>
                 sbind (collect_operations term count (S i))
                   (fun rest => sret (operation :: rest))) tr).
    unfold sbind at 1 3 5 7. destruct (collect_operation term i tr) as [operation tr1].
    unfold sbind, sret. rewrite (IH (S i) tr1).
    destruct (collect_operations term count (S i) tr1) as [rest tr2].
    cbn [fst snd app]. now rewrite Nat.add_succ_r.
Qed.

(** The whole loop, in terms of the answers given in its turns. *)
Lemma collect_operations_answers (count : nat) (tr : list main_event) :
  collect_operations term count 0 tr
  = (map (turn_operation term tr) (seq 0 count), turn_start term tr count).
Proof.
  induction count as [|count IH]; [reflexivity |].
  rewrite collect_operations_snoc, IH. cbn [fst snd Nat.add].
  rewrite collect_operation_answers, seq_S, map_app. reflexivity.
Qed.
End FrontEnd.

(** X3. How many operations the front end asks for: when the answer to
    the question about their number is the decimal text of an integer [n]
    of magnitude below 2^53, possibly after white space and before anything
    that does not start with a digit (as in [3 sheets]), the loop of
    [main] builds [n] operations, none when [n] is not positive; in that
    case nothing more is asked. *)
Theorem front_end_count (term : Terminal) (tr : list main_event) (n : Z)
    (space rest : string) :
  count_answer term tr = space +:+ numberToString n +:+ rest ->
  string_forall is_js_space space = true ->
  starts_with is_digit rest = false ->
  safe_integer n ->
  exists ops,
    operations (fst (collect_config term tr)) = OpsArray ops /\
    List.length ops = Z.to_nat n /\
    (n <= 0 -> ops = [] /\ snd (collect_config term tr) = first_turn term tr).
Proof.
  intros Hanswer Hspace Hrest _.
  destruct (collect_config_operations term tr) as [Hops Htr]. cbv zeta in Hops, Htr.
  fold (count_answer term tr) in Hops, Htr. fold (first_turn term tr) in Hops, Htr.
  rewrite Hanswer, (parseInt10_reads_number n space rest Hspace Hrest) in Hops, Htr.
  cbn [loop_count] in Hops, Htr.
  rewrite collect_operations_answers in Hops, Htr. cbn [fst snd] in Hops, Htr.
  eexists. split; [exact Hops |].
  split; [now rewrite length_map, length_seq |].
  intros Hn. rewrite Htr. replace (Z.to_nat n) with O by lia. split; reflexivity.
Qed.

Lemma front_end_count_witness :
  exists ops,
    operations (fst (collect_config (sample_terminal " 3 sheets") [])) = OpsArray ops /\
    List.length ops = 3%nat.
Proof.
  destruct (front_end_count (sample_terminal " 3 sheets") [] 3 " " " sheets"
              eq_refl eq_refl eq_refl ltac:(safe_integer_closed))
    as (ops & Hops & Hlen & _).
  exists ops. split; [exact Hops | exact Hlen].
Defined.



Lemma empty_operations_rejected (config : Config) :
  operations config = OpsArray [] -> exists e, validateConfig config = Throw e.
Proof.
  intros H. unfold validateConfig.
  destruct (check_required config requiredFields); cbn [bind_result]; [| eauto].
  rewrite H. eauto.
Qed.

Lemma main_when_invalid (term : Terminal) (tr tr1 : list main_event)
    (config : Config) (e : js_error) :
  collect_config term tr = (config, tr1) ->
  validateConfig config = Throw e ->
  main term tr
  = (tt,
     tr1 ++ [Run (Engine (ConsoleLog
                            (newline
                             +:+ "Starting spreadsheet creation and data operations...")));
             Run (Engine (ConsoleError ("Error in createAndUpdateSpreadsheet:"
                                        +:+ " " +:+ message e)));
             Run (Engine (ConsoleError ("An error occurred:" +:+ " " +:+ message e)));
             Run (Engine (ConsoleError ("Stack trace:" +:+ " " +:+ error_stack term e)));
             Close]).
Proof.
  intros Hcollect Hval. unfold main. unfold sbind at 1. rewrite Hcollect.
  unfold sbind at 1. unfold console_log at 1.
  unfold sbind at 1. unfold run_spreadsheet.
  rewrite (run_fails_fast _ config _ e Hval), drop_app_length.
  unfold sbind, console_error. cbn [map]. now rewrite <- !app_assoc.
Qed.

(** X21. A configuration that does not pass validation, as the front end
    sees it: after the questions, the run is announced, the error is
    written three times (by the run, then with its message and with its
    stack by the front end), and the readline interface is closed.  Nothing
    is requested from Drive or Sheets, and [main] does not throw. *)
Theorem main_validation_failure (term : Terminal) (tr tr1 : list main_event)
    (config : Config) (e : js_error) :
  collect_config term tr = (config, tr1) ->
  validateConfig config = Throw e ->
  main term tr
  = (tt,
     tr1 ++ [Run (Engine (ConsoleLog
                            (newline
                             +:+ "Starting spreadsheet creation and data operations...")));
             Run (Engine (ConsoleError ("Error in createAndUpdateSpreadsheet:"
                                        +:+ " " +:+ message e)));
             Run (Engine (ConsoleError ("An error occurred:" +:+ " " +:+ message e)));
             Run (Engine (ConsoleError ("Stack trace:" +:+ " " +:+ error_stack term e)));
             Close]).
Proof. apply main_when_invalid. Qed.

Lemma main_validation_failure_witness :
  filter (fun e => is_request e = true) (snd (main (sample_terminal EmptyString) [])) = [].
Proof.
  rewrite (main_validation_failure (sample_terminal EmptyString) [] _ _
             (Error "Missing required configuration: templateUrl")
             (surjective_pairing _) eq_refl).
  reflexivity.
Defined.

(** X22. Without a positive number of operations nothing is requested:
    when the answer to the question about the number of operations is not
    read as a positive number (no digits, zero, a negative number), the
    front end asks no further question about operations, and its whole run
    sends no request to Drive or Sheets. *)
Theorem main_without_operations (term : Terminal) (tr : list main_event) :
  loop_count
    (parseInt10
       (user term (tr ++ front_end_intro term)
          "How many sheet operations do you want to perform? ")) = O ->
  exists ext,
    snd (main term tr) = tr ++ ext /\
    Forall (fun e => is_request e = false) ext /\
    List.length (filter (fun e => is_question e = true) ext) = 6%nat.
Proof.
  intros Hcount.
  destruct (collect_config_operations term tr) as [Hops Htr]. cbv zeta in Hops, Htr.
  rewrite Hcount in Hops, Htr. cbn [collect_operations sret fst snd] in Hops, Htr.
  destruct (empty_operations_rejected _ Hops) as [e He].
  destruct (collect_config term tr) as [config tr1] eqn:Hcollect.
  cbn [fst snd] in *. subst tr1.
  rewrite (main_when_invalid term tr _ config e Hcollect He). cbn [snd].
  eexists. rewrite <- !app_assoc. split; [reflexivity |].
  unfold front_end_intro. split; [repeat constructor | reflexivity].
Qed.

Lemma main_without_operations_witness :
  exists ext,
    snd (main (sample_terminal "none") []) = [] ++ ext /\
    Forall (fun e => is_request e = false) ext.
Proof.
  destruct (main_without_operations (sample_terminal "none") [] eq_refl)
    as (ext & Hext & Hreq & _).
  exists ext. split; [exact Hext | exact Hreq].
Defined.

(** ** Replacing a whole sheet *)

(** X23. [replaceEntireSheet] clears, then writes, and nothing undoes the
    clearing: when the clearing fails nothing is written; when the clearing
    works and the writing fails, the sheet has been cleared and the error of
    the writing is thrown; both requests are about the whole sheet, named
    as in the operation. *)
Theorem replaceEntireSheet_outcomes (env : Environment) (spreadsheetId : string)
    (sheet : jsval) (data : TabularData) (tr : list event) :
  let clear := ValuesClear spreadsheetId sheet in
  let write := ValuesUpdate spreadsheetId sheet "USER_ENTERED" data in
  let failed e :=
    ConsoleError ("Error replacing sheet data (" +:+ toString sheet +:+ "):"
                  +:+ " " +:+ message e) in
  (forall e,
      remote env tr clear = Throw e ->
      replaceEntireSheet env spreadsheetId sheet data tr
      = (Throw e, tr ++ [ApiCall clear; failed e])) /\
  (forall e,
      remote env tr clear = Ok tt ->
      remote env (tr ++ [ApiCall clear]) write = Throw e ->
      replaceEntireSheet env spreadsheetId sheet data tr
      = (Throw e, tr ++ [ApiCall clear; ApiCall write; failed e])) /\
  (remote env tr clear = Ok tt ->
   remote env (tr ++ [ApiCall clear]) write = Ok tt ->
   replaceEntireSheet env spreadsheetId sheet data tr
   = (Ok tt,
      tr ++ [ApiCall clear; ApiCall write;
             ConsoleLog ("Replaced all data in sheet: " +:+ toString sheet)])).
Proof.
  intros clear write failed.
  unfold replaceEntireSheet, try_catch, bind, call_remote, emit, throw.
  fold clear write. repeat split.
  - intros e ->. now rewrite <- app_assoc.
  - intros e -> ->. now rewrite <- !app_assoc.
  - intros -> ->. now rewrite <- !app_assoc.
Qed.

Lemma replaceEntireSheet_outcomes_witness :
  replaceEntireSheet
    {| spreadsheets_get := fun _ => Ok [("Data", 4)];
       read_csv := fun _ _ => Ok [["a"]];
       remote := fun _ call =>
         match call with
         | ValuesClear _ _ => Ok tt
         | _ => Throw (Error "quota exceeded")
         end;
       match_type_error := fun _ => Error "startCell.match is not a function" |}
    "id" (JStr "Data") [["a"]] []
  = (Throw (Error "quota exceeded"),
     [ApiCall (ValuesClear "id" (JStr "Data"));
      ApiCall (ValuesUpdate "id" (JStr "Data") "USER_ENTERED" [["a"]]);
      ConsoleError "Error replacing sheet data (Data): quota exceeded"]).
Proof.
  apply (proj1 (proj2 (replaceEntireSheet_outcomes _ "id" (JStr "Data") [["a"]] []))
           (Error "quota exceeded")); reflexivity.
Defined.

(** ** Anchors that are not plain references *)

(** X24. Of an anchor, [getEndCell] only reads the first run of uppercase
    letters and the first run of digits, wherever they are and whatever is
    around them: the result is the one for these letters followed by these
    digits.  An anchor that names its sheet, as [Sheet1!B2], is thus read as
    column S, row 1. *)
Theorem getEndCell_first_runs (startCell letters digits : string)
    (data : TabularData) :
  match_class is_upper startCell = Some letters ->
  match_class is_digit startCell = Some digits ->
  well_formed_ref (letters +:+ digits) = true /\
  getEndCell startCell data = getEndCell (letters +:+ digits) data.
Proof.
  intros Hl Hd.
  destruct (match_class_run _ _ _ Hl) as [Hlu Hln].
  destruct (match_class_run _ _ _ Hd) as [Hdd Hdn].
  destruct (match_well_formed letters digits Hlu Hln Hdd Hdn) as [Hl' Hd'].
  split.
  - unfold well_formed_ref.
    destruct (take_class_run is_upper letters digits Hlu (digits_start digits Hdd))
      as [-> ->].
    rewrite Hdd. apply nonempty_spec in Hln, Hdn. now rewrite Hln, Hdn.
  - unfold getEndCell. now rewrite Hl, Hd, Hl', Hd'.
Qed.

Lemma getEndCell_first_runs_witness :
  getEndCell "Sheet1!B2" [["x"; "y"]] = getEndCell "S1" [["x"; "y"]].
Proof.
  exact (proj2 (getEndCell_first_runs "Sheet1!B2" "S" "1" [["x"; "y"]]
                  eq_refl eq_refl)).
Defined.

(** ** A run in which Drive answers *)

(** X25. Once the configuration is valid, the credentials load, the
    template URL holds an id and Drive carries out every request, the
    outcome of the run is the outcome of the dispatcher on the copy, started
    after the copy, the move and the sharing: when the dispatcher returns,
    the run returns the URL of the copy; when the dispatcher throws, the run
    throws the same error. *)
Theorem run_outcome_is_dispatcher_outcome (world : Collaborators) (config : Config)
    (sourceId newId : string) (parents : list string) (tr : list run_event) :
  validateConfig config = Ok tt ->
  load_credentials world = Ok tt ->
  extractSpreadsheetId_value world (templateUrl config) = Ok sourceId ->
  (forall tr0, files_copy world tr0 sourceId (newSpreadsheetName config) = Ok newId) ->
  (forall tr0, files_get world tr0 newId = Ok parents) ->
  (forall tr0 call, drive_write world tr0 call = Ok tt) ->
  fst (createAndUpdateSpreadsheet world config tr)
  = match fst (processDataOperations (engine_env world) newId
                 (config_operations config)
                 (engine_events (tr ++ run_prelude config sourceId newId parents))) with
    | Ok _ => Ok ("https://docs.google.com/spreadsheets/d/" +:+ newId)
    | Throw e => Throw e
    end.
Proof.
  intros Hval Hcred Hsrc Hcopy Hget Hwrite.
  unfold createAndUpdateSpreadsheet, rtry.
  unfold rbind at 1. unfold rlift at 1. rewrite Hval.
  unfold rbind at 1. rewrite createAuthClient_outcome, Hcred.
  unfold rbind at 1. unfold say at 1.
  unfold rbind at 1. unfold rlift at 1. rewrite Hsrc.
  unfold rbind at 1. rewrite copySpreadsheet_outcome, Hcopy.
  unfold rbind at 1. rewrite moveFileToFolder_outcome, Hget. cbv zeta. rewrite Hwrite.
  unfold rbind at 1. rewrite shareWithOrganization_outcome. cbv zeta. rewrite Hwrite.
  unfold rbind at 1. unfold run_engine.
  match goal with
  | |- context [processDataOperations ?env ?id ?ops (engine_events ?t)] =>
      replace t with (tr ++ run_prelude config sourceId newId parents)
        by (unfold run_prelude; rewrite <- !app_assoc; reflexivity)
  end.
  destruct (processDataOperations _ _ _ _) as [[[]|e] etr]; reflexivity.
Qed.

Lemma run_outcome_is_dispatcher_outcome_witness :
  fst (createAndUpdateSpreadsheet (sample_world (Ok tt) [("Data", 4)])
         (sample_config [sample_operation "Data" "d.csv" "replaceEntireSheet"]) [])
  = Ok "https://docs.google.com/spreadsheets/d/copy" /\
  fst (createAndUpdateSpreadsheet (sample_world (Ok tt) [("Data", 4)])
         (sample_config [sample_operation "Data" "bad.csv" "replaceEntireSheet"]) [])
  = Throw (Error "ENOENT: no such file or directory").
Proof.
  split.
  - rewrite (run_outcome_is_dispatcher_outcome (sample_world (Ok tt) [("Data", 4)])
               (sample_config [sample_operation "Data" "d.csv" "replaceEntireSheet"])
               "1AbCdEfGhIjKlMnOpQrStUvWxYz012" "copy" ["root"] []
               eq_refl eq_refl eq_refl
               (fun _ => eq_refl) (fun _ => eq_refl) (fun _ _ => eq_refl)).
    reflexivity.
  - rewrite (run_outcome_is_dispatcher_outcome (sample_world (Ok tt) [("Data", 4)])
               (sample_config [sample_operation "Data" "bad.csv" "replaceEntireSheet"])
               "1AbCdEfGhIjKlMnOpQrStUvWxYz012" "copy" ["root"] []
               eq_refl eq_refl eq_refl
               (fun _ => eq_refl) (fun _ => eq_refl) (fun _ _ => eq_refl)).
    reflexivity.
Defined.
